(** * Capitrack: valuation and reconstruction engine

    A shallow embedding of the price, holdings, valuation, history and
    snapshot routes of Capitrack (the prices router, src/unnamed/part_005),
    of its currency route (src/src/routes/currencies.ts) and of the CSV
    import with its deduplication (src/services/importer.ts, which the
    sources carry in src/jest.config.js from line 21), with the properties
    the specification states about them.  The development goes on with
    what the code shows beyond its specification: the price cache across
    requests, the per-account breakdown of the valuations, the replay in
    closed form, the writing routes of the currency router, the calendar
    view of the snapshots and the holdings of one account
    (src/src/routes/accounts.ts).

    Conventions of the embedding.
    - SQLite REAL and JavaScript number values are exact rationals ([Qc]);
      overflow, Infinity and NaN of IEEE doubles are outside the model, and
      so is their rounding.  Where that rounding decides a claim, the
      totals loop of the summary is also embedded over an arithmetic of its
      own ([Arith]), of which the exact numbers and the doubles are
      instances.  A division that
      JavaScript or SQL would perform by zero is made visible by [js_div],
      which returns [None] there.
    - A table with a primary key is a finite map from the key to the row
      (accounts, price_cache, daily_wealth); a table that the code scans row
      by row is a list (transactions, currency_rates).
    - A JavaScript object used as a dictionary is a [gmap].
    - The market-data provider is a deterministic oracle: a call either
      resolves to a value or throws. *)

From Stdlib Require Import Ascii String QArith Qcanon Qround Lqa Floats.
From Stdlib Require OrderedTypeEx.
From stdpp Require Import numbers gmap strings list fin_maps sorting pretty.

Local Open Scope Qc_scope.

(** ** Numbers *)

Definition sum_qc (l : list Qc) : Qc := foldr Qcplus 0 l.

(** The decimal literal n/d. *)
Definition dec (n : Z) (d : positive) : Qc := Q2Qc (n # d).

(** The ε of the HAVING clause and of the history filter: 0.00000001. *)
Definition eps : Qc := Q2Qc (1 # 100000000).

(** [x || d] on a JavaScript number [x]: a zero is falsy. *)
Definition num_or (x d : Qc) : Qc := if decide (x = 0) then d else x.

(** [x || d] on a possibly undefined (or NULL) number. *)
Definition opt_num_or (x : option Qc) (d : Qc) : Qc :=
  match x with Some v => num_or v d | None => d end.

(** [s || d] on a string: the empty string is falsy. *)
Definition str_or (s d : string) : string := if decide (s = "") then d else s.

Definition opt_str_or (s : option string) (d : string) : string :=
  match s with Some v => str_or v d | None => d end.

(** A division as the code performs it; [None] marks a zero divisor. *)
Definition js_div (a b : Qc) : option Qc :=
  if decide (b = 0) then None else Some (a / b).

(** ** Data model (src/types/index.ts and the table declarations) *)

Inductive tx_type :=
  | buy | sell | transfer_in | transfer_out | dividend | interest | fee.

Global Instance tx_type_eq_dec : EqDecision tx_type.
Proof. solve_decision. Defined.

Record Transaction := {
  tx_id : Z;
  tx_account_id : Z;
  tx_symbol : string;
  tx_kind : tx_type;
  tx_quantity : Qc;
  tx_price : Qc;
  tx_fee : Qc;
  tx_currency : string;
  tx_date : string;
  tx_notes : string
}.

(** A row of [accounts]; its [id] is the key of the table. *)
Record Account := {
  acc_name : string;
  acc_currency : string
}.

Record PriceCache := {
  pc_symbol : string;
  pc_price : Qc;
  pc_currency : string;
  pc_name : string;
  pc_change_percent : Qc;
  pc_updated_at : string
}.

Record CurrencyRate := {
  cr_from_currency : string;
  cr_to_currency : string;
  cr_rate : Qc
}.

(** ** Holdings Aggregator

    The SELECT t.symbol, a.id, ..., SUM(...) - SUM(...) as quantity,
    SUM(...) / NULLIF(SUM(...), 0) as avg_cost ... GROUP BY t.symbol, a.id
    HAVING quantity > 0.00000001 of GET /dashboard/summary and
    POST /daily-wealth. *)

Record HoldingRow := {
  h_symbol : string;
  h_account_id : Z;
  h_account_name : string;
  h_account_currency : string;
  h_quantity : Qc;
  h_avg_cost : option Qc
}.

(** type IN ('buy','transfer_in') *)
Definition acquiring (k : tx_type) : bool :=
  match k with buy | transfer_in => true | _ => false end.

(** type IN ('sell','transfer_out') *)
Definition disposing (k : tx_type) : bool :=
  match k with sell | transfer_out => true | _ => false end.

(** FROM transactions t JOIN accounts a ON t.account_id = a.id *)
Definition joined (txs : list Transaction) (accs : gmap Z Account)
  : list (Transaction * (Z * Account)) :=
  omap (λ t, (λ a, (t, (tx_account_id t, a))) <$> accs !! tx_account_id t) txs.

Definition row_key (r : Transaction * (Z * Account)) : string * Z :=
  (tx_symbol r.1, r.2.1).

Definition group_rows (k : string * Z) (rows : list (Transaction * (Z * Account)))
  : list (Transaction * (Z * Account)) :=
  filter (λ r, row_key r = k) rows.

(** SUM(CASE WHEN t.type IN ('buy','transfer_in') THEN t.quantity ELSE 0 END) *)
Definition sum_acq_qty (g : list (Transaction * (Z * Account))) : Qc :=
  sum_qc ((λ r, if acquiring (tx_kind r.1) then tx_quantity r.1 else 0) <$> g).

(** SUM(CASE WHEN t.type IN ('sell','transfer_out') THEN t.quantity ELSE 0 END) *)
Definition sum_disp_qty (g : list (Transaction * (Z * Account))) : Qc :=
  sum_qc ((λ r, if disposing (tx_kind r.1) then tx_quantity r.1 else 0) <$> g).

(** SUM(CASE WHEN t.type IN ('buy','transfer_in') THEN t.quantity * t.price ELSE 0 END) *)
Definition sum_acq_notional (g : list (Transaction * (Z * Account))) : Qc :=
  sum_qc ((λ r, if acquiring (tx_kind r.1)
                then tx_quantity r.1 * tx_price r.1 else 0) <$> g).

(** NULLIF(x, y) *)
Definition nullif (x y : Qc) : option Qc :=
  if decide (x = y) then None else Some x.

(** x / NULLIF(y, 0): NULL when the divisor is NULL. *)
Definition div_nullif (x y : Qc) : option Qc :=
  (λ d, x / d) <$> nullif y 0.

(** One group of the query.  The columns outside the aggregates are read
    from one row of the group, here its first row [r].  That holds for the
    HAVING clause too: SQLite resolves a bare name in WHERE, GROUP BY and
    HAVING to a column of the FROM tables before it considers a result
    alias, transactions has a column quantity, and so
    HAVING quantity > 0.00000001 compares t.quantity of that row, not the
    difference of the sums that the result names quantity. *)
Definition holding_of_group (g : list (Transaction * (Z * Account)))
  : option HoldingRow :=
  match g with
  | [] => None
  | r :: _ =>
      if decide (eps < tx_quantity r.1) then
        Some {| h_symbol := tx_symbol r.1;
                h_account_id := r.2.1;
                h_account_name := acc_name r.2.2;
                h_account_currency := acc_currency r.2.2;
                h_quantity := sum_acq_qty g - sum_disp_qty g;
                h_avg_cost := div_nullif (sum_acq_notional g) (sum_acq_qty g) |}
      else None
  end.

(** The order in which GROUP BY t.symbol, a.id delivers the groups: by
    symbol in the BINARY collation, then by account id. *)
Definition key_le (a b : string * Z) : Prop :=
  if decide (a.1 = b.1) then (a.2 ≤ b.2)%Z else String.leb a.1 b.1 = true.

Global Instance key_le_dec : RelDecision key_le.
Proof. intros a b. unfold key_le. case_decide; apply _. Defined.

Definition holdings_query (txs : list Transaction) (accs : gmap Z Account)
  : list HoldingRow :=
  let rows := joined txs accs in
  omap (λ k, holding_of_group (group_rows k rows))
       (merge_sort key_le (remove_dups (row_key <$> rows))).

(** The Holding of the data model, in the words of the specification. *)
Definition pair_txs (s : string) (a : Z) (txs : list Transaction) : list Transaction :=
  filter (λ t, tx_symbol t = s ∧ tx_account_id t = a) txs.

Definition acquired (l : list Transaction) : list Transaction :=
  filter (λ t, acquiring (tx_kind t) = true) l.

Definition disposed (l : list Transaction) : list Transaction :=
  filter (λ t, disposing (tx_kind t) = true) l.

Definition spec_quantity (s : string) (a : Z) (txs : list Transaction) : Qc :=
  sum_qc (tx_quantity <$> acquired (pair_txs s a txs))
  - sum_qc (tx_quantity <$> disposed (pair_txs s a txs)).

Definition spec_avg_cost (s : string) (a : Z) (txs : list Transaction) : option Qc :=
  let acq := acquired (pair_txs s a txs) in
  js_div (sum_qc ((λ t, tx_quantity t * tx_price t) <$> acq))
         (sum_qc (tx_quantity <$> acq)).

(** ** Environment: clock and market-data provider *)

(** The instants a request reads.  [current_timestamp] is SQLite's
    CURRENT_TIMESTAMP, [minus_5_minutes] is datetime('now','-5 minutes'),
    [iso_now] is new Date().toISOString() and [today] its part before 'T'. *)
Record Clock := {
  current_timestamp : string;
  minus_5_minutes : string;
  iso_now : string;
  today : string
}.

(** The result of an awaited call: it resolves, or it throws an Error. *)
Inductive outcome (A : Type) :=
  | Resolved (a : A)
  | Thrown (message : string).
Arguments Resolved {A} a.
Arguments Thrown {A} message.

(** The fields of a provider quote that the routes read; each may be
    undefined. *)
Record YahooQuote := {
  regularMarketPrice : option Qc;
  yq_currency : option string;
  shortName : option string;
  longName : option string;
  regularMarketChangePercent : option Qc
}.

(** One element of [result.quotes] of a chart call: the calendar day of
    [q.date] (new Date(q.date).toISOString().split('T')[0]) and [q.close],
    which may be null. *)
Record ChartQuote := {
  cq_day : string;
  cq_close : option Qc
}.

Record YahooFinance := {
  yf_quote : string → outcome YahooQuote;
  yf_chart : string → string → string → outcome (list ChartQuote)
}.

(** A response of a route: [res.json(body)] with its status, or
    [res.status(n).json({ error })]. *)
Inductive Response (A : Type) :=
  | Json (status : nat) (body : A)
  | ErrorJson (status : nat) (error : string).
Arguments Json {A} status body.
Arguments ErrorJson {A} status error.

(** String.prototype.toUpperCase on the ASCII range. *)
Definition upper_ascii (c : ascii) : ascii :=
  let n := nat_of_ascii c in
  if (97 <=? n)%nat && (n <=? 122)%nat then ascii_of_nat (n - 32) else c.

Fixpoint toUpperCase (s : string) : string :=
  match s with
  | EmptyString => EmptyString
  | String c s' => String (upper_ascii c) (toUpperCase s')
  end.

(** ** Price Oracle and cache: GET /quote/:symbol and POST /quotes *)

(** SELECT * FROM price_cache WHERE symbol = ?
      AND updated_at > datetime('now', '-5 minutes') *)
Definition select_fresh (clk : Clock) (cache : gmap string PriceCache)
    (symbol : string) : option PriceCache :=
  match cache !! symbol with
  | Some e => if String.ltb (minus_5_minutes clk) (pc_updated_at e)
              then Some e else None
  | None => None
  end.

(** The [data] object built from a provider quote. *)
Record QuoteData := {
  qd_symbol : string;
  qd_price : Qc;
  qd_currency : string;
  qd_name : string;
  qd_change_percent : Qc
}.

Definition quote_data (symbol : string) (quote : YahooQuote) : QuoteData :=
  {| qd_symbol := symbol;
     qd_price := opt_num_or (regularMarketPrice quote) 0;
     qd_currency := opt_str_or (yq_currency quote) "USD";
     qd_name := match shortName quote with
                | Some n => if decide (n = "") then opt_str_or (longName quote) symbol
                            else n
                | None => opt_str_or (longName quote) symbol
                end;
     qd_change_percent := opt_num_or (regularMarketChangePercent quote) 0 |}.

(** INSERT OR REPLACE INTO price_cache (...) VALUES (?, ?, ?, ?, ?,
    CURRENT_TIMESTAMP) *)
Definition upsert_price (clk : Clock) (d : QuoteData)
    (cache : gmap string PriceCache) : gmap string PriceCache :=
  <[qd_symbol d := {| pc_symbol := qd_symbol d;
                      pc_price := qd_price d;
                      pc_currency := qd_currency d;
                      pc_name := qd_name d;
                      pc_change_percent := qd_change_percent d;
                      pc_updated_at := current_timestamp clk |}]> cache.

(** The JSON values the quote routes send for one symbol. *)
Inductive QuoteJson :=
  | JCached (e : PriceCache)
  | JData (d : QuoteData)
  | JStale (e : PriceCache)
  | JNoData (symbol : string) (price : Qc) (error : string).

(** What a quote route leaves behind: the price cache and the symbols it
    asked the provider for, oldest first. *)
Record QuoteEffects := {
  fx_cache : gmap string PriceCache;
  fx_fetched : list string
}.

(** GET /quote/:symbol *)
Definition get_quote (getYahooFinance : outcome YahooFinance) (clk : Clock)
    (cache : gmap string PriceCache) (param : string)
  : Response QuoteJson * QuoteEffects :=
  let symbol := toUpperCase param in
  match select_fresh clk cache symbol with
  | Some cached =>
      (Json 200 (JCached cached), {| fx_cache := cache; fx_fetched := [] |})
  | None =>
      let catch (message : string) (fetched : list string) :=
        match cache !! symbol with
        | Some stale =>
            (Json 200 (JStale stale),
             {| fx_cache := cache; fx_fetched := fetched |})
        | None =>
            (ErrorJson 404
               ("Could not fetch price for " +:+ symbol +:+ ": " +:+ message),
             {| fx_cache := cache; fx_fetched := fetched |})
        end in
      match getYahooFinance with
      | Thrown message => catch message []
      | Resolved yf =>
          match yf_quote yf symbol with
          | Thrown message => catch message [symbol]
          | Resolved quote =>
              let data := quote_data symbol quote in
              (Json 200 (JData data),
               {| fx_cache := upsert_price clk data cache;
                  fx_fetched := [symbol] |})
          end
      end
  end.

(** The first loop of POST /quotes: fresh entries go to [results], the other
    symbols to [toFetch]. *)
Definition check_cache (clk : Clock) (cache : gmap string PriceCache)
    (acc : gmap string QuoteJson * list string) (sym : string)
  : gmap string QuoteJson * list string :=
  let s := toUpperCase sym in
  match select_fresh clk cache s with
  | Some cached => (<[s := JCached cached]> acc.1, acc.2)
  | None => (acc.1, acc.2 ++ [s])
  end.

(** The catch of one symbol: the cache entry of any age, else an error
    entry. *)
Definition stale_or_error (cache : gmap string PriceCache) (symbol message : string)
  : QuoteJson :=
  match cache !! symbol with
  | Some stale => JStale stale
  | None => JNoData symbol 0 message
  end.

(** One round of the fetch loop of POST /quotes. *)
Definition fetch_one (yf : YahooFinance) (clk : Clock)
    (acc : gmap string QuoteJson * QuoteEffects) (symbol : string)
  : gmap string QuoteJson * QuoteEffects :=
  let fetched := fx_fetched acc.2 ++ [symbol] in
  match yf_quote yf symbol with
  | Resolved quote =>
      let data := quote_data symbol quote in
      (<[symbol := JData data]> acc.1,
       {| fx_cache := upsert_price clk data (fx_cache acc.2);
          fx_fetched := fetched |})
  | Thrown message =>
      (<[symbol := stale_or_error (fx_cache acc.2) symbol message]> acc.1,
       {| fx_cache := fx_cache acc.2; fx_fetched := fetched |})
  end.

(** One round of the loop of the outer catch of POST /quotes. *)
Definition unavailable_one (cache : gmap string PriceCache)
    (results : gmap string QuoteJson) (symbol : string) : gmap string QuoteJson :=
  match results !! symbol with
  | Some _ => results
  | None => <[symbol := stale_or_error cache symbol "Service unavailable"]> results
  end.

(** POST /quotes; the body carries a [symbols] array or does not. *)
Definition post_quotes (getYahooFinance : outcome YahooFinance) (clk : Clock)
    (cache : gmap string PriceCache) (body : option (list string))
  : Response (gmap string QuoteJson) * QuoteEffects :=
  match body with
  | None =>
      (ErrorJson 400 "symbols array required",
       {| fx_cache := cache; fx_fetched := [] |})
  | Some symbols =>
      let '(results, toFetch) := foldl (check_cache clk cache) (∅, []) symbols in
      match toFetch with
      | [] => (Json 200 results, {| fx_cache := cache; fx_fetched := [] |})
      | _ :: _ =>
          match getYahooFinance with
          | Resolved yf =>
              let '(results', fx) :=
                foldl (fetch_one yf clk)
                      (results, {| fx_cache := cache; fx_fetched := [] |}) toFetch in
              (Json 200 results', fx)
          | Thrown _ =>
              (Json 200 (foldl (unavailable_one cache) results toFetch),
               {| fx_cache := cache; fx_fetched := [] |})
          end
      end
  end.

(** The entry POST /quotes owes to one upper-cased symbol, from that
    symbol's cache entry and that symbol's fetch alone. *)
Definition quote_entry (getYahooFinance : outcome YahooFinance) (clk : Clock)
    (cache : gmap string PriceCache) (s : string) : QuoteJson :=
  match select_fresh clk cache s with
  | Some cached => JCached cached
  | None =>
      match getYahooFinance with
      | Thrown _ => stale_or_error cache s "Service unavailable"
      | Resolved yf =>
          match yf_quote yf s with
          | Resolved quote => JData (quote_data s quote)
          | Thrown message => stale_or_error cache s message
          end
      end
  end.

(** The provider call of one symbol as the routes see it: obtaining the
    client may throw, and so may the quote call. *)
Definition fetch_quote (getYahooFinance : outcome YahooFinance) (symbol : string)
  : outcome YahooQuote :=
  match getYahooFinance with
  | Thrown message => Thrown message
  | Resolved yf => yf_quote yf symbol
  end.

(** What the fetch loop of POST /quotes stores for a symbol it visits. *)
Definition fetched_entry (cache : gmap string PriceCache) (yf : YahooFinance)
    (s : string) : QuoteJson :=
  match yf_quote yf s with
  | Resolved quote => JData (quote_data s quote)
  | Thrown message => stale_or_error cache s message
  end.

(** ** Valuation Engine: GET /dashboard/summary *)

(** [[...new Set(l)]]: the distinct elements in order of first occurrence. *)
Definition js_set (l : list string) : list string :=
  foldl (λ seen x, if decide (x ∈ seen) then seen else seen ++ [x]) [] l.

(** The object the catch of the price loop falls back to. *)
Definition no_price (symbol : string) : PriceCache :=
  {| pc_symbol := symbol; pc_price := 0; pc_currency := "USD";
     pc_name := symbol; pc_change_percent := 0; pc_updated_at := "" |}.

(** One round of the price loop of the summary. *)
Definition resolve_one (yf : YahooFinance) (clk : Clock)
    (acc : gmap string PriceCache * QuoteEffects) (symbol : string)
  : gmap string PriceCache * QuoteEffects :=
  match select_fresh clk (fx_cache acc.2) symbol with
  | Some cached => (<[symbol := cached]> acc.1, acc.2)
  | None =>
      let fetched := fx_fetched acc.2 ++ [symbol] in
      match yf_quote yf symbol with
      | Resolved quote =>
          let d := quote_data symbol quote in
          (<[symbol := {| pc_symbol := symbol;
                          pc_price := qd_price d;
                          pc_currency := qd_currency d;
                          pc_name := qd_name d;
                          pc_change_percent := qd_change_percent d;
                          pc_updated_at := iso_now clk |}]> acc.1,
           {| fx_cache := upsert_price clk d (fx_cache acc.2);
              fx_fetched := fetched |})
      | Thrown _ =>
          (<[symbol := default (no_price symbol) (fx_cache acc.2 !! symbol)]> acc.1,
           {| fx_cache := fx_cache acc.2; fx_fetched := fetched |})
      end
  end.

(** The key of the in-memory rate table: `${from}_${to}`. *)
Definition rate_key (from to : string) : string := from +:+ "_" +:+ to.

(** for (const r of rateRows) rates[`${r.from_currency}_${r.to_currency}`] = r.rate *)
Definition load_rates (rateRows : list CurrencyRate) : gmap string Qc :=
  foldl (λ rates r,
           <[rate_key (cr_from_currency r) (cr_to_currency r) := cr_rate r]> rates)
        ∅ rateRows.

(** SELECT base_currency FROM users LIMIT 1, and 'EUR' without a user. *)
Definition user_base_currency (users : list string) : string :=
  match users with
  | base :: _ => base
  | [] => "EUR"
  end.

(** prices[h.symbol] || { price: 0, currency: 'USD' } *)
Definition price_data (prices : gmap string PriceCache) (h : HoldingRow)
  : Qc * string :=
  match prices !! h_symbol h with
  | Some p => (pc_price p, pc_currency p)
  | None => (0, "USD")
  end.

(** rates[rateKey] || 1 *)
Definition rate_or_1 (rates : gmap string Qc) (rateKey : string) : Qc :=
  opt_num_or (rates !! rateKey) 1.

(** [marketValue] of a holding after the conversion to the base currency. *)
Definition market_value (prices : gmap string PriceCache) (rates : gmap string Qc)
    (baseCurrency : string) (h : HoldingRow) : Qc :=
  let priceData := price_data prices h in
  let marketValue := h_quantity h * priceData.1 in
  let priceCurrency := str_or priceData.2 "USD" in
  if decide (priceCurrency ≠ baseCurrency)
  then marketValue * rate_or_1 rates (rate_key priceCurrency baseCurrency)
  else marketValue.

(** [costBasis] of a holding after the conversion to the base currency. *)
Definition cost_basis (rates : gmap string Qc) (baseCurrency : string)
    (h : HoldingRow) : Qc :=
  let costBasis := h_quantity h * opt_num_or (h_avg_cost h) 0 in
  if decide (h_account_currency h ≠ "" ∧ h_account_currency h ≠ baseCurrency)
  then costBasis * rate_or_1 rates (rate_key (h_account_currency h) baseCurrency)
  else costBasis.

Record AccountSummary := {
  as_account_id : Z;
  as_account_name : string;
  as_market_value : Qc;
  as_cost_basis : Qc;
  as_holdings_count : nat
}.

(** The variables of the totals loop. *)
Record Totals := {
  accountSummaries : gmap Z AccountSummary;
  totalWealth : Qc;
  totalCost : Qc
}.

(** One round of for (const h of holdings) of the summary, on exact
    numbers; [add_valued] below is the same round over any arithmetic. *)
Definition add_holding (prices : gmap string PriceCache) (rates : gmap string Qc)
    (baseCurrency : string) (acc : Totals) (h : HoldingRow) : Totals :=
  let marketValue := market_value prices rates baseCurrency h in
  let costBasis := cost_basis rates baseCurrency h in
  let summaries :=
    match accountSummaries acc !! h_account_id h with
    | Some _ => accountSummaries acc
    | None =>
        <[h_account_id h := {| as_account_id := h_account_id h;
                               as_account_name := h_account_name h;
                               as_market_value := 0;
                               as_cost_basis := 0;
                               as_holdings_count := 0 |}]> (accountSummaries acc)
    end in
  {| accountSummaries :=
       alter (λ a, {| as_account_id := as_account_id a;
                      as_account_name := as_account_name a;
                      as_market_value := as_market_value a + marketValue;
                      as_cost_basis := as_cost_basis a + costBasis;
                      as_holdings_count := S (as_holdings_count a) |})
             (h_account_id h) summaries;
     totalWealth := totalWealth acc + marketValue;
     totalCost := totalCost acc + costBasis |}.

Record Summary := {
  total_wealth : Qc;
  total_cost : Qc;
  total_gain : Qc;
  total_gain_percent : option Qc;
  base_currency : string;
  accounts : list AccountSummary;
  holdings_count : nat
}.

(** totalCost > 0 ? ((totalWealth - totalCost) / totalCost) * 100 : 0, with
    the division made visible: [None] would be a division by zero. *)
Definition gain_percent (wealth cost : Qc) : option Qc :=
  if decide (0 < cost) then (λ x, x * dec 100 1) <$> js_div (wealth - cost) cost
  else Some 0.

(** The totals loop and the body of the answer, on exact numbers;
    [summarize_over] below is the same over any arithmetic.  Object.values
    lists the summaries; their order is not modelled. *)
Definition summarize (holdings : list HoldingRow) (prices : gmap string PriceCache)
    (rates : gmap string Qc) (baseCurrency : string) : Summary :=
  let t := foldl (add_holding prices rates baseCurrency)
                 {| accountSummaries := ∅; totalWealth := 0; totalCost := 0 |}
                 holdings in
  {| total_wealth := totalWealth t;
     total_cost := totalCost t;
     total_gain := totalWealth t - totalCost t;
     total_gain_percent := gain_percent (totalWealth t) (totalCost t);
     base_currency := baseCurrency;
     accounts := (map_to_list (accountSummaries t)).*2;
     holdings_count := length holdings |}.

(** ** The totals loop over either arithmetic *)

(** The operations the totals loop performs on numbers: +=, -, /, * 100 and
    the test > 0. *)
Record Arith := {
  num : Type;
  n_zero : num;
  n_hundred : num;
  n_add : num → num → num;
  n_sub : num → num → num;
  n_mul : num → num → num;
  n_div : num → num → num;
  n_pos : num → bool
}.

(** Exact arithmetic, the reading of the rest of this development. *)
Definition exact : Arith :=
  {| num := Qc; n_zero := 0; n_hundred := dec 100 1;
     n_add := Qcplus; n_sub := Qcminus; n_mul := Qcmult; n_div := Qcdiv;
     n_pos := λ x, bool_decide (0 < x) |}.

(** IEEE 754 binary64, the numbers of JavaScript. *)
Definition double : Arith :=
  {| num := float; n_zero := 0%float; n_hundred := 100%float;
     n_add := PrimFloat.add; n_sub := PrimFloat.sub; n_mul := PrimFloat.mul;
     n_div := PrimFloat.div; n_pos := λ x, PrimFloat.ltb 0%float x |}.

(** A holding as the totals loop sees it once marketValue and costBasis have
    been computed and converted. *)
Record ValuedHolding (A : Arith) := {
  vh_account_id : Z;
  vh_account_name : string;
  vh_market_value : num A;
  vh_cost_basis : num A
}.
Arguments vh_account_id {A}.
Arguments vh_account_name {A}.
Arguments vh_market_value {A}.
Arguments vh_cost_basis {A}.

Record AccountSummaryOver (A : Arith) := {
  ao_account_id : Z;
  ao_account_name : string;
  ao_market_value : num A;
  ao_cost_basis : num A;
  ao_holdings_count : nat
}.
Arguments ao_account_id {A}.
Arguments ao_account_name {A}.
Arguments ao_market_value {A}.
Arguments ao_cost_basis {A}.
Arguments ao_holdings_count {A}.

Record TotalsOver (A : Arith) := {
  to_accountSummaries : gmap Z (AccountSummaryOver A);
  to_totalWealth : num A;
  to_totalCost : num A
}.
Arguments to_accountSummaries {A}.
Arguments to_totalWealth {A}.
Arguments to_totalCost {A}.

(** The three updates of the summary of an account in one round. *)
Definition credit (A : Arith) (a : AccountSummaryOver A) (v : ValuedHolding A)
  : AccountSummaryOver A :=
  {| ao_account_id := ao_account_id a;
     ao_account_name := ao_account_name a;
     ao_market_value := n_add A (ao_market_value a) (vh_market_value v);
     ao_cost_basis := n_add A (ao_cost_basis a) (vh_cost_basis v);
     ao_holdings_count := S (ao_holdings_count a) |}.

(** The second half of one round of for (const h of holdings):
      if (!accountSummaries[h.account_id]) accountSummaries[h.account_id] = {...};
      accountSummaries[h.account_id].market_value += marketValue;
      accountSummaries[h.account_id].cost_basis += costBasis;
      accountSummaries[h.account_id].holdings_count++;
      totalWealth += marketValue;
      totalCost += costBasis; *)
Definition add_valued (A : Arith) (acc : TotalsOver A) (v : ValuedHolding A)
  : TotalsOver A :=
  let summaries :=
    match to_accountSummaries acc !! vh_account_id v with
    | Some _ => to_accountSummaries acc
    | None =>
        <[vh_account_id v := {| ao_account_id := vh_account_id v;
                                ao_account_name := vh_account_name v;
                                ao_market_value := n_zero A;
                                ao_cost_basis := n_zero A;
                                ao_holdings_count := 0 |}]>
          (to_accountSummaries acc)
    end in
  {| to_accountSummaries :=
       alter (λ a, credit A a v) (vh_account_id v) summaries;
     to_totalWealth := n_add A (to_totalWealth acc) (vh_market_value v);
     to_totalCost := n_add A (to_totalCost acc) (vh_cost_basis v) |}.

Record SummaryOver (A : Arith) := {
  so_total_wealth : num A;
  so_total_cost : num A;
  so_total_gain : num A;
  so_total_gain_percent : num A;
  so_accounts : list (AccountSummaryOver A);
  so_holdings_count : nat
}.
Arguments so_total_wealth {A}.
Arguments so_total_cost {A}.
Arguments so_total_gain {A}.
Arguments so_total_gain_percent {A}.
Arguments so_accounts {A}.
Arguments so_holdings_count {A}.

(** The totals loop and the numbers of the answer:
      total_gain: totalWealth - totalCost,
      total_gain_percent:
        totalCost > 0 ? ((totalWealth - totalCost) / totalCost) * 100 : 0
    Object.values lists the summaries; their order is not modelled. *)
Definition summarize_over (A : Arith) (valued : list (ValuedHolding A))
  : SummaryOver A :=
  let t := foldl (add_valued A)
                 {| to_accountSummaries := ∅;
                    to_totalWealth := n_zero A; to_totalCost := n_zero A |}
                 valued in
  {| so_total_wealth := to_totalWealth t;
     so_total_cost := to_totalCost t;
     so_total_gain := n_sub A (to_totalWealth t) (to_totalCost t);
     so_total_gain_percent :=
       if n_pos A (to_totalCost t)
       then n_mul A (n_div A (n_sub A (to_totalWealth t) (to_totalCost t))
                       (to_totalCost t))
                  (n_hundred A)
       else n_zero A;
     so_accounts := (map_to_list (to_accountSummaries t)).*2;
     so_holdings_count := length valued |}.

(** The holdings of [summarize] as the totals loop sees them. *)
Definition valued_holding (prices : gmap string PriceCache) (rates : gmap string Qc)
    (baseCurrency : string) (h : HoldingRow) : ValuedHolding exact :=
  Build_ValuedHolding exact (h_account_id h) (h_account_name h)
    (market_value prices rates baseCurrency h) (cost_basis rates baseCurrency h).

Definition account_summary_exact (a : AccountSummaryOver exact) : AccountSummary :=
  {| as_account_id := ao_account_id a;
     as_account_name := ao_account_name a;
     as_market_value := ao_market_value a;
     as_cost_basis := ao_cost_basis a;
     as_holdings_count := ao_holdings_count a |}.

(** What the loop owes to account [i]: nothing without a holding of it,
    else the name of its first holding and the running sums over its
    holdings, in their order. *)
Definition account_summary_over (A : Arith) (valued : list (ValuedHolding A))
    (i : Z) : option (AccountSummaryOver A) :=
  match filter (λ v, vh_account_id v = i) valued with
  | [] => None
  | v :: g =>
      Some {| ao_account_id := i;
              ao_account_name := vh_account_name v;
              ao_market_value :=
                foldl (λ acc v, n_add A acc (vh_market_value v)) (n_zero A) (v :: g);
              ao_cost_basis :=
                foldl (λ acc v, n_add A acc (vh_cost_basis v)) (n_zero A) (v :: g);
              ao_holdings_count := length (v :: g) |}
  end.

(** Three holdings of two accounts worth 0.1, 0.1 and 0.4 at no cost. *)
Definition drifting_holdings : list (ValuedHolding double) :=
  [ Build_ValuedHolding double 1 "Broker" (1 / 10)%float 0%float;
    Build_ValuedHolding double 2 "Wallet" (1 / 10)%float 0%float;
    Build_ValuedHolding double 1 "Broker" (4 / 10)%float 0%float ].

(** The variables of the loop of [summarize], from those of the loop over
    exact arithmetic. *)
Definition totals_exact (t : TotalsOver exact) : Totals :=
  {| accountSummaries := account_summary_exact <$> to_accountSummaries t;
     totalWealth := to_totalWealth t;
     totalCost := to_totalCost t |}.

(** ** The valuation of one holding, in the words of the specification *)

(** The multiplier of a conversion from one currency to another: the rate
    stored under the key of the pair, and 1 when there is none or when it
    is zero. *)
Definition spec_multiplier (rates : gmap string Qc) (from to : string) : Qc :=
  match rates !! (from +:+ "_" +:+ to) with
  | Some r => if decide (r = 0) then 1 else r
  | None => 1
  end.

(** The full cost basis of a holding in the base currency: quantity times
    average cost (0 without one), converted from the currency of the
    account unless that is empty or the base currency. *)
Definition spec_cost_basis (rates : gmap string Qc) (baseCurrency : string)
    (h : HoldingRow) : Qc :=
  let cost := h_quantity h * default 0 (h_avg_cost h) in
  if decide (h_account_currency h = "" ∨ h_account_currency h = baseCurrency)
  then cost
  else cost * spec_multiplier rates (h_account_currency h) baseCurrency.

(** The market value of a holding in the base currency at a price in a
    currency ('USD' when that is empty). *)
Definition spec_market_value (rates : gmap string Qc) (baseCurrency : string)
    (price : Qc) (currency : string) (h : HoldingRow) : Qc :=
  let value := h_quantity h * price in
  let priceCurrency := if decide (currency = "") then "USD" else currency in
  if decide (priceCurrency = baseCurrency) then value
  else value * spec_multiplier rates priceCurrency baseCurrency.

(** The price and currency at which the summary values a symbol: those of
    the cache entry of the symbol when that is newer than five minutes;
    else those of the quote when the quote call resolves (0 and 'USD' for
    want of a value); else those of the cache entry of any age; else 0 in
    'USD'. *)
Definition spec_price (yf : YahooFinance) (clk : Clock)
    (cache : gmap string PriceCache) (symbol : string) : Qc * string :=
  let fetched :=
    match yf_quote yf symbol with
    | Resolved quote =>
        Some (default 0 (regularMarketPrice quote),
              match yq_currency quote with
              | Some c => if decide (c = "") then "USD" else c
              | None => "USD"
              end)
    | Thrown _ => None
    end in
  match cache !! symbol with
  | Some e =>
      if String.ltb (minus_5_minutes clk) (pc_updated_at e)
      then (pc_price e, pc_currency e)
      else default (pc_price e, pc_currency e) fetched
  | None => default (0, "USD") fetched
  end.

(** ** Daily Wealth Snapshotter: POST /daily-wealth *)

Record AccountDetail := {
  ad_name : string;
  ad_market_value : Qc;
  ad_cost_basis : Qc
}.

(** The parsed form of the [details] column: the accounts with their ids and
    [holdings_count]. *)
Record DailyWealth := {
  dw_total_wealth : Qc;
  dw_total_cost : Qc;
  dw_base_currency : string;
  dw_details : list (Z * AccountDetail) * nat;
  dw_updated_at : string
}.

(** The tables the routes read and write.  [users] holds the base_currency
    of each user row. *)
Record Db := {
  transactions : list Transaction;
  db_accounts : gmap Z Account;
  price_cache : gmap string PriceCache;
  currency_rates : list CurrencyRate;
  users : list string;
  daily_wealth : gmap string DailyWealth
}.

(** GET /dashboard/summary *)
Definition dashboard_summary (getYahooFinance : outcome YahooFinance)
    (clk : Clock) (db : Db) : Response Summary * QuoteEffects :=
  let holdings := holdings_query (transactions db) (db_accounts db) in
  let symbols := js_set (h_symbol <$> holdings) in
  let start := (∅, {| fx_cache := price_cache db; fx_fetched := [] |}) in
  let priced :=
    match symbols with
    | [] => Resolved start
    | _ :: _ =>
        match getYahooFinance with
        | Resolved yf => Resolved (foldl (resolve_one yf clk) start symbols)
        | Thrown message => Thrown message
        end
    end in
  match priced with
  | Thrown message =>
      (ErrorJson 500 message,
       {| fx_cache := price_cache db; fx_fetched := [] |})
  | Resolved (prices, fx) =>
      let rates := load_rates (currency_rates db) in
      let baseCurrency := user_base_currency (users db) in
      (Json 200 (summarize holdings prices rates baseCurrency), fx)
  end.

(** for (const symbol of symbols) { ... if (cached) prices[symbol] = cached } *)
Definition cached_prices (cache : gmap string PriceCache) (symbols : list string)
  : gmap string PriceCache :=
  foldl (λ prices symbol,
           match cache !! symbol with
           | Some cached => <[symbol := cached]> prices
           | None => prices
           end) ∅ symbols.

Record SnapshotTotals := {
  accountDetails : gmap Z AccountDetail;
  snapWealth : Qc;
  snapCost : Qc
}.

(** One round of for (const h of holdings) of the snapshot, on exact
    numbers. *)
Definition add_detail (prices : gmap string PriceCache) (rates : gmap string Qc)
    (baseCurrency : string) (acc : SnapshotTotals) (h : HoldingRow)
  : SnapshotTotals :=
  let marketValue := market_value prices rates baseCurrency h in
  let costBasis := cost_basis rates baseCurrency h in
  let details :=
    match accountDetails acc !! h_account_id h with
    | Some _ => accountDetails acc
    | None =>
        <[h_account_id h := {| ad_name := h_account_name h;
                               ad_market_value := 0;
                               ad_cost_basis := 0 |}]> (accountDetails acc)
    end in
  {| accountDetails :=
       alter (λ d, {| ad_name := ad_name d;
                      ad_market_value := ad_market_value d + marketValue;
                      ad_cost_basis := ad_cost_basis d + costBasis |})
             (h_account_id h) details;
     snapWealth := snapWealth acc + marketValue;
     snapCost := snapCost acc + costBasis |}.

Record SnapshotJson := {
  sj_date : string;
  sj_total_wealth : Qc;
  sj_total_cost : Qc;
  sj_base_currency : string
}.

(** The totals of the snapshot, from the cache as it is. *)
Definition snapshot_totals (db : Db) : SnapshotTotals :=
  let holdings := holdings_query (transactions db) (db_accounts db) in
  let symbols := js_set (h_symbol <$> holdings) in
  let prices := cached_prices (price_cache db) symbols in
  let rates := load_rates (currency_rates db) in
  let baseCurrency := user_base_currency (users db) in
  foldl (add_detail prices rates baseCurrency)
        {| accountDetails := ∅; snapWealth := 0; snapCost := 0 |} holdings.

(** POST /daily-wealth: the answer and the daily_wealth table after the
    INSERT OR REPLACE. *)
Definition post_daily_wealth (clk : Clock) (db : Db)
  : Response SnapshotJson * gmap string DailyWealth :=
  let holdings := holdings_query (transactions db) (db_accounts db) in
  let baseCurrency := user_base_currency (users db) in
  let t := snapshot_totals db in
  let details := (map_to_list (accountDetails t), length holdings) in
  (Json 200 {| sj_date := today clk;
               sj_total_wealth := snapWealth t;
               sj_total_cost := snapCost t;
               sj_base_currency := baseCurrency |},
   <[today clk := {| dw_total_wealth := snapWealth t;
                     dw_total_cost := snapCost t;
                     dw_base_currency := baseCurrency;
                     dw_details := details;
                     dw_updated_at := current_timestamp clk |}]> (daily_wealth db)).

(** The entry the price loop of the summary stores for a symbol, from the
    cache the request started with. *)
Definition resolved_price (yf : YahooFinance) (clk : Clock)
    (cache : gmap string PriceCache) (s : string) : PriceCache :=
  match select_fresh clk cache s with
  | Some cached => cached
  | None =>
      match yf_quote yf s with
      | Resolved quote =>
          let d := quote_data s quote in
          {| pc_symbol := s; pc_price := qd_price d; pc_currency := qd_currency d;
             pc_name := qd_name d; pc_change_percent := qd_change_percent d;
             pc_updated_at := iso_now clk |}
      | Thrown _ => default (no_price s) (cache !! s)
      end
  end.

(** The price and currency a valuation reads from an optional entry. *)
Definition entry_price_data (e : option PriceCache) : Qc * string :=
  match e with
  | Some p => (pc_price p, pc_currency p)
  | None => (0, "USD")
  end.

Definition with_price_cache (db : Db) (cache : gmap string PriceCache) : Db :=
  {| transactions := transactions db; db_accounts := db_accounts db;
     price_cache := cache; currency_rates := currency_rates db;
     users := users db; daily_wealth := daily_wealth db |}.

Definition with_daily_wealth (db : Db) (dw : gmap string DailyWealth) : Db :=
  {| transactions := transactions db; db_accounts := db_accounts db;
     price_cache := price_cache db; currency_rates := currency_rates db;
     users := users db; daily_wealth := dw |}.

(** ** Currency Converter: GET /convert *)

Record ConvertQuery := {
  q_from : option string;
  q_to : option string;
  q_amount : option string
}.

Record ConvertJson := {
  cj_result : Qc;
  cj_rate : Qc
}.

(** A query parameter that is present and not the empty string. *)
Definition truthy (p : option string) : option string :=
  match p with
  | Some v => if decide (v = "") then None else Some v
  | None => None
  end.

(** SELECT rate FROM currency_rates WHERE from_currency = ? AND to_currency = ?
    read with .get: the first matching row. *)
Definition select_rate (rows : list CurrencyRate) (from to : string) : option Qc :=
  cr_rate <$> head (filter (λ r, cr_from_currency r = from ∧ cr_to_currency r = to) rows).

(** GET /convert.  [parseFloat] reads the amount; the second component lists
    the (from, to) pairs looked up in currency_rates. *)
Definition get_convert (parseFloat : string → Qc) (rows : list CurrencyRate)
    (query : ConvertQuery) : Response ConvertJson * list (string * string) :=
  match truthy (q_from query), truthy (q_to query), truthy (q_amount query) with
  | Some from, Some to, Some amount =>
      if decide (toUpperCase from = toUpperCase to) then
        (Json 200 {| cj_result := parseFloat amount; cj_rate := 1 |}, [])
      else
        let lookups := [(toUpperCase from, toUpperCase to)] in
        match select_rate rows (toUpperCase from) (toUpperCase to) with
        | None =>
            (ErrorJson 404 ("No rate found for " +:+ from +:+ " to " +:+ to),
             lookups)
        | Some rate =>
            (Json 200 {| cj_result := parseFloat amount * rate; cj_rate := rate |},
             lookups)
        end
  | _, _, _ => (ErrorJson 400 "from, to, and amount required", [])
  end.

(** ** Historical reconstruction: GET /portfolio/history *)

(** The order of date strings: a <= b on JavaScript strings and the BINARY
    collation of ORDER BY. *)
Definition str_le (a b : string) : Prop := String.leb a b = true.

Global Instance str_le_dec : RelDecision str_le.
Proof. intros a b. unfold str_le. apply _. Defined.

(** ['buy', 'transfer_in', 'dividend'].includes(tx.type) *)
Definition adds_units (k : tx_type) : bool :=
  match k with buy | transfer_in | dividend => true | _ => false end.

(** The body shared by the holdingMap loop and the replay loop, on exact
    numbers:
      if (!m[tx.symbol]) m[tx.symbol] = 0;
      if ([...].includes(tx.type)) m[tx.symbol] += tx.quantity;
      else if ([...].includes(tx.type)) m[tx.symbol] -= tx.quantity; *)
Definition apply_tx (m : gmap string Qc) (tx : Transaction) : gmap string Qc :=
  let m0 :=
    match m !! tx_symbol tx with
    | Some q => if decide (q = 0) then <[tx_symbol tx := 0]> m else m
    | None => <[tx_symbol tx := 0]> m
    end in
  if adds_units (tx_kind tx) then
    alter (λ q, q + tx_quantity tx) (tx_symbol tx) m0
  else if disposing (tx_kind tx) then
    alter (λ q, q - tx_quantity tx) (tx_symbol tx) m0
  else m0.

(** Object.keys(holdingMap).filter(s => holdingMap[s] > 0.00000001); the
    order of the keys is not modelled. *)
Definition active_symbols (holdingMap : gmap string Qc) : list string :=
  (filter (λ e, eps < e.2) (map_to_list holdingMap)).*1.

(** The series of one symbol built from the chart quotes. *)
Definition series_of_chart (quotes : list ChartQuote) : gmap string Qc :=
  foldl (λ series q,
           match cq_close q with
           | Some close => <[cq_day q := close]> series
           | None => series
           end) ∅ quotes.

(** priceHistories[symbol] after the try/catch of one symbol. *)
Definition fetch_series (yf : YahooFinance) (cache : gmap string PriceCache)
    (startDate interval symbol : string) : gmap string Qc :=
  match yf_chart yf symbol startDate interval with
  | Resolved quotes => series_of_chart quotes
  | Thrown _ => {[ "fallback" := opt_num_or (pc_price <$> cache !! symbol) 0 ]}
  end.

(** The dates of all series, without the key 'fallback'. *)
Definition all_dates (priceHistories : gmap string (gmap string Qc)) : gset string :=
  map_fold (λ _ series dates, dom series ∪ dates) ∅ priceHistories ∖ {["fallback"]}.

(** The price of a symbol at a date: the entry of that date, else the entry
    of the latest earlier date of the series, else prices.fallback || 0. *)
Definition price_at (prices : gmap string Qc) (dateStr : string) : Qc :=
  match prices !! dateStr with
  | Some price => price
  | None =>
      let priceDates :=
        merge_sort str_le
          (filter (λ d, d ≠ "fallback" ∧ str_le d dateStr) (map_to_list prices).*1) in
      match last priceDates with
      | Some d => default 0 (prices !! d)
      | None => opt_num_or (prices !! "fallback") 0
      end
  end.

(** totalValue of one date: the symbols with qty <= 0.00000001 are skipped. *)
Definition portfolio_value (priceHistories : gmap string (gmap string Qc))
    (running : gmap string Qc) (dateStr : string) : Qc :=
  sum_qc ((λ e, if decide (e.2 ≤ eps) then 0
                else e.2 * price_at (default ∅ (priceHistories !! e.1)) dateStr)
          <$> map_to_list running).

(** transactions.filter(t => t.date <= dateStr) *)
Definition dated_upto (dateStr : string) (transactions : list Transaction)
  : list Transaction :=
  filter (λ t, str_le (tx_date t) dateStr) transactions.

(** totalCost of one date: the buy and transfer_in rows dated up to it. *)
Definition cost_upto (transactions : list Transaction) (dateStr : string) : Qc :=
  sum_qc ((λ tx, if acquiring (tx_kind tx) then tx_quantity tx * tx_price tx else 0)
          <$> dated_upto dateStr transactions).

(** Math.round: the nearest integer, halves upwards. *)
Definition math_round (y : Qc) : Z := Qfloor (y + dec 1 2).

(** Math.round(x * 100) / 100, read in exact arithmetic.  In doubles the
    product is itself rounded before Math.round sees it, so that next to a
    half cent the two readings can differ by a cent.  What the properties
    below use of [round2] holds of both readings: the result is a whole
    number of cents, less than a cent from its argument, and it grows with
    its argument. *)
Definition round2 (x : Qc) : Qc :=
  Qc_of_Z (math_round (x * dec 100 1)) / dec 100 1.

Record HistoryPoint := {
  hp_date : string;
  hp_value : Qc;
  hp_cost : Qc;
  hp_gain : Qc
}.

(** The variables of the replay loop. *)
Record ReplayState := {
  runningHoldings : gmap string Qc;
  txIndex : nat;
  portfolioHistory : list HistoryPoint
}.

(** while (txIndex < transactions.length
           && transactions[txIndex].date <= dateStr) { ...; txIndex++ }
    run on [rest], the transactions from txIndex on. *)
Fixpoint advance (rest : list Transaction) (dateStr : string)
    (running : gmap string Qc) (index : nat) : gmap string Qc * nat :=
  match rest with
  | [] => (running, index)
  | tx :: rest' =>
      if decide (str_le (tx_date tx) dateStr)
      then advance rest' dateStr (apply_tx running tx) (S index)
      else (running, index)
  end.

(** The point pushed for a date, from the running holdings of that date. *)
Definition point_at (transactions : list Transaction)
    (priceHistories : gmap string (gmap string Qc))
    (running : gmap string Qc) (dateStr : string) : HistoryPoint :=
  let totalValue := portfolio_value priceHistories running dateStr in
  let totalCost := cost_upto transactions dateStr in
  {| hp_date := dateStr;
     hp_value := round2 totalValue;
     hp_cost := round2 totalCost;
     hp_gain := round2 (totalValue - totalCost) |}.

(** One round of for (const dateStr of sortedDates). *)
Definition replay_step (transactions : list Transaction)
    (priceHistories : gmap string (gmap string Qc))
    (st : ReplayState) (dateStr : string) : ReplayState :=
  let moved := advance (drop (txIndex st) transactions) dateStr
                       (runningHoldings st) (txIndex st) in
  {| runningHoldings := moved.1;
     txIndex := moved.2;
     portfolioHistory :=
       portfolioHistory st ++ [point_at transactions priceHistories moved.1 dateStr] |}.

Definition replay (transactions : list Transaction)
    (priceHistories : gmap string (gmap string Qc)) (sortedDates : list string)
  : ReplayState :=
  foldl (replay_step transactions priceHistories)
        {| runningHoldings := ∅; txIndex := 0; portfolioHistory := [] |}
        sortedDates.

(** What the route reads of the calendar: daysAgo(n) and the first of
    January of the current year, both as YYYY-MM-DD. *)
Record Calendar := {
  daysAgo : nat → string;
  year_start : string
}.

(** The names every plain object inherits from Object.prototype.  Looked
    up in the literal periodDays they give a function or an object, which is
    not nullish, so that ?? 90 does not apply. *)
Definition inherited_keys : list string :=
  [ "constructor"; "__proto__"; "toString"; "toLocaleString"; "valueOf";
    "hasOwnProperty"; "isPrototypeOf"; "propertyIsEnumerable";
    "__defineGetter__"; "__defineSetter__"; "__lookupGetter__";
    "__lookupSetter__" ].

(** periodDays[(period) || '3m'] ?? 90, a number of days; [None] when the
    lookup gives an inherited property, with which daysAgo computes an
    invalid date. *)
Definition period_days (period : option string) : option nat :=
  match truthy period with
  | None => Some 90%nat
  | Some p =>
      if decide (p ∈ inherited_keys) then None
      else if decide (p = "1w") then Some 7%nat
      else if decide (p = "1m") then Some 30%nat
      else if decide (p = "3m") then Some 90%nat
      else if decide (p = "6m") then Some 180%nat
      else if decide (p = "1y") then Some 365%nat
      else if decide (p = "5y") then Some 1825%nat
      else if decide (p = "all") then Some 3650%nat
      else Some 90%nat
  end.

(** The order of ORDER BY t.date ASC. *)
Definition date_le (a b : Transaction) : Prop := str_le (tx_date a) (tx_date b).

Global Instance date_le_dec : RelDecision date_le.
Proof. intros a b. unfold date_le. apply _. Defined.

(** SELECT ... FROM transactions t [WHERE t.account_id = ?] ORDER BY t.date ASC *)
Definition select_transactions (txs : list Transaction) (account_id : option Z)
  : list Transaction :=
  merge_sort date_le
    (match account_id with
     | Some a => filter (λ t, tx_account_id t = a) txs
     | None => txs
     end).

(** GET /portfolio/history.  With an inherited name as period, daysAgo
    builds an invalid date and its toISOString throws the RangeError
    'Invalid time value' before any table is read; the catch of the route
    answers 500 with that message. *)
Definition portfolio_history (getYahooFinance : outcome YahooFinance)
    (cal : Calendar) (db : Db) (account_id : option Z) (period : option string)
  : Response (list HistoryPoint) :=
  match period_days period with
  | None => ErrorJson 500 "Invalid time value"
  | Some days =>
      let startDate := if decide (period = Some "ytd") then year_start cal
                       else daysAgo cal days in
      let transactions := select_transactions (transactions db) account_id in
      match transactions with
      | [] => Json 200 []
      | _ :: _ =>
          let holdingMap := foldl apply_tx ∅ transactions in
          match active_symbols holdingMap with
          | [] => Json 200 []
          | activeSymbols =>
              match getYahooFinance with
              | Thrown message => ErrorJson 500 message
              | Resolved yf =>
                  let interval := if decide (days ≤ 30)%nat then "1d" else "1wk" in
                  let priceHistories :=
                    foldl (λ histories symbol,
                             <[symbol := fetch_series yf (price_cache db)
                                           startDate interval symbol]> histories)
                          ∅ activeSymbols in
                  let sortedDates :=
                    merge_sort str_le (elements (all_dates priceHistories)) in
                  match sortedDates with
                  | [] => Json 200 []
                  | _ :: _ =>
                      Json 200 (portfolioHistory
                                  (replay transactions priceHistories sortedDates))
                  end
              end
          end
      end
  end.

(** ** The price of a symbol at a date, in the words of the specification *)

(** [priced series d p]: [p] is the value of the series at [d]; or, when the
    series has none at [d], its value at the most recent earlier date; or,
    when it has no earlier date either, the fallback price of the series, 0
    without one.  A value of a later date never qualifies. *)
Definition priced (series : gmap string Qc) (d : string) (p : Qc) : Prop :=
  match series !! d with
  | Some price => p = price
  | None =>
      (∃ d0, d0 ≠ "fallback" ∧ str_le d0 d ∧ series !! d0 = Some p
             ∧ ∀ d', d' ≠ "fallback" → str_le d' d → is_Some (series !! d') →
                     str_le d' d0)
      ∨ ((∀ d', d' ≠ "fallback" → str_le d' d → series !! d' = None)
         ∧ p = default 0 (series !! "fallback"))
  end.

(** ** Import Pipeline: src/services/importer.ts (src/jest.config.js, from
    line 21) *)

Inductive CSVFormat :=
  | revolut_stocks | revolut_commodities | trezor | generic | unknown.

Global Instance CSVFormat_eq_dec : EqDecision CSVFormat.
Proof. solve_decision. Defined.

(** A record of the CSV parser (columns: true): the header names with the
    cells of one line.  The parser itself, the package csv-parse, is not
    part of the repository; its result is the input of the import. *)
Definition CsvRecord : Type := list (string * string).

(** String.prototype.toLowerCase and trim on the ASCII range. *)
Definition lower_ascii (c : ascii) : ascii :=
  let n := nat_of_ascii c in
  if (65 <=? n)%nat && (n <=? 90)%nat then ascii_of_nat (n + 32) else c.

Fixpoint toLowerCase (s : string) : string :=
  match s with
  | EmptyString => EmptyString
  | String c s' => String (lower_ascii c) (toLowerCase s')
  end.

Definition is_space (c : ascii) : bool :=
  let n := nat_of_ascii c in
  ((9 <=? n)%nat && (n <=? 13)%nat) || (n =? 32)%nat.

Fixpoint trim_start (s : string) : string :=
  match s with
  | EmptyString => EmptyString
  | String c s' => if is_space c then trim_start s' else s
  end.

Fixpoint trim_end (s : string) : string :=
  match s with
  | EmptyString => EmptyString
  | String c s' =>
      match trim_end s' with
      | EmptyString => if is_space c then EmptyString else String c EmptyString
      | rest => String c rest
      end
  end.

Definition trim (s : string) : string := trim_end (trim_start s).

(** detectFormat(headers) *)
Definition detectFormat (headers : list string) : CSVFormat :=
  let h := (λ s, trim (toLowerCase s)) <$> headers in
  if decide ("ticker" ∈ h ∧ "price per share" ∈ h) then revolut_stocks
  else if decide ("product" ∈ h ∧ "started date" ∈ h ∧ "state" ∈ h)
       then revolut_commodities
  else if decide ("transaction id" ∈ h ∧ "amount unit" ∈ h) then trezor
  else if decide ("symbol" ∈ h ∧ "type" ∈ h) then generic
  else unknown.

(** The text of a transaction type in the column [type]. *)
Definition type_name (k : tx_type) : string :=
  match k with
  | buy => "buy" | sell => "sell" | transfer_in => "transfer_in"
  | transfer_out => "transfer_out" | dividend => "dividend"
  | interest => "interest" | fee => "fee"
  end.

(** interface TransactionFingerprint *)
Record TransactionFingerprint := {
  fp_account_id : Z;
  fp_symbol : string;
  fp_type : tx_type;
  fp_quantity : Qc;
  fp_price : Qc;
  fp_date : string
}.

Fixpoint zeros (n : nat) : string :=
  match n with
  | O => EmptyString
  | S n' => String "0" (zeros n')
  end.

(** Number.prototype.toFixed(fractionDigits) below 10^21: the sign, then
    the decimal digits of the integer n for which n / 10^fractionDigits is
    nearest to the absolute value, the larger n of two, with the point
    before the last fractionDigits digits. *)
Definition toFixed (x : Qc) (fractionDigits : nat) : string :=
  let a := if decide (x < 0) then - x else x in
  let scale := (10 ^ Z.of_nat fractionDigits)%Z in
  let n := Qfloor (this a * inject_Z scale + (1 # 2))%Q in
  let whole := pretty (n / scale)%Z in
  let frac := pretty (n mod scale)%Z in
  let text :=
    if decide (fractionDigits = 0%nat) then whole
    else whole +:+ "." +:+ zeros (fractionDigits - String.length frac) +:+ frac in
  if decide (x < 0) then "-" +:+ text else text.

(** s.split(sep)[0]: the text before the first [sep]. *)
Fixpoint before (sep : ascii) (s : string) : string :=
  match s with
  | EmptyString => EmptyString
  | String c s' => if decide (c = sep) then EmptyString else String c (before sep s')
  end.

(** buildFingerprint(tx):
      const datePart = (tx.date || '').split('T')[0].split(' ')[0];
      return `${tx.account_id}|${tx.symbol}|${tx.type}|${Number(tx.quantity)
        .toFixed(8)}|${Number(tx.price).toFixed(4)}|${datePart}`; *)
Definition buildFingerprint (tx : TransactionFingerprint) : string :=
  let datePart := before " " (before "T" (fp_date tx)) in
  pretty (fp_account_id tx) +:+ "|" +:+ fp_symbol tx +:+ "|"
  +:+ type_name (fp_type tx) +:+ "|" +:+ toFixed (fp_quantity tx) 8 +:+ "|"
  +:+ toFixed (fp_price tx) 4 +:+ "|" +:+ datePart.

(** SELECT account_id, symbol, type, quantity, price, date FROM transactions
    WHERE account_id = ?, a row of it. *)
Definition fingerprint_of_row (t : Transaction) : TransactionFingerprint :=
  {| fp_account_id := tx_account_id t; fp_symbol := tx_symbol t;
     fp_type := tx_kind t; fp_quantity := tx_quantity t;
     fp_price := tx_price t; fp_date := tx_date t |}.

(** getExistingFingerprints(accountId) *)
Definition getExistingFingerprints (ledger : list Transaction) (accountId : Z)
  : gset string :=
  foldl (λ set r, {[ buildFingerprint (fingerprint_of_row r) ]} ∪ set) ∅
        (filter (λ t, tx_account_id t = accountId) ledger).

(** interface ImportedTransaction: a normalized row as the per-format
    parsers produce it. *)
Record ImportedTransaction := {
  it_symbol : string;
  it_type : tx_type;
  it_quantity : Qc;
  it_price : Qc;
  it_fee : Qc;
  it_currency : string;
  it_date : string;
  it_notes : string
}.

(** { account_id: accountId, ...tx } *)
Definition fingerprint_of_import (accountId : Z) (tx : ImportedTransaction)
  : TransactionFingerprint :=
  {| fp_account_id := accountId; fp_symbol := it_symbol tx;
     fp_type := it_type tx; fp_quantity := it_quantity tx;
     fp_price := it_price tx; fp_date := it_date tx |}.

(** const fp = buildFingerprint({ account_id: accountId, ...tx }) *)
Definition import_fingerprint (accountId : Z) (tx : ImportedTransaction) : string :=
  buildFingerprint (fingerprint_of_import accountId tx).

(** The row that INSERT INTO transactions (account_id, symbol, type,
    quantity, price, fee, currency, date, notes) writes.  The counter of
    AUTOINCREMENT is not modelled: the id is one more than the largest id
    of the table. *)
Definition inserted_row (accountId : Z) (tx : ImportedTransaction)
    (ledger : list Transaction) : Transaction :=
  {| tx_id := (foldr Z.max 0 (tx_id <$> ledger) + 1)%Z;
     tx_account_id := accountId; tx_symbol := it_symbol tx;
     tx_kind := it_type tx; tx_quantity := it_quantity tx;
     tx_price := it_price tx; tx_fee := it_fee tx;
     tx_currency := it_currency tx; tx_date := it_date tx;
     tx_notes := it_notes tx |}.

(** insert.run(accountId, tx.symbol, ...): with foreign_keys = ON the
    statement throws for an account_id that is not in accounts; the other
    constraints of the table hold of every normalized row. *)
Definition insert_run (accountId : Z) (tx : ImportedTransaction) (db : Db)
  : outcome Db :=
  match db_accounts db !! accountId with
  | Some _ =>
      Resolved {| transactions :=
                    transactions db ++ [inserted_row accountId tx (transactions db)];
                  db_accounts := db_accounts db;
                  price_cache := price_cache db;
                  currency_rates := currency_rates db;
                  users := users db;
                  daily_wealth := daily_wealth db |}
  | None => Thrown "FOREIGN KEY constraint failed"
  end.

(** type ImportResult & { format, total } *)
Record ImportResult := {
  res_imported : nat;
  res_skipped : nat;
  res_total : nat;
  res_errors : list string;
  res_format : CSVFormat
}.

(** The variables of the loop of doImport: the set [existing], the
    database, the counters, the errors and the index i. *)
Record ImportLoop := {
  lp_existing : gset string;
  lp_db : Db;
  lp_imported : nat;
  lp_skipped : nat;
  lp_errors : list string;
  lp_i : nat
}.

(** One round of for (let i = 0; i < parsedTx.length; i++):
      try {
        const fp = buildFingerprint({ account_id: accountId, ...tx });
        if (existing.has(fp)) { skipped++; continue; }
        insert.run(...);
        existing.add(fp);
        imported++;
      } catch (e) { errors.push(`Row ${i + 1}: ${e.message}`); } *)
Definition import_step (accountId : Z) (st : ImportLoop)
    (tx : ImportedTransaction) : ImportLoop :=
  let fp := import_fingerprint accountId tx in
  if decide (fp ∈ lp_existing st) then
    {| lp_existing := lp_existing st; lp_db := lp_db st;
       lp_imported := lp_imported st; lp_skipped := S (lp_skipped st);
       lp_errors := lp_errors st; lp_i := S (lp_i st) |}
  else
    match insert_run accountId tx (lp_db st) with
    | Resolved db' =>
        {| lp_existing := {[ fp ]} ∪ lp_existing st; lp_db := db';
           lp_imported := S (lp_imported st); lp_skipped := lp_skipped st;
           lp_errors := lp_errors st; lp_i := S (lp_i st) |}
    | Thrown message =>
        {| lp_existing := lp_existing st; lp_db := lp_db st;
           lp_imported := lp_imported st; lp_skipped := lp_skipped st;
           lp_errors := lp_errors st
                        ++ ["Row " +:+ pretty (S (lp_i st)) +:+ ": " +:+ message];
           lp_i := S (lp_i st) |}
    end.

(** const format = formatHint || detectFormat(headers), with
    headers = Object.keys(records[0]). *)
Definition import_format (formatHint : option CSVFormat) (records : list CsvRecord)
  : CSVFormat :=
  match formatHint with
  | Some format => format
  | None => detectFormat (default [] (head records)).*1
  end.

(** importCSV(csvContent, accountId, formatHint) on the records of
    csvContent.  [parsers format records] stands for the four per-format
    parsers parseRevolutStock, parseRevolutCommodity, parseTrezor and
    parseGeneric, which read nothing but the records.  The answer and the
    database after it. *)
Definition importCSV
    (parsers : CSVFormat → list CsvRecord → list ImportedTransaction)
    (records : list CsvRecord) (accountId : Z) (formatHint : option CSVFormat)
    (db : Db) : ImportResult * Db :=
  match records with
  | [] => ({| res_imported := 0; res_skipped := 0; res_total := 0;
              res_errors := []; res_format := unknown |}, db)
  | first :: _ =>
      let headers := first.*1 in
      let format := import_format formatHint records in
      if decide (format = unknown) then
        ({| res_imported := 0; res_skipped := 0; res_total := length records;
            res_errors := ["Unknown CSV format. Headers: "
                           +:+ String.concat ", " headers];
            res_format := unknown |}, db)
      else
        let parsedTx := parsers format records in
        let st := foldl (import_step accountId)
                        {| lp_existing :=
                             getExistingFingerprints (transactions db) accountId;
                           lp_db := db; lp_imported := 0; lp_skipped := 0;
                           lp_errors := []; lp_i := 0 |}
                        parsedTx in
        ({| res_imported := lp_imported st; res_skipped := lp_skipped st;
            res_total := length parsedTx; res_errors := lp_errors st;
            res_format := format |},
         lp_db st)
  end.

(** ** Sample ledger used to exercise the statements *)

Definition mk_tx (id acct : Z) (sym : string) (k : tx_type) (qty price : Qc)
    (date : string) : Transaction :=
  {| tx_id := id; tx_account_id := acct; tx_symbol := sym; tx_kind := k;
     tx_quantity := qty; tx_price := price; tx_fee := 0; tx_currency := "USD";
     tx_date := date; tx_notes := "" |}.

Definition sample_accounts : gmap Z Account :=
  <[1%Z := {| acc_name := "Stock"; acc_currency := "EUR" |}]>
  (<[2%Z := {| acc_name := "Crypto"; acc_currency := "EUR" |}]> ∅).

Definition sample_ledger : list Transaction :=
  [ mk_tx 1 1 "AAPL" buy (dec 10 1) (dec 150 1) "2024-01-15";
    mk_tx 2 1 "AAPL" dividend (dec 25 2) (dec 1 1) "2024-03-01";
    mk_tx 3 2 "BTC-USD" transfer_in (dec 1 2) (dec 45000 1) "2024-01-15";
    mk_tx 4 2 "BTC-USD" transfer_out (dec 1 10) (dec 46000 1) "2024-02-01" ].

(** Ten AAPL bought and sold again in account 1. *)
Definition sold_out_ledger : list Transaction :=
  [ mk_tx 1 1 "AAPL" buy (dec 10 1) (dec 1855 10) "2024-01-15";
    mk_tx 2 1 "AAPL" sell (dec 10 1) (dec 195 1) "2024-02-01" ].

Definition sample_clock : Clock :=
  {| current_timestamp := "2024-03-10 12:00:00";
     minus_5_minutes := "2024-03-10 11:55:00";
     iso_now := "2024-03-10T12:00:00.000Z";
     today := "2024-03-10" |}.

Definition sample_quote (price : Qc) : YahooQuote :=
  {| regularMarketPrice := Some price; yq_currency := Some "USD";
     shortName := Some "Apple Inc."; longName := None;
     regularMarketChangePercent := None |}.

(** A provider that knows AAPL at 200 USD and throws for every other call. *)
Definition sample_provider : YahooFinance :=
  {| yf_quote := λ s, if decide (s = "AAPL")
                      then Resolved (sample_quote (dec 200 1))
                      else Thrown "Not Found";
     yf_chart := λ _ _ _, Thrown "Not Found" |}.

Definition sample_db : Db :=
  {| transactions := sample_ledger;
     db_accounts := sample_accounts;
     price_cache := ∅;
     currency_rates := [ {| cr_from_currency := "USD"; cr_to_currency := "EUR";
                            cr_rate := dec 92 100 |} ];
     users := ["EUR"];
     daily_wealth := ∅ |}.

(** The summary the sample state answers with, and what it leaves behind. *)
Definition sample_summary_effects : QuoteEffects :=
  (dashboard_summary (Resolved sample_provider) sample_clock sample_db).2.

Definition sample_summary : Summary :=
  match (dashboard_summary (Resolved sample_provider) sample_clock sample_db).1 with
  | Json _ body => body
  | ErrorJson _ _ => summarize [] ∅ ∅ ""
  end.

(** The rows of account 1 in date order, a price series for AAPL and the
    dates it yields. *)
Definition sample_history_txs : list Transaction :=
  select_transactions sample_ledger (Some 1%Z).

Definition sample_series : gmap string (gmap string Qc) :=
  {[ "AAPL" := {[ "2024-01-10" := dec 180 1;
                  "2024-02-01" := dec 190 1;
                  "2024-03-05" := dec 200 1 ]} ]}.

Definition sample_dates : list string :=
  ["2024-01-10"; "2024-02-01"; "2024-03-05"].

(** A parser for the sample files: an AAPL purchase of 10 units at 185.5
    per record, on the day and with the fee the record gives. *)
Definition sample_parsers (format : CSVFormat) (records : list CsvRecord)
  : list ImportedTransaction :=
  (λ r, {| it_symbol := "AAPL"; it_type := buy; it_quantity := dec 10 1;
           it_price := dec 1855 10;
           it_fee := if decide ((r : CsvRecord) !! 3%nat = Some ("fee", "1"))
                     then 1 else 0;
           it_currency := "USD";
           it_date := default "" (snd <$> r !! 2%nat);
           it_notes := "" |}) <$> records.

Definition sample_record (date fee : string) : CsvRecord :=
  [("symbol", "AAPL"); ("type", "buy"); ("date", date); ("fee", fee)].

(** A file of two purchases on different days, and a file with the same
    purchase twice, once with a fee. *)
Definition sample_file : list CsvRecord :=
  [ sample_record "2024-01-16" "0"; sample_record "2024-01-17T09:30:00Z" "0" ].


(** A cache with one entry older than five minutes, a holding that cost
    nothing, and the BTC-USD holding of the sample state. *)
Definition stale_cache : gmap string PriceCache :=
  {[ "MSFT" := {| pc_symbol := "MSFT"; pc_price := dec 400 1;
                  pc_currency := "USD"; pc_name := "Microsoft";
                  pc_change_percent := 0;
                  pc_updated_at := "2024-03-09 08:00:00" |} ]}.

Definition gift_holding : HoldingRow :=
  {| h_symbol := "GIFT"; h_account_id := 1; h_account_name := "Stock";
     h_account_currency := "EUR"; h_quantity := dec 5 1; h_avg_cost := None |}.

Definition gift_prices : gmap string PriceCache :=
  {[ "GIFT" := {| pc_symbol := "GIFT"; pc_price := dec 10 1;
                  pc_currency := "EUR"; pc_name := "Gift";
                  pc_change_percent := 0;
                  pc_updated_at := "2024-03-10 11:59:00" |} ]}.

Definition sample_btc_holding : HoldingRow :=
  default gift_holding
    (holdings_query (transactions sample_db) (db_accounts sample_db) !! 1%nat).

(** ** The price cache across requests *)

(** The row that INSERT OR REPLACE INTO price_cache writes for [data]. *)
Definition cache_row (clk : Clock) (d : QuoteData) : PriceCache :=
  {| pc_symbol := qd_symbol d; pc_price := qd_price d;
     pc_currency := qd_currency d; pc_name := qd_name d;
     pc_change_percent := qd_change_percent d;
     pc_updated_at := current_timestamp clk |}.

(** A symbol that the cache check of a request hands to the provider: the
    SELECT with updated_at > datetime('now', '-5 minutes') finds no row. *)
Definition needs_fetch (clk : Clock) (cache : gmap string PriceCache)
    (s : string) : Prop :=
  select_fresh clk cache s = None.

Global Instance needs_fetch_dec clk cache s : Decision (needs_fetch clk cache s).
Proof. unfold needs_fetch. destruct (select_fresh clk cache s); [right|left]; done. Defined.

(** What a request may have done to the cache it started with: every key
    has the entry it had, or the row of a quote that this request fetched. *)
Definition cache_step (clk : Clock) (cache : gmap string PriceCache)
    (fx : QuoteEffects) : Prop :=
  ∀ s, fx_cache fx !! s = cache !! s
       ∨ (s ∈ fx_fetched fx
          ∧ ∃ d, qd_symbol d = s ∧ fx_cache fx !! s = Some (cache_row clk d)).

(** ** The per-account breakdown of the valuations *)

(** The holdings of one account, in the order of the query. *)
Definition account_holdings (i : Z) (holdings : list HoldingRow) : list HoldingRow :=
  filter (λ h, h_account_id h = i) holdings.

(** The entry of accountSummaries that the totals loop owes to account [i]:
    none without a holding, else the name of the account's first holding and
    the sums over its holdings. *)
Definition account_summary_of (prices : gmap string PriceCache)
    (rates : gmap string Qc) (baseCurrency : string)
    (holdings : list HoldingRow) (i : Z) : option AccountSummary :=
  match account_holdings i holdings with
  | [] => None
  | h :: g =>
      Some {| as_account_id := i;
              as_account_name := h_account_name h;
              as_market_value :=
                sum_qc (market_value prices rates baseCurrency <$> h :: g);
              as_cost_basis := sum_qc (cost_basis rates baseCurrency <$> h :: g);
              as_holdings_count := length (h :: g) |}
  end.

(** The entry of accountDetails that the snapshot loop owes to account [i]. *)
Definition account_detail_of (prices : gmap string PriceCache)
    (rates : gmap string Qc) (baseCurrency : string)
    (holdings : list HoldingRow) (i : Z) : option AccountDetail :=
  match account_holdings i holdings with
  | [] => None
  | h :: g =>
      Some {| ad_name := h_account_name h;
              ad_market_value :=
                sum_qc (market_value prices rates baseCurrency <$> h :: g);
              ad_cost_basis := sum_qc (cost_basis rates baseCurrency <$> h :: g) |}
  end.

(** ** The replay in closed form *)

(** The units one row adds to the running quantity of its symbol. *)
Definition signed_units (tx : Transaction) : Qc :=
  if adds_units (tx_kind tx) then tx_quantity tx
  else if disposing (tx_kind tx) then - tx_quantity tx
  else 0.

(** priceHistories after the loop over the active symbols. *)
Definition price_histories (yf : YahooFinance) (cache : gmap string PriceCache)
    (startDate interval : string) (activeSymbols : list string)
  : gmap string (gmap string Qc) :=
  foldl (λ histories symbol,
           <[symbol := fetch_series yf cache startDate interval symbol]> histories)
        ∅ activeSymbols.

(** [startDate] and [interval] of GET /portfolio/history, for a period that
    gives [days] days. *)
Definition history_start (cal : Calendar) (period : option string) (days : nat)
  : string :=
  if decide (period = Some "ytd") then year_start cal else daysAgo cal days.

Definition history_interval (days : nat) : string :=
  if decide (days ≤ 30)%nat then "1d" else "1wk".

(** The symbols whose series the route asks the provider for. *)
Definition history_symbols (db : Db) (account_id : option Z) : list string :=
  active_symbols (foldl apply_tx ∅ (select_transactions (transactions db) account_id)).

Definition sample_calendar : Calendar :=
  {| daysAgo := λ _, "2023-12-11"; year_start := "2024-01-01" |}.

(** A provider whose chart of AAPL has two closes and one quote without. *)
Definition charting_provider : YahooFinance :=
  {| yf_quote := λ _, Thrown "Not Found";
     yf_chart := λ s _ _,
       if decide (s = "AAPL")
       then Resolved [ {| cq_day := "2024-02-01"; cq_close := Some (dec 190 1) |};
                       {| cq_day := "2024-02-02"; cq_close := None |};
                       {| cq_day := "2024-03-05"; cq_close := Some (dec 200 1) |} ]
       else Thrown "Not Found" |}.

(** ** Currency rates: the table with its ids, POST /, PUT /:id, DELETE /:id *)

(** A currency code without the character that joins the two codes of a
    key of the in-memory rate table. *)
Fixpoint no_underscore (s : string) : bool :=
  match s with
  | EmptyString => true
  | String c s' => negb (Ascii.eqb c "_") && no_underscore s'
  end.

(** The (from_currency, to_currency) pair of a row: the columns of the
    UNIQUE constraint. *)
Definition rate_pair (r : CurrencyRate) : string * string :=
  (cr_from_currency r, cr_to_currency r).

(** A row of currency_rates with its id and its updated_at. *)
Record RateRow := {
  rr_id : Z;
  rr_rate : CurrencyRate;
  rr_updated_at : string
}.

(** The table currency_rates, its rows in the order of their ids, with the
    counter that AUTOINCREMENT keeps for it in sqlite_sequence. *)
Record RateTable := {
  rt_rows : list RateRow;
  rt_seq : Z
}.

(** The rows as the converter and the valuations read them. *)
Definition stored_rates (t : RateTable) : list CurrencyRate :=
  rr_rate <$> rt_rows t.

(** from_currency = ? AND to_currency = ? *)
Definition same_pair (from to : string) (r : RateRow) : Prop :=
  cr_from_currency (rr_rate r) = from ∧ cr_to_currency (rr_rate r) = to.

Global Instance same_pair_dec from to r : Decision (same_pair from to r).
Proof. unfold same_pair. apply _. Defined.

(** SELECT * FROM currency_rates WHERE from_currency = ? AND to_currency = ? *)
Definition select_pair (t : RateTable) (from to : string) : option RateRow :=
  head (filter (same_pair from to) (rt_rows t)).

(** SELECT * FROM currency_rates WHERE id = ?; the parameter of the route
    is taken as the integer it denotes. *)
Definition select_id (t : RateTable) (id : Z) : option RateRow :=
  head (filter (λ r, rr_id r = id) (rt_rows t)).

(** The id AUTOINCREMENT gives to a new row: one more than the largest id
    the table has ever held. *)
Definition next_id (t : RateTable) : Z :=
  (foldr Z.max (rt_seq t) (rr_id <$> rt_rows t) + 1)%Z.

(** INSERT OR REPLACE INTO currency_rates (from_currency, to_currency, rate,
    updated_at) VALUES (?, ?, ?, CURRENT_TIMESTAMP): the row in conflict on
    UNIQUE(from_currency, to_currency) is deleted and a new row is inserted
    under a new id. *)
Definition insert_or_replace_rate (clk : Clock) (from to : string) (rate : Qc)
    (t : RateTable) : RateTable :=
  {| rt_rows := filter (λ r, ¬ same_pair from to r) (rt_rows t)
                ++ [ {| rr_id := next_id t;
                        rr_rate := {| cr_from_currency := from;
                                      cr_to_currency := to;
                                      cr_rate := rate |};
                        rr_updated_at := current_timestamp clk |} ];
     rt_seq := next_id t |}.

(** The body of POST / and PUT /:id; a field may be undefined, and [rate]
    is a number when it is present. *)
Record RateBody := {
  rb_from_currency : option string;
  rb_to_currency : option string;
  rb_rate : option Qc
}.

(** POST /: the answer, with the row read back, and the table after it. *)
Definition post_rate (clk : Clock) (t : RateTable) (body : RateBody)
  : Response (option RateRow) * RateTable :=
  match truthy (rb_from_currency body), truthy (rb_to_currency body),
        rb_rate body with
  | Some from_currency, Some to_currency, Some rate =>
      let t' := insert_or_replace_rate clk (toUpperCase from_currency)
                  (toUpperCase to_currency) rate t in
      (Json 201 (select_pair t' (toUpperCase from_currency)
                   (toUpperCase to_currency)), t')
  | _, _, _ => (ErrorJson 400 "from_currency, to_currency, and rate required", t)
  end.

(** PUT /:id.  The UPDATE is not guarded: when another row holds the new
    pair, the UNIQUE constraint makes it throw and the table keeps its
    rows. *)
Definition put_rate (clk : Clock) (t : RateTable) (id : Z) (body : RateBody)
  : outcome (Response (option RateRow) * RateTable) :=
  match select_id t id with
  | None => Resolved (ErrorJson 404 "Rate not found", t)
  | Some existing =>
      let from := toUpperCase (opt_str_or (rb_from_currency body)
                                 (cr_from_currency (rr_rate existing))) in
      let to := toUpperCase (opt_str_or (rb_to_currency body)
                               (cr_to_currency (rr_rate existing))) in
      let rate := match rb_rate body with
                  | Some rate => rate
                  | None => cr_rate (rr_rate existing)
                  end in
      if decide (Exists (λ r, rr_id r ≠ id ∧ same_pair from to r) (rt_rows t))
      then Thrown "UNIQUE constraint failed: currency_rates.from_currency, currency_rates.to_currency"
      else
        let t' :=
          {| rt_rows :=
               (λ r, if decide (rr_id r = id)
                     then {| rr_id := rr_id r;
                             rr_rate := {| cr_from_currency := from;
                                           cr_to_currency := to;
                                           cr_rate := rate |};
                             rr_updated_at := current_timestamp clk |}
                     else r) <$> rt_rows t;
             rt_seq := rt_seq t |} in
        Resolved (Json 200 (select_id t' id), t')
  end.

(** DELETE /:id; the body of the answer is its message. *)
Definition delete_rate (t : RateTable) (id : Z) : Response string * RateTable :=
  match select_id t id with
  | None => (ErrorJson 404 "Rate not found", t)
  | Some _ =>
      (Json 200 "Rate deleted",
       {| rt_rows := filter (λ r, rr_id r ≠ id) (rt_rows t); rt_seq := rt_seq t |})
  end.

(** The constraints of the table: the primary key,
    UNIQUE(from_currency, to_currency), and the counter of AUTOINCREMENT,
    which is never below an id in use. *)
Definition rates_wf (t : RateTable) : Prop :=
  NoDup (rr_id <$> rt_rows t)
  ∧ NoDup (rate_pair <$> stored_rates t)
  ∧ Forall (λ r, (rr_id r ≤ rt_seq t)%Z) (rt_rows t).

(** The table after the seed: four rows. *)
Definition sample_rate_table : RateTable :=
  {| rt_rows :=
       [ {| rr_id := 1; rr_rate := {| cr_from_currency := "USD";
                                      cr_to_currency := "EUR";
                                      cr_rate := dec 92 100 |};
            rr_updated_at := "2024-03-01 09:00:00" |};
         {| rr_id := 2; rr_rate := {| cr_from_currency := "EUR";
                                      cr_to_currency := "USD";
                                      cr_rate := dec 109 100 |};
            rr_updated_at := "2024-03-01 09:00:00" |};
         {| rr_id := 3; rr_rate := {| cr_from_currency := "GBP";
                                      cr_to_currency := "EUR";
                                      cr_rate := dec 117 100 |};
            rr_updated_at := "2024-03-01 09:00:00" |};
         {| rr_id := 4; rr_rate := {| cr_from_currency := "EUR";
                                      cr_to_currency := "GBP";
                                      cr_rate := dec 86 100 |};
            rr_updated_at := "2024-03-01 09:00:00" |} ];
     rt_seq := 4 |}.

(** ** Calendar view: GET /daily-wealth *)

(** A row of the answer: the selected columns date, total_wealth,
    total_cost, base_currency and the parsed details. *)
Record DailyWealthJson := {
  dj_date : string;
  dj_total_wealth : Qc;
  dj_total_cost : Qc;
  dj_base_currency : string;
  dj_details : list (Z * AccountDetail) * nat
}.

Definition daily_wealth_json (r : string * DailyWealth) : DailyWealthJson :=
  {| dj_date := r.1;
     dj_total_wealth := dw_total_wealth r.2;
     dj_total_cost := dw_total_cost r.2;
     dj_base_currency := dw_base_currency r.2;
     dj_details := dw_details r.2 |}.

(** The order of ORDER BY date ASC on the rows of daily_wealth. *)
Definition row_date_le (a b : string * DailyWealth) : Prop := str_le a.1 b.1.

Global Instance row_date_le_dec : RelDecision row_date_le.
Proof. intros a b. unfold row_date_le. apply _. Defined.

(** GET /daily-wealth: SELECT ... FROM daily_wealth
    WHERE date >= ? AND date <= ? ORDER BY date ASC, each row with its
    details parsed.  The details are kept in parsed form, so the parse does
    not fail here. *)
Definition get_daily_wealth (daily_wealth : gmap string DailyWealth)
    (start end_ : option string) : Response (list DailyWealthJson) :=
  match truthy start, truthy end_ with
  | Some s, Some e =>
      Json 200
        (daily_wealth_json
         <$> merge_sort row_date_le
               (filter (λ r, str_le s r.1 ∧ str_le r.1 e) (map_to_list daily_wealth)))
  | _, _ => ErrorJson 400 "start and end dates required (YYYY-MM-DD)"
  end.

(** ** Holdings of one account: GET /accounts/:id/holdings
       (src/src/routes/accounts.ts) *)

Record AccountHolding := {
  ah_symbol : string;
  ah_quantity : Qc;
  ah_avg_cost : option Qc;
  ah_total_cost : Qc;
  ah_transaction_count : nat;
  ah_first_transaction : string;
  ah_last_transaction : string
}.

(** CASE WHEN type = 'buy' THEN quantity * price + fee
         WHEN type = 'sell' THEN -(quantity * price - fee) ELSE 0 END *)
Definition cost_flow (t : Transaction) : Qc :=
  match tx_kind t with
  | buy => tx_quantity t * tx_price t + tx_fee t
  | sell => - (tx_quantity t * tx_price t - tx_fee t)
  | _ => 0
  end.

(** MIN(date) and MAX(date) of a group with first date [d]. *)
Definition min_date (d : string) (l : list string) : string :=
  foldl (λ m x, if decide (str_le x m) then x else m) d l.

Definition max_date (d : string) (l : list string) : string :=
  foldl (λ m x, if decide (str_le m x) then x else m) d l.

(** One group of the query.  As in the query of the summary, the bare name
    quantity of HAVING quantity > 0.00000001 is the column of transactions,
    read from one row of the group.  With MIN(date) and MAX(date) in the
    query the engine reads bare columns from a row that holds one of the two
    extremes, and which row it is is the engine's choice: [bare] stands for
    that choice, given the first row of the group and the rows after it. *)
Definition account_holding_of_group
    (bare : Transaction → list Transaction → Transaction)
    (g : list Transaction) : option AccountHolding :=
  match g with
  | [] => None
  | t :: rest =>
      if decide (eps < tx_quantity (bare t rest)) then
        Some {| ah_symbol := tx_symbol t;
                ah_quantity :=
                  sum_qc ((λ t, if acquiring (tx_kind t) then tx_quantity t else 0)
                          <$> g)
                  - sum_qc ((λ t, if disposing (tx_kind t) then tx_quantity t else 0)
                            <$> g);
                ah_avg_cost :=
                  div_nullif
                    (sum_qc ((λ t, if acquiring (tx_kind t)
                                   then tx_quantity t * tx_price t else 0) <$> g))
                    (sum_qc ((λ t, if acquiring (tx_kind t) then tx_quantity t else 0)
                             <$> g));
                ah_total_cost := sum_qc (cost_flow <$> g);
                ah_transaction_count := length g;
                ah_first_transaction := min_date (tx_date t) (tx_date <$> rest);
                ah_last_transaction := max_date (tx_date t) (tx_date <$> rest) |}
      else None
  end.

(** The order of ORDER BY total_cost DESC. *)
Definition cost_ge (a b : AccountHolding) : Prop :=
  ah_total_cost b ≤ ah_total_cost a.

Global Instance cost_ge_dec : RelDecision cost_ge.
Proof. intros a b. unfold cost_ge. apply _. Defined.

(** GET /:id/holdings; the parameter of the route is taken as the integer
    it denotes. *)
Definition get_account_holdings
    (bare : Transaction → list Transaction → Transaction)
    (db : Db) (id : Z) : Response (list AccountHolding) :=
  match db_accounts db !! id with
  | None => ErrorJson 404 "Account not found"
  | Some _ =>
      let rows := filter (λ t, tx_account_id t = id) (transactions db) in
      Json 200
        (merge_sort cost_ge
           (omap (λ s, account_holding_of_group bare
                         (filter (λ t, tx_symbol t = s) rows))
                 (remove_dups (tx_symbol <$> rows))))
  end.

(** The row with the latest date, the later row on a tie: a choice the
    engine may make. *)
Definition latest_row (t : Transaction) (rest : list Transaction) : Transaction :=
  foldl (λ m x, if decide (str_le (tx_date m) (tx_date x)) then x else m) t rest.

(** * Properties *)

(** ** Rational arithmetic helpers *)

Lemma eps_pos : (0 < eps)%Qc.
Proof. reflexivity. Qed.

(** ** The definitions on small inputs *)

Example toUpperCase_ticker : toUpperCase "btc-usd" = "BTC-USD".
Proof. reflexivity. Qed.

Example round2_half_up :
  this (round2 (dec 12345 1000)) = (247 # 20)%Q
  ∧ this (round2 (dec (-12345) 1000)) = (-617 # 50)%Q
  ∧ this (round2 (dec 5 1000)) = (1 # 100)%Q.
Proof. repeat split; vm_compute; reflexivity. Qed.

Example price_at_earlier_date :
  this (price_at {[ "2024-01-10" := dec 180 1; "2024-01-20" := dec 190 1 ]}
                 "2024-01-15") = (180 # 1)%Q.
Proof. vm_compute. reflexivity. Qed.

Example price_at_before_series :
  this (price_at {[ "2024-01-10" := dec 180 1 ]} "2024-01-09") = 0%Q
  ∧ this (price_at {[ "fallback" := dec 7 1 ]} "2024-01-09") = (7 # 1)%Q.
Proof. split; vm_compute; reflexivity. Qed.

Example holdings_of_sample_ledger :
  (λ h, (h_symbol h, h_account_id h, this (h_quantity h),
         this <$> h_avg_cost h))
    <$> holdings_query sample_ledger sample_accounts
  = [ ("AAPL", 1%Z, (10 # 1)%Q, Some (150 # 1)%Q);
      ("BTC-USD", 2%Z, (2 # 5)%Q, Some (45000 # 1)%Q) ].
Proof. vm_compute. reflexivity. Qed.

(** The rows come by symbol, then account, whatever the order of the
    ledger. *)
Example holdings_in_key_order :
  (λ h, (h_symbol h, h_account_id h))
    <$> holdings_query
          [ mk_tx 1 2 "MSFT" buy 1 1 "2024-01-15";
            mk_tx 2 1 "MSFT" buy 1 1 "2024-01-16";
            mk_tx 3 1 "AAPL" buy 1 1 "2024-01-17" ] sample_accounts
  = [ ("AAPL", 1%Z); ("MSFT", 1%Z); ("MSFT", 2%Z) ].
Proof. vm_compute. reflexivity. Qed.

Example summary_of_sample_db :
  this (total_wealth sample_summary) = (1840 # 1)%Q
  ∧ this (total_cost sample_summary) = (19500 # 1)%Q
  ∧ fx_fetched sample_summary_effects = ["AAPL"; "BTC-USD"].
Proof. repeat split; vm_compute; reflexivity. Qed.

Example history_of_sample_ledger :
  (λ p, (hp_date p, this (hp_value p), this (hp_cost p), this (hp_gain p)))
    <$> portfolioHistory (replay sample_history_txs sample_series sample_dates)
  = [ ("2024-01-10", 0%Q, 0%Q, 0%Q);
      ("2024-02-01", (1900 # 1)%Q, (1500 # 1)%Q, (400 # 1)%Q);
      ("2024-03-05", (4500 # 1)%Q, (1500 # 1)%Q, (3000 # 1)%Q) ].
Proof. vm_compute. reflexivity. Qed.

Example buildFingerprint_sample :
  buildFingerprint {| fp_account_id := 1; fp_symbol := "AAPL"; fp_type := buy;
                      fp_quantity := dec 10 1; fp_price := dec 1855 10;
                      fp_date := "2024-01-15T10:30:00Z" |}
  = "1|AAPL|buy|10.00000000|185.5000|2024-01-15".
Proof. vm_compute. reflexivity. Qed.

Example toFixed_digits :
  toFixed (dec 5 1000) 2 = "0.01" ∧ toFixed (dec (-5) 1000) 2 = "-0.01"
  ∧ toFixed (dec (-1) 1000) 2 = "-0.00" ∧ toFixed (dec 12345 10) 0 = "1235"
  ∧ toFixed (dec 1 3) 4 = "0.3333" ∧ toFixed 0 8 = "0.00000000".
Proof. repeat split; vm_compute; reflexivity. Qed.

Example detectFormat_headers :
  detectFormat ["Date"; " Ticker"; "Type"; "Price per share "] = revolut_stocks
  ∧ detectFormat ["Symbol"; "TYPE"; "Quantity"] = generic
  ∧ detectFormat ["Transaction ID"; "Amount unit"] = trezor
  ∧ detectFormat ["Product"; "Started Date"; "State"] = revolut_commodities
  ∧ detectFormat ["symbol"; "quantity"] = unknown.
Proof. repeat split; vm_compute; reflexivity. Qed.

Example import_sample_file :
  let first := importCSV sample_parsers sample_file 1 None sample_db in
  let second := importCSV sample_parsers sample_file 1 None first.2 in
  (res_imported first.1, res_skipped first.1, res_total first.1,
   res_errors first.1, res_format first.1) = (2, 0, 2, [], generic)%nat
  ∧ (res_imported second.1, res_skipped second.1) = (0, 2)%nat
  ∧ res_errors (importCSV sample_parsers sample_file 7 None sample_db).1
    = ["Row 1: FOREIGN KEY constraint failed";
       "Row 2: FOREIGN KEY constraint failed"].
Proof. repeat split; vm_compute; reflexivity. Qed.

(** ** Holdings Aggregator *)

Section holdings.
Implicit Types (txs : list Transaction) (accs : gmap Z Account).
Implicit Types (g : list (Transaction * (Z * Account))).

Lemma sum_acq_qty_acquired g :
  sum_acq_qty g = sum_qc (tx_quantity <$> acquired (fst <$> g)).
Proof.
  unfold sum_acq_qty, acquired.
  induction g as [|r g IH]; [done|].
  rewrite !fmap_cons, filter_cons. simpl. rewrite IH.
  destruct (acquiring (tx_kind r.1)) eqn:E.
  - rewrite decide_True by done. done.
  - rewrite decide_False by done. ring.
Qed.

Lemma sum_disp_qty_disposed g :
  sum_disp_qty g = sum_qc (tx_quantity <$> disposed (fst <$> g)).
Proof.
  unfold sum_disp_qty, disposed.
  induction g as [|r g IH]; [done|].
  rewrite !fmap_cons, filter_cons. simpl. rewrite IH.
  destruct (disposing (tx_kind r.1)) eqn:E.
  - rewrite decide_True by done. done.
  - rewrite decide_False by done. ring.
Qed.

Lemma sum_acq_notional_acquired g :
  sum_acq_notional g
  = sum_qc ((λ t, tx_quantity t * tx_price t)%Qc <$> acquired (fst <$> g)).
Proof.
  unfold sum_acq_notional, acquired.
  induction g as [|r g IH]; [done|].
  rewrite !fmap_cons, filter_cons. simpl. rewrite IH.
  destruct (acquiring (tx_kind r.1)) eqn:E.
  - rewrite decide_True by done. done.
  - rewrite decide_False by done. ring.
Qed.

Lemma div_nullif_js_div (x y : Qc) : div_nullif x y = js_div x y.
Proof.
  unfold div_nullif, nullif, js_div. by destruct (decide (y = 0)).
Qed.

Lemma elem_of_joined txs accs r :
  r ∈ joined txs accs ↔
  r.1 ∈ txs ∧ r.2.1 = tx_account_id r.1 ∧ accs !! tx_account_id r.1 = Some r.2.2.
Proof.
  unfold joined. rewrite list_elem_of_omap. split.
  - intros (t & Ht & Hr).
    destruct (accs !! tx_account_id t) as [a|] eqn:E; simplify_eq/=. done.
  - destruct r as [t [i a]]. simpl. intros (Ht & -> & Ha).
    exists t. split; [done|]. by rewrite Ha.
Qed.

Lemma joined_cons t txs accs :
  joined (t :: txs) accs =
  match accs !! tx_account_id t with
  | Some a => (t, (tx_account_id t, a)) :: joined txs accs
  | None => joined txs accs
  end.
Proof. unfold joined. simpl. by destruct (accs !! tx_account_id t). Qed.

(** The rows of a group are the transactions of the pair, in ledger order,
    as soon as the account exists. *)
Lemma group_rows_pair_txs txs accs s a acc :
  accs !! a = Some acc →
  fst <$> group_rows (s, a) (joined txs accs) = pair_txs s a txs.
Proof.
  intros Ha. induction txs as [|t txs IH]; [done|].
  rewrite joined_cons. unfold pair_txs, group_rows in *.
  rewrite (filter_cons _ t).
  destruct (accs !! tx_account_id t) as [a'|] eqn:E.
  - rewrite filter_cons. unfold row_key at 1. cbn [fst snd].
    destruct (decide (tx_symbol t = s ∧ tx_account_id t = a)) as [[Hs Hi]|Hn].
    + case_decide as Hd; [|by rewrite Hs, Hi in Hd].
      rewrite fmap_cons. cbn [fst]. by rewrite IH.
    + case_decide as Hd; [|done]. injection Hd as ? ?. by destruct Hn.
  - destruct (decide (tx_symbol t = s ∧ tx_account_id t = a)) as [[Hs Hi]|Hn];
      [congruence | done].
Qed.

Lemma holding_of_group_Some g h :
  holding_of_group g = Some h →
  ∃ r g', g = r :: g'
    ∧ h_symbol h = tx_symbol r.1 ∧ h_account_id h = r.2.1
    ∧ h_quantity h = (sum_acq_qty g - sum_disp_qty g)%Qc
    ∧ h_avg_cost h = div_nullif (sum_acq_notional g) (sum_acq_qty g)
    ∧ (eps < tx_quantity r.1)%Qc.
Proof.
  unfold holding_of_group. destruct g as [|r g']; [done|].
  case_decide; [|done]. intros [= <-]. exists r, g'. simpl. done.
Qed.

Lemma elem_of_holdings_query txs accs h :
  h ∈ holdings_query txs accs ↔
  ∃ k, k ∈ row_key <$> joined txs accs
       ∧ holding_of_group (group_rows k (joined txs accs)) = Some h.
Proof.
  unfold holdings_query. rewrite list_elem_of_omap.
  setoid_rewrite merge_sort_Permutation. by setoid_rewrite elem_of_remove_dups.
Qed.

Lemma group_rows_head k (rows : list (Transaction * (Z * Account))) r g' :
  group_rows k rows = r :: g' → row_key r = k ∧ r ∈ rows.
Proof.
  intros E. assert (r ∈ group_rows k rows) as Hin by (rewrite E; left).
  unfold group_rows in Hin. apply list_elem_of_filter in Hin. tauto.
Qed.

(** A reported row carries the sums of its pair, and the first transaction
    of the pair has a quantity above ε. *)
Lemma holdings_query_row txs accs h :
  h ∈ holdings_query txs accs →
  h_quantity h = spec_quantity (h_symbol h) (h_account_id h) txs
  ∧ h_avg_cost h = spec_avg_cost (h_symbol h) (h_account_id h) txs
  ∧ ∃ t, head (pair_txs (h_symbol h) (h_account_id h) txs) = Some t
         ∧ (eps < tx_quantity t)%Qc.
Proof.
  rewrite elem_of_holdings_query. intros (k & _ & Hg).
  apply holding_of_group_Some in Hg as (r & g' & Eg & Hs & Ha & Hq & Hc & Hlt).
  destruct (group_rows_head _ _ _ _ Eg) as [Hk Hr].
  apply elem_of_joined in Hr as (Ht & Hid & Hacc).
  assert (k = (h_symbol h, h_account_id h)) as ->.
  { rewrite <-Hk, Hs, Ha. done. }
  rewrite Ha, Hid in Hq, Hc, Eg |- *.
  pose proof (group_rows_pair_txs txs accs (h_symbol h) _ _ Hacc) as Hp.
  rewrite sum_acq_qty_acquired, sum_disp_qty_disposed, Hp in Hq.
  rewrite div_nullif_js_div, sum_acq_notional_acquired, sum_acq_qty_acquired, Hp in Hc.
  split; [done|]. split; [done|].
  exists r.1. split; [|done]. rewrite <-Hp, Eg. done.
Qed.

(** A pair is reported as soon as its first transaction has a quantity
    above ε. *)
Lemma holdings_query_complete txs accs s a t :
  (∀ t, t ∈ txs → is_Some (accs !! tx_account_id t)) →
  head (pair_txs s a txs) = Some t → (eps < tx_quantity t)%Qc →
  ∃ h, h ∈ holdings_query txs accs ∧ h_symbol h = s ∧ h_account_id h = a.
Proof.
  intros FK Hhead Hlt.
  assert (t ∈ pair_txs s a txs) as Ht by (by apply head_Some_elem_of).
  unfold pair_txs in Ht. apply list_elem_of_filter in Ht as [[Hs Ha] Ht].
  destruct (FK t Ht) as [acc Hacc]. rewrite Ha in Hacc.
  pose proof (group_rows_pair_txs txs accs s a acc Hacc) as Hp.
  destruct (group_rows (s, a) (joined txs accs)) as [|r g'] eqn:Eg.
  { rewrite <-Hp in Hhead. done. }
  destruct (group_rows_head _ _ _ _ Eg) as [Hk Hr].
  assert (r.1 = t) as Hrt.
  { rewrite <-Hp in Hhead. simpl in Hhead. by injection Hhead. }
  eexists. split.
  - apply elem_of_holdings_query. exists (s, a). split.
    + apply list_elem_of_fmap. by exists r.
    + rewrite Eg. unfold holding_of_group.
      rewrite Hrt, decide_True by done. reflexivity.
  - simpl. by injection Hk.
Qed.

End holdings.

(** C1, the code on a position that was sold out.  Every reported row
    carries quantity = Σ quantity over buy and transfer_in minus Σ quantity
    over sell and transfer_out of its pair, and avg_cost = Σ quantity*price
    over buy and transfer_in divided by Σ of their quantities, NULL when
    that sum is 0 and so when there is no acquiring row.  Which pairs are
    reported is not decided by that quantity: under the foreign key of
    transactions.account_id a pair is reported if and only if the quantity
    column of the first transaction of the pair is above 1e-8, because the
    HAVING clause reads the column quantity and not the alias.  Ten AAPL
    bought and sold again are reported with quantity 0, whichever row of
    the group the clause reads: both rows have quantity 10. *)
Theorem holdings_filter_reads_row_quantity :
  (∀ txs accs h,
     h ∈ holdings_query txs accs →
     h_quantity h = spec_quantity (h_symbol h) (h_account_id h) txs
     ∧ h_avg_cost h = spec_avg_cost (h_symbol h) (h_account_id h) txs)
  ∧ (∀ s a txs, acquired (pair_txs s a txs) = [] → spec_avg_cost s a txs = None)
  ∧ (∀ txs (accs : gmap Z Account) s a,
       (∀ t, t ∈ txs → is_Some (accs !! tx_account_id t)) →
       (∃ h, h ∈ holdings_query txs accs ∧ h_symbol h = s ∧ h_account_id h = a)
       ↔ (∃ t, head (pair_txs s a txs) = Some t ∧ (eps < tx_quantity t)%Qc))
  ∧ (λ h, (h_symbol h, h_account_id h, this (h_quantity h)))
      <$> holdings_query sold_out_ledger sample_accounts
    = [("AAPL", 1%Z, 0%Q)]
  ∧ Forall (λ t, (eps < tx_quantity t)%Qc) (pair_txs "AAPL" 1 sold_out_ledger)
  ∧ spec_quantity "AAPL" 1 sold_out_ledger = 0%Qc
  ∧ ¬ (eps < spec_quantity "AAPL" 1 sold_out_ledger)%Qc.
Proof.
  split; [|split; [|split; [|split; [|split; [|split]]]]].
  - intros txs accs h Hh. by destruct (holdings_query_row _ _ _ Hh) as (? & ? & ?).
  - intros s a txs Hnil. unfold spec_avg_cost. rewrite Hnil. reflexivity.
  - intros txs accs s a FK. split.
    + intros (h & Hh & <- & <-).
      by destruct (holdings_query_row _ _ _ Hh) as (_ & _ & ?).
    + intros (t & Hhead & Hlt). by eapply holdings_query_complete.
  - vm_compute. reflexivity.
  - unfold sold_out_ledger, pair_txs. rewrite !filter_cons_True by done.
    repeat constructor.
  - apply Qc_is_canon. reflexivity.
  - assert (spec_quantity "AAPL" 1 sold_out_ledger = 0%Qc) as ->
      by (apply Qc_is_canon; reflexivity).
    intros Hlt. apply Qclt_not_le in Hlt. apply Hlt, Qclt_le_weak, eps_pos.
Qed.

(** ** Price Oracle and cache *)

Lemma quote_data_fields (symbol : string) (quote : YahooQuote) :
  quote_data symbol quote
  = {| qd_symbol := symbol;
       qd_price := default 0 (regularMarketPrice quote);
       qd_currency := match yq_currency quote with
                      | Some c => if decide (c = "") then "USD" else c
                      | None => "USD"
                      end;
       qd_name := match shortName quote, longName quote with
                  | Some n, Some l =>
                      if decide (n = "")
                      then if decide (l = "") then symbol else l
                      else n
                  | Some n, None => if decide (n = "") then symbol else n
                  | None, Some l => if decide (l = "") then symbol else l
                  | None, None => symbol
                  end;
       qd_change_percent := default 0 (regularMarketChangePercent quote) |}.
Proof.
  unfold quote_data, opt_num_or, num_or, opt_str_or, str_or. f_equal.
  - destruct (regularMarketPrice quote) as [v|]; [|done]. simpl.
    case_decide; by subst.
  - destruct (shortName quote) as [n|], (longName quote) as [l|]; try done.
  - destruct (regularMarketChangePercent quote) as [v|]; [|done]. simpl.
    case_decide; by subst.
Qed.

(** C3. For every symbol, GET /quote/:symbol returns the cached entry
    without any provider call when the cache holds an entry of the
    (upper-cased) symbol whose updated_at is later than five minutes ago;
    otherwise it fetches, and on success it answers with the data taken
    from the quote (price regularMarketPrice or 0, currency or 'USD', the
    first non-empty of shortName, longName and the symbol, change percent
    or 0) and replaces the cache row of that symbol, and of no other, by
    these data stamped with the current time; on fetch failure it returns
    the existing cache entry of any age tagged stale and leaves the cache as
    it is; and when there is no entry at all it answers 404 with the error
    'Could not fetch price for <SYMBOL>: <message>' and no price. *)
Theorem single_quote_policy
    (getYahooFinance : outcome YahooFinance) (clk : Clock)
    (cache : gmap string PriceCache) (param : string) :
  (∀ e, cache !! toUpperCase param = Some e →
        String.ltb (minus_5_minutes clk) (pc_updated_at e) = true →
        get_quote getYahooFinance clk cache param
        = (Json 200 (JCached e), {| fx_cache := cache; fx_fetched := [] |}))
  ∧ (∀ yf quote,
       (∀ e, cache !! toUpperCase param = Some e →
             String.ltb (minus_5_minutes clk) (pc_updated_at e) = false) →
       getYahooFinance = Resolved yf →
       yf_quote yf (toUpperCase param) = Resolved quote →
       let price := default 0 (regularMarketPrice quote) in
       let currency := match yq_currency quote with
                       | Some c => if decide (c = "") then "USD" else c
                       | None => "USD"
                       end in
       let name := match shortName quote, longName quote with
                   | Some n, Some l =>
                       if decide (n = "")
                       then if decide (l = "") then toUpperCase param else l
                       else n
                   | Some n, None => if decide (n = "") then toUpperCase param else n
                   | None, Some l => if decide (l = "") then toUpperCase param else l
                   | None, None => toUpperCase param
                   end in
       let change := default 0 (regularMarketChangePercent quote) in
       get_quote getYahooFinance clk cache param
       = (Json 200 (JData {| qd_symbol := toUpperCase param; qd_price := price;
                             qd_currency := currency; qd_name := name;
                             qd_change_percent := change |}),
          {| fx_cache :=
               <[toUpperCase param :=
                   {| pc_symbol := toUpperCase param; pc_price := price;
                      pc_currency := currency; pc_name := name;
                      pc_change_percent := change;
                      pc_updated_at := current_timestamp clk |}]> cache;
             fx_fetched := [toUpperCase param] |}))
  ∧ (∀ message stale fetched,
       cache !! toUpperCase param = Some stale →
       String.ltb (minus_5_minutes clk) (pc_updated_at stale) = false →
       (getYahooFinance = Thrown message ∧ fetched = []
        ∨ ∃ yf, getYahooFinance = Resolved yf
                ∧ yf_quote yf (toUpperCase param) = Thrown message
                ∧ fetched = [toUpperCase param]) →
       get_quote getYahooFinance clk cache param
       = (Json 200 (JStale stale), {| fx_cache := cache; fx_fetched := fetched |}))
  ∧ (∀ message fetched,
       cache !! toUpperCase param = None →
       (getYahooFinance = Thrown message ∧ fetched = []
        ∨ ∃ yf, getYahooFinance = Resolved yf
                ∧ yf_quote yf (toUpperCase param) = Thrown message
                ∧ fetched = [toUpperCase param]) →
       get_quote getYahooFinance clk cache param
       = (ErrorJson 404 ("Could not fetch price for " +:+ toUpperCase param
                         +:+ ": " +:+ message),
          {| fx_cache := cache; fx_fetched := fetched |})).
Proof.
  unfold get_quote, select_fresh. split; [|split; [|split]].
  - intros e -> ->. done.
  - intros yf quote Hold -> Hq. cbn zeta. rewrite Hq.
    rewrite quote_data_fields. unfold upsert_price.
    cbn [qd_symbol qd_price qd_currency qd_name qd_change_percent].
    destruct (cache !! toUpperCase param) as [e|] eqn:E; [|done].
    by rewrite (Hold e eq_refl).
  - intros message stale fetched -> ->.
    intros [[-> ->]|(yf & -> & -> & ->)]; done.
  - intros message fetched ->.
    intros [[-> ->]|(yf & -> & -> & ->)]; done.
Qed.

Lemma single_quote_policy_witness :
  get_quote (Resolved sample_provider) sample_clock stale_cache "aapl"
  = (Json 200 (JData {| qd_symbol := "AAPL"; qd_price := dec 200 1;
                        qd_currency := "USD"; qd_name := "Apple Inc.";
                        qd_change_percent := 0 |}),
     {| fx_cache :=
          <["AAPL" := {| pc_symbol := "AAPL"; pc_price := dec 200 1;
                         pc_currency := "USD"; pc_name := "Apple Inc.";
                         pc_change_percent := 0;
                         pc_updated_at := "2024-03-10 12:00:00" |}]> stale_cache;
        fx_fetched := ["AAPL"] |})
  ∧ get_quote (Resolved sample_provider) sample_clock stale_cache "msft"
    = (Json 200 (JStale {| pc_symbol := "MSFT"; pc_price := dec 400 1;
                           pc_currency := "USD"; pc_name := "Microsoft";
                           pc_change_percent := 0;
                           pc_updated_at := "2024-03-09 08:00:00" |}),
       {| fx_cache := stale_cache; fx_fetched := ["MSFT"] |}).
Proof.
  destruct (single_quote_policy (Resolved sample_provider) sample_clock
              stale_cache "aapl") as (_ & Hfetch & _).
  destruct (single_quote_policy (Resolved sample_provider) sample_clock
              stale_cache "msft") as (_ & _ & Hstale & _).
  split.
  - apply (Hfetch sample_provider (sample_quote (dec 200 1))); [|done..].
    intros e He. by vm_compute in He.
  - apply (Hstale "Not Found"); [done..|]. right. by exists sample_provider.
Defined.

Section batch.
Context (clk : Clock) (cache : gmap string PriceCache).

Lemma check_cache_fold (symbols : list string) acc :
  let out := foldl (check_cache clk cache) acc symbols in
  (∀ s c, select_fresh clk cache s = Some c → s ∈ toUpperCase <$> symbols →
          out.1 !! s = Some (JCached c))
  ∧ (∀ s, s ∉ toUpperCase <$> symbols → out.1 !! s = acc.1 !! s)
  ∧ (∀ s, select_fresh clk cache s = None → out.1 !! s = acc.1 !! s)
  ∧ (∀ s, s ∈ out.2 ↔
          s ∈ acc.2 ∨ (s ∈ toUpperCase <$> symbols ∧ select_fresh clk cache s = None)).
Proof.
  revert acc. induction symbols as [|sym symbols IH]; intros acc; simpl.
  - repeat split; try done.
    + intros s c _ Hin. by apply elem_of_nil in Hin.
    + by left.
    + intros [?|[Hin _]]; [done|]. by apply elem_of_nil in Hin.
  - destruct (IH (check_cache clk cache acc sym)) as (H1 & H2 & H3 & H4).
    unfold check_cache in H1, H2, H3, H4 |- *.
    destruct (select_fresh clk cache (toUpperCase sym)) as [c0|] eqn:E;
      simpl in *; repeat split.
    + intros s c Hs Hin. apply elem_of_cons in Hin.
      destruct (decide (s ∈ toUpperCase <$> symbols)) as [Hi|Hn]; [by eapply H1|].
      destruct Hin as [->|?]; [|done].
      rewrite H2 by done. rewrite lookup_insert_eq. congruence.
    + intros s Hn. apply not_elem_of_cons in Hn as [Hne Hn].
      rewrite H2 by done. by rewrite lookup_insert_ne.
    + intros s Hs. rewrite H3 by done.
      rewrite lookup_insert_ne; [done|]. congruence.
    + intros Hin. apply H4 in Hin as [?|[? ?]]; [by left|].
      right. split; [by right|done].
    + intros [?|[Hin Hs]]; apply H4; [by left|].
      apply elem_of_cons in Hin as [->|?]; [congruence|]. by right.
    + intros s c Hs Hin. apply elem_of_cons in Hin as [->|?]; [congruence|].
      by eapply H1.
    + intros s Hn. apply not_elem_of_cons in Hn as [Hne Hn]. by apply H2.
    + done.
    + intros Hin. apply H4 in Hin as [Hin|[? ?]].
      * apply elem_of_app in Hin as [?|Hin]; [by left|].
        apply list_elem_of_singleton in Hin as ->. right. split; [by left|done].
      * right. split; [by right|done].
    + intros [?|[Hin Hs]]; apply H4.
      * left. apply elem_of_app. by left.
      * apply elem_of_cons in Hin as [->|?].
        -- left. apply elem_of_app. right. by apply list_elem_of_singleton.
        -- by right.
Qed.

Lemma unavailable_fold (toFetch : list string) (results : gmap string QuoteJson) s :
  foldl (unavailable_one cache) results toFetch !! s =
  match results !! s with
  | Some v => Some v
  | None => if decide (s ∈ toFetch)
            then Some (stale_or_error cache s "Service unavailable") else None
  end.
Proof.
  revert results. induction toFetch as [|x l IH]; intros results; simpl.
  - by destruct (results !! s).
  - rewrite IH. unfold unavailable_one.
    destruct (decide (x = s)) as [->|Hne].
    + destruct (results !! s) eqn:E; [by rewrite E|].
      rewrite lookup_insert_eq. rewrite decide_True by left. done.
    + assert ((match results !! x with
               | Some _ => results
               | None => <[x:=stale_or_error cache x "Service unavailable"]> results
               end) !! s = results !! s) as ->.
      { destruct (results !! x); [done|]. by rewrite lookup_insert_ne. }
      destruct (results !! s); [done|].
      destruct (decide (s ∈ l)).
      * rewrite decide_True by (by right). done.
      * rewrite decide_False; [done|]. intros [?|?]%elem_of_cons; congruence.
Qed.

Context (yf : YahooFinance).

Lemma fetch_fold (toFetch : list string) acc :
  (∀ s m, yf_quote yf s = Thrown m → fx_cache acc.2 !! s = cache !! s) →
  let out := foldl (fetch_one yf clk) acc toFetch in
  (∀ s, s ∈ toFetch → out.1 !! s = Some (fetched_entry cache yf s))
  ∧ (∀ s, s ∉ toFetch → out.1 !! s = acc.1 !! s).
Proof.
  revert acc. induction toFetch as [|x l IH]; intros acc Inv; simpl.
  - split; [|done]. intros s Hin. by apply elem_of_nil in Hin.
  - assert (∀ s m, yf_quote yf s = Thrown m →
                   fx_cache (fetch_one yf clk acc x).2 !! s = cache !! s) as Inv'.
    { intros s m Hs. unfold fetch_one.
      destruct (yf_quote yf x) as [q|m'] eqn:E; simpl; [|by eapply Inv].
      unfold upsert_price. simpl. rewrite lookup_insert_ne; [by eapply Inv|].
      intros ->. congruence. }
    destruct (IH _ Inv') as [H1 H2].
    assert ((fetch_one yf clk acc x).1 !! x = Some (fetched_entry cache yf x)) as Hx.
    { unfold fetch_one, fetched_entry, stale_or_error.
      destruct (yf_quote yf x) as [q|m'] eqn:E; simpl; rewrite lookup_insert_eq;
        [done|]. by rewrite (Inv _ _ E). }
    split.
    + intros s Hin. destruct (decide (s ∈ l)) as [?|Hn]; [by apply H1|].
      apply elem_of_cons in Hin as [->|?]; [|done]. by rewrite H2.
    + intros s Hn. apply not_elem_of_cons in Hn as [Hne Hn].
      rewrite H2 by done. unfold fetch_one.
      destruct (yf_quote yf x); simpl; by rewrite lookup_insert_ne.
Qed.
End batch.

(** C4. For every list of requested symbols, POST /quotes answers with a map
    that holds one entry per requested (upper-cased) symbol and nothing else;
    the entry of a symbol is decided by that symbol's own cache entry and
    fetch alone, so a failing symbol neither aborts the batch nor changes
    another symbol's entry: a failed symbol gets its cache entry of any age
    tagged stale, or an error entry when it has none. *)
Theorem batch_quotes_isolated
    (getYahooFinance : outcome YahooFinance) (clk : Clock)
    (cache : gmap string PriceCache) (symbols : list string) :
  ∃ results fx,
    post_quotes getYahooFinance clk cache (Some symbols) = (Json 200 results, fx)
    ∧ (∀ s, s ∈ toUpperCase <$> symbols ↔ is_Some (results !! s))
    ∧ (∀ s, s ∈ toUpperCase <$> symbols →
            results !! s = Some (quote_entry getYahooFinance clk cache s))
    ∧ (∀ s message,
         s ∈ toUpperCase <$> symbols →
         select_fresh clk cache s = None →
         fetch_quote getYahooFinance s = Thrown message →
         match cache !! s with
         | Some stale => results !! s = Some (JStale stale)
         | None => ∃ error, results !! s = Some (JNoData s 0 error)
         end).
Proof.
  assert (∃ results fx,
    post_quotes getYahooFinance clk cache (Some symbols) = (Json 200 results, fx)
    ∧ (∀ s, s ∉ toUpperCase <$> symbols → results !! s = None)
    ∧ (∀ s, s ∈ toUpperCase <$> symbols →
            results !! s = Some (quote_entry getYahooFinance clk cache s)))
    as (results & fx & Heq & Hout & Hin).
  { unfold post_quotes.
    pose proof (check_cache_fold clk cache symbols (∅, [])) as Hc.
    destruct (foldl (check_cache clk cache) (∅, []) symbols)
      as [results toFetch] eqn:Efold.
    simpl in Hc. destruct Hc as (C1 & C2 & C3 & C4).
    assert (∀ s, s ∈ toFetch ↔
                 s ∈ toUpperCase <$> symbols ∧ select_fresh clk cache s = None) as C4'.
    { intros s. rewrite C4. split; [|by right].
      intros [Hnil|?]; [|done]. by apply elem_of_nil in Hnil. }
    assert (∀ s, s ∈ toUpperCase <$> symbols → s ∉ toFetch →
                 results !! s = Some (quote_entry getYahooFinance clk cache s)) as Hfresh.
    { intros s Hs Hn. unfold quote_entry.
      destruct (select_fresh clk cache s) as [c|] eqn:E; [by eapply C1|].
      destruct Hn. by apply C4'. }
    destruct toFetch as [|s0 toFetch'] eqn:Etf.
    { do 2 eexists. split; [done|]. split.
      - intros s Hn. rewrite C2 by done. apply lookup_empty.
      - intros s Hs. apply Hfresh; [done|]. apply not_elem_of_nil. }
    rewrite <-Etf in *. clear Etf s0 toFetch'.
    destruct getYahooFinance as [yf|m].
    - pose proof (fetch_fold clk cache yf toFetch
                    (results, {| fx_cache := cache; fx_fetched := [] |})) as Hf.
      destruct (foldl (fetch_one yf clk)
                  (results, {| fx_cache := cache; fx_fetched := [] |}) toFetch)
        as [results' fx'] eqn:Ef.
      simpl in Hf. destruct Hf as [F1 F2]; [done|].
      do 2 eexists. split; [done|]. split.
      + intros s Hn. rewrite F2.
        * rewrite C2 by done. apply lookup_empty.
        * intros Hin. apply C4' in Hin as [? _]. done.
      + intros s Hs. destruct (decide (s ∈ toFetch)) as [Hin|Hn].
        * rewrite F1 by done. apply C4' in Hin as [_ Hnf].
          unfold quote_entry, fetched_entry. by rewrite Hnf.
        * rewrite F2 by done. by apply Hfresh.
    - do 2 eexists. split; [done|]. split.
      + intros s Hn. rewrite unavailable_fold, C2 by done. rewrite lookup_empty.
        rewrite decide_False; [done|]. intros Hin. apply C4' in Hin as [? _]. done.
      + intros s Hs. rewrite unavailable_fold.
        destruct (decide (s ∈ toFetch)) as [Hin|Hn].
        * apply C4' in Hin as [_ Hnf]. rewrite C3, lookup_empty by done.
          unfold quote_entry. by rewrite Hnf.
        * rewrite (Hfresh s Hs Hn). done. }
  exists results, fx. split; [done|]. split; [|split; [done|]].
  - intros s. split.
    + intros Hs. rewrite Hin by done. by eexists.
    + intros [v Hv]. destruct (decide (s ∈ toUpperCase <$> symbols)); [done|].
      rewrite Hout in Hv by done. done.
  - intros s message Hs Hnf Hfail. rewrite (Hin s Hs).
    unfold quote_entry, fetch_quote, stale_or_error in *. rewrite Hnf.
    destruct getYahooFinance as [yf|m].
    + rewrite Hfail. destruct (cache !! s); [done|by eexists].
    + destruct (cache !! s); [done|by eexists].
Qed.

Lemma batch_quotes_isolated_witness :
  ∃ results fx,
    post_quotes (Resolved sample_provider) sample_clock stale_cache
      (Some ["aapl"; "msft"; "nope"])
    = (Json 200 results, fx)
    ∧ results !! "AAPL"
      = Some (quote_entry (Resolved sample_provider) sample_clock stale_cache "AAPL")
    ∧ (∃ stale, results !! "MSFT" = Some (JStale stale))
    ∧ (∃ error, results !! "NOPE" = Some (JNoData "NOPE" 0 error)).
Proof.
  destruct (batch_quotes_isolated (Resolved sample_provider) sample_clock
              stale_cache ["aapl"; "msft"; "nope"])
    as (results & fx & Heq & _ & Hentry & Hfail).
  exists results, fx. split; [exact Heq|]. split; [|split].
  - apply Hentry. vm_compute. left.
  - pose proof (Hfail "MSFT" "Not Found") as H. cbn in H. eexists. apply H.
    + vm_compute. right. left.
    + reflexivity.
    + reflexivity.
  - pose proof (Hfail "NOPE" "Not Found") as H. cbn in H. apply H.
    + vm_compute. right. right. left.
    + reflexivity.
    + reflexivity.
Defined.

(** ** Dashboard summary: totals *)

Lemma sum_qc_perm (l1 l2 : list Qc) : l1 ≡ₚ l2 → sum_qc l1 = sum_qc l2.
Proof.
  induction 1 as [|x l1 l2 _ IH|x y l|l1 l2 l3 _ IH1 _ IH2]; simpl.
  - done.
  - by rewrite IH.
  - ring.
  - congruence.
Qed.

Section totals.
Context (prices : gmap string PriceCache) (rates : gmap string Qc)
        (baseCurrency : string).

Lemma add_holding_totals acc h :
  totalWealth (add_holding prices rates baseCurrency acc h)
    = (totalWealth acc + market_value prices rates baseCurrency h)%Qc
  ∧ totalCost (add_holding prices rates baseCurrency acc h)
    = (totalCost acc + cost_basis rates baseCurrency h)%Qc.
Proof. done. Qed.

(** The totals are the sums of the per-holding values. *)
Lemma fold_add_holding_totals holdings acc :
  let acc' := foldl (add_holding prices rates baseCurrency) acc holdings in
  totalWealth acc'
    = (totalWealth acc
       + sum_qc (market_value prices rates baseCurrency <$> holdings))%Qc
  ∧ totalCost acc'
    = (totalCost acc + sum_qc (cost_basis rates baseCurrency <$> holdings))%Qc.
Proof.
  revert acc. induction holdings as [|h holdings IH]; intros acc.
  - simpl. split; ring.
  - cbn [foldl].
    destruct (IH (add_holding prices rates baseCurrency acc h)) as [-> ->].
    destruct (add_holding_totals acc h) as [-> ->].
    rewrite !fmap_cons. unfold sum_qc. cbn [foldr]. split; ring.
Qed.
End totals.

Lemma gain_percent_defined (wealth cost : Qc) :
  gain_percent wealth cost
  = Some (if decide (0 < cost)%Qc then ((wealth - cost) / cost * dec 100 1)%Qc
          else 0%Qc).
Proof.
  unfold gain_percent, js_div. destruct (decide (0 < cost)%Qc) as [Hpos|]; [|done].
  destruct (decide (cost = 0%Qc)) as [->|]; [|done].
  by apply Qclt_not_eq in Hpos.
Qed.

(** *** The loop over either arithmetic *)

Section totals_over.
Context (A : Arith).
Implicit Types (acc : TotalsOver A) (v : ValuedHolding A) (a : AccountSummaryOver A).

Lemma fold_add_valued_totals valued acc :
  to_totalWealth (foldl (add_valued A) acc valued)
    = foldl (λ w v, n_add A w (vh_market_value v)) (to_totalWealth acc) valued
  ∧ to_totalCost (foldl (add_valued A) acc valued)
    = foldl (λ c v, n_add A c (vh_cost_basis v)) (to_totalCost acc) valued.
Proof.
  revert acc. induction valued as [|v valued IH]; intros acc; [done|].
  cbn [foldl]. destruct (IH (add_valued A acc v)) as [-> ->]. done.
Qed.

Lemma fold_credit valued a :
  ao_account_id (foldl (credit A) a valued) = ao_account_id a
  ∧ ao_account_name (foldl (credit A) a valued) = ao_account_name a
  ∧ ao_market_value (foldl (credit A) a valued)
    = foldl (λ w v, n_add A w (vh_market_value v)) (ao_market_value a) valued
  ∧ ao_cost_basis (foldl (credit A) a valued)
    = foldl (λ c v, n_add A c (vh_cost_basis v)) (ao_cost_basis a) valued
  ∧ ao_holdings_count (foldl (credit A) a valued)
    = (ao_holdings_count a + length valued)%nat.
Proof.
  revert a. induction valued as [|v valued IH]; intros a.
  - cbn. repeat split; lia.
  - cbn [foldl length]. destruct (IH (credit A a v)) as (-> & -> & -> & -> & ->).
    cbn. repeat split; lia.
Qed.

Lemma fold_add_valued_lookup valued acc (i : Z) :
  to_accountSummaries (foldl (add_valued A) acc valued) !! i
  = match to_accountSummaries acc !! i with
    | Some a => Some (foldl (credit A) a (filter (λ v, vh_account_id v = i) valued))
    | None =>
        match filter (λ v, vh_account_id v = i) valued with
        | [] => None
        | v :: g =>
            Some (foldl (credit A)
                    {| ao_account_id := i; ao_account_name := vh_account_name v;
                       ao_market_value := n_zero A; ao_cost_basis := n_zero A;
                       ao_holdings_count := 0 |} (v :: g))
        end
    end.
Proof.
  revert acc. induction valued as [|v valued IH]; intros acc.
  - cbn. by destruct (_ !! i).
  - cbn [foldl]. rewrite IH. rewrite filter_cons.
    destruct (decide (vh_account_id v = i)) as [<-|Hne].
    + unfold add_valued at 1. cbn [to_accountSummaries].
      destruct (to_accountSummaries acc !! vh_account_id v) as [a|] eqn:E.
      * by rewrite lookup_alter_eq, E.
      * by rewrite lookup_alter_eq, lookup_insert_eq.
    + unfold add_valued at 1. cbn [to_accountSummaries].
      rewrite lookup_alter_ne by done.
      destruct (to_accountSummaries acc !! vh_account_id v) as [a|] eqn:E.
      * done.
      * by rewrite lookup_insert_ne.
Qed.

Lemma summarize_over_lookup valued (i : Z) :
  to_accountSummaries
    (foldl (add_valued A)
       {| to_accountSummaries := ∅;
          to_totalWealth := n_zero A; to_totalCost := n_zero A |} valued) !! i
  = account_summary_over A valued i.
Proof.
  rewrite fold_add_valued_lookup. cbn [to_accountSummaries].
  rewrite lookup_empty. unfold account_summary_over.
  destruct (filter _ valued) as [|v g]; [done|].
  set (a0 := {| ao_account_id := i; ao_account_name := vh_account_name v;
                ao_market_value := n_zero A; ao_cost_basis := n_zero A;
                ao_holdings_count := 0 |}).
  destruct (fold_credit (v :: g) a0) as (H1 & H2 & H3 & H4 & H5).
  destruct (foldl (credit A) a0 (v :: g)) as [id name mv cb n].
  cbn in H1, H2, H3, H4, H5. by subst.
Qed.

Lemma summarize_over_accounts valued a :
  a ∈ so_accounts (summarize_over A valued)
  ↔ ∃ i, account_summary_over A valued i = Some a.
Proof.
  unfold summarize_over. cbn [so_accounts]. rewrite list_elem_of_fmap. split.
  - intros ([i a'] & -> & Hin). exists i.
    apply elem_of_map_to_list in Hin. by rewrite <-summarize_over_lookup.
  - intros [i Hi]. exists (i, a). split; [done|].
    apply elem_of_map_to_list. by rewrite summarize_over_lookup.
Qed.

Lemma summarize_over_ids valued :
  NoDup (ao_account_id <$> so_accounts (summarize_over A valued)).
Proof.
  unfold summarize_over. cbn [so_accounts].
  set (m := to_accountSummaries _).
  assert (ao_account_id <$> (map_to_list m).*2 = (map_to_list m).*1) as ->.
  { rewrite <-list_fmap_compose. apply list_fmap_ext.
    intros k [i a] Hk. cbn.
    apply list_elem_of_lookup_2, elem_of_map_to_list in Hk.
    unfold m in Hk. rewrite summarize_over_lookup in Hk.
    unfold account_summary_over in Hk.
    destruct (filter _ valued); [done|]. by injection Hk as <-. }
  apply NoDup_fst_map_to_list.
Qed.

Lemma summarize_over_one_account valued (i : Z) v g :
  valued = v :: g →
  (∀ v', v' ∈ valued → vh_account_id v' = i) →
  so_accounts (summarize_over A valued)
  = [ {| ao_account_id := i; ao_account_name := vh_account_name v;
         ao_market_value := so_total_wealth (summarize_over A valued);
         ao_cost_basis := so_total_cost (summarize_over A valued);
         ao_holdings_count := length valued |} ].
Proof.
  intros Hv Hall. unfold summarize_over.
  cbn [so_accounts so_total_wealth so_total_cost].
  set (t0 := {| to_accountSummaries := ∅;
                to_totalWealth := n_zero A; to_totalCost := n_zero A |}).
  destruct (fold_add_valued_totals valued t0) as [-> ->]. cbn [t0 to_totalWealth to_totalCost].
  assert (filter (λ v', vh_account_id v' = i) valued = valued) as Hf.
  { clear Hv. induction valued as [|v' l IH]; [done|].
    rewrite filter_cons_True by (apply Hall; by left).
    f_equal. apply IH. intros ? ?. apply Hall. by right. }
  match goal with |- (map_to_list ?m).*2 = [?a] =>
    assert (m = {[ i := a ]}) as -> end.
  { apply map_eq. intros j. unfold t0. rewrite summarize_over_lookup.
    unfold account_summary_over.
    destruct (decide (j = i)) as [->|Hne].
    - rewrite lookup_singleton_eq, Hf, Hv. done.
    - rewrite lookup_singleton_ne by done.
      destruct (filter (λ v', vh_account_id v' = j) valued) as [|v' l] eqn:Ej;
        [done|].
      assert (v' ∈ filter (λ v', vh_account_id v' = j) valued) as Hin
        by (rewrite Ej; by left).
      apply list_elem_of_filter in Hin as [Hj Hin].
      destruct Hne. rewrite <-Hj. by apply Hall. }
  by rewrite map_to_list_singleton.
Qed.
End totals_over.

(** [summarize] is the loop over exact arithmetic. *)
Lemma add_holding_exact prices rates baseCurrency (t : TotalsOver exact) h :
  add_holding prices rates baseCurrency (totals_exact t) h
  = totals_exact (add_valued exact t (valued_holding prices rates baseCurrency h)).
Proof.
  unfold add_holding, add_valued, totals_exact.
  cbn [accountSummaries totalWealth totalCost to_accountSummaries to_totalWealth
       to_totalCost valued_holding vh_account_id vh_account_name vh_market_value
       vh_cost_basis].
  f_equal. rewrite lookup_fmap.
  destruct (to_accountSummaries t !! h_account_id h) as [a|] eqn:E; cbn.
  - symmetry. by apply fmap_alter.
  - symmetry. erewrite fmap_alter; [by rewrite fmap_insert|done].
Qed.

Lemma summarize_exact holdings prices rates baseCurrency :
  foldl (add_holding prices rates baseCurrency)
        {| accountSummaries := ∅; totalWealth := 0; totalCost := 0 |} holdings
  = totals_exact
      (foldl (add_valued exact)
         {| to_accountSummaries := ∅;
            to_totalWealth := n_zero exact; to_totalCost := n_zero exact |}
         (valued_holding prices rates baseCurrency <$> holdings)).
Proof.
  change {| accountSummaries := ∅; totalWealth := 0; totalCost := 0 |}
    with (totals_exact {| to_accountSummaries := ∅;
                          to_totalWealth := n_zero exact;
                          to_totalCost := n_zero exact |}).
  generalize ({| to_accountSummaries := ∅; to_totalWealth := n_zero exact;
                 to_totalCost := n_zero exact |} : TotalsOver exact).
  induction holdings as [|h holdings IH]; intros t; [done|].
  rewrite fmap_cons. cbn [foldl]. rewrite add_holding_exact. apply IH.
Qed.

(** C2, as the code has it.  For every collection of holdings, prices and
    rates, the dashboard summary returns total_gain = total_wealth -
    total_cost; total_gain_percent is always defined (no division by zero),
    equal to (total_wealth - total_cost) / total_cost * 100 when total_cost
    is strictly positive and to 0 when total_cost is 0, whatever
    total_wealth is.  The numbers of the summary are those of the totals
    loop, and in that loop, over exact numbers and over doubles alike:
    total_wealth and total_cost accumulate the values of the holdings one by
    one in the order of the holdings; there is one summary per account that
    has a holding, and its market_value and cost_basis accumulate, in that
    same order, the values of the holdings of the account; so that with all
    holdings in one account the sub-totals of that account are the totals. *)
Theorem summary_totals
    (holdings : list HoldingRow) (prices : gmap string PriceCache)
    (rates : gmap string Qc) (baseCurrency : string) :
  total_gain (summarize holdings prices rates baseCurrency)
    = (total_wealth (summarize holdings prices rates baseCurrency)
       - total_cost (summarize holdings prices rates baseCurrency))%Qc
  ∧ total_gain_percent (summarize holdings prices rates baseCurrency)
    = Some (if decide (0 < total_cost (summarize holdings prices rates baseCurrency))%Qc
            then ((total_wealth (summarize holdings prices rates baseCurrency)
                   - total_cost (summarize holdings prices rates baseCurrency))
                  / total_cost (summarize holdings prices rates baseCurrency)
                  * dec 100 1)%Qc
            else 0%Qc)
  ∧ (total_cost (summarize holdings prices rates baseCurrency) = 0%Qc →
     total_gain_percent (summarize holdings prices rates baseCurrency) = Some 0%Qc)
  ∧ (let loop := summarize_over exact
                   (valued_holding prices rates baseCurrency <$> holdings) in
     total_wealth (summarize holdings prices rates baseCurrency)
       = so_total_wealth loop
     ∧ total_cost (summarize holdings prices rates baseCurrency)
       = so_total_cost loop
     ∧ total_gain (summarize holdings prices rates baseCurrency)
       = so_total_gain loop
     ∧ total_gain_percent (summarize holdings prices rates baseCurrency)
       = Some (so_total_gain_percent loop)
     ∧ accounts (summarize holdings prices rates baseCurrency)
       = account_summary_exact <$> so_accounts loop
     ∧ holdings_count (summarize holdings prices rates baseCurrency)
       = so_holdings_count loop)
  ∧ ∀ (A : Arith) (valued : list (ValuedHolding A)),
      so_total_wealth (summarize_over A valued)
        = foldl (λ w v, n_add A w (vh_market_value v)) (n_zero A) valued
      ∧ so_total_cost (summarize_over A valued)
        = foldl (λ c v, n_add A c (vh_cost_basis v)) (n_zero A) valued
      ∧ so_total_gain (summarize_over A valued)
        = n_sub A (so_total_wealth (summarize_over A valued))
                  (so_total_cost (summarize_over A valued))
      ∧ so_total_gain_percent (summarize_over A valued)
        = (if n_pos A (so_total_cost (summarize_over A valued))
           then n_mul A
                  (n_div A (n_sub A (so_total_wealth (summarize_over A valued))
                                    (so_total_cost (summarize_over A valued)))
                           (so_total_cost (summarize_over A valued)))
                  (n_hundred A)
           else n_zero A)
      ∧ so_holdings_count (summarize_over A valued) = length valued
      ∧ NoDup (ao_account_id <$> so_accounts (summarize_over A valued))
      ∧ (∀ a, a ∈ so_accounts (summarize_over A valued)
              ↔ ∃ v g,
                  filter (λ v', vh_account_id v' = ao_account_id a) valued = v :: g
                  ∧ ao_account_name a = vh_account_name v
                  ∧ ao_market_value a
                    = foldl (λ w v', n_add A w (vh_market_value v')) (n_zero A)
                            (v :: g)
                  ∧ ao_cost_basis a
                    = foldl (λ c v', n_add A c (vh_cost_basis v')) (n_zero A)
                            (v :: g)
                  ∧ ao_holdings_count a = length (v :: g))
      ∧ (∀ i v g,
           valued = v :: g → (∀ v', v' ∈ valued → vh_account_id v' = i) →
           so_accounts (summarize_over A valued)
           = [ {| ao_account_id := i; ao_account_name := vh_account_name v;
                  ao_market_value := so_total_wealth (summarize_over A valued);
                  ao_cost_basis := so_total_cost (summarize_over A valued);
                  ao_holdings_count := length valued |} ]).
Proof.
  split; [done|]. split; [apply gain_percent_defined|]. split; [|split].
  - unfold summarize. cbn [total_cost total_gain_percent].
    intros Hz. rewrite gain_percent_defined, Hz.
    rewrite decide_False; [done|]. intros Hlt. by apply Qclt_not_eq in Hlt.
  - unfold summarize, summarize_over. rewrite summarize_exact.
    cbn [total_wealth total_cost total_gain total_gain_percent accounts
         holdings_count so_total_wealth so_total_cost so_total_gain
         so_total_gain_percent so_accounts so_holdings_count totals_exact
         accountSummaries totalWealth totalCost].
    split; [done|]. split; [done|]. split; [done|]. split; [|split].
    + rewrite gain_percent_defined. cbn [exact n_pos n_mul n_div n_sub n_hundred n_zero].
      case_bool_decide; [rewrite decide_True by done|rewrite decide_False by done];
        done.
    + rewrite map_to_list_fmap, <-!list_fmap_compose.
      apply list_fmap_ext. by intros k [i a] _.
    + by rewrite length_fmap.
  - intros A valued.
    split; [apply (fold_add_valued_totals A valued)|].
    split; [apply (fold_add_valued_totals A valued)|].
    split; [done|]. split; [done|]. split; [done|].
    split; [apply summarize_over_ids|]. split.
    + intros a. rewrite summarize_over_accounts. unfold account_summary_over. split.
      * intros [i Hi]. destruct (filter _ valued) as [|v g] eqn:Ef; [done|].
        injection Hi as <-. cbn [ao_account_id]. rewrite Ef. by exists v, g.
      * intros (v & g & Ef & Hn & Hw & Hc & Hl). exists (ao_account_id a).
        rewrite Ef. destruct a. cbn in *. by subst.
    + apply summarize_over_one_account.
Qed.

Lemma summary_totals_witness :
  total_gain_percent (summarize [gift_holding] gift_prices ∅ "EUR") = Some 0%Qc.
Proof.
  destruct (summary_totals [gift_holding] gift_prices ∅ "EUR")
    as (_ & _ & Hzero & _).
  apply Hzero. apply Qc_is_canon. reflexivity.
Defined.

(** C2, where the claim fails.  Three holdings in two accounts, worth 0.1,
    0.1 and 0.4 in that order: the loop over doubles reports the total
    wealth 0.6000000000000001 and the sub-totals 0.5 and 0.1, and in
    whichever order the sub-totals are added up, their sum 0.6 is not the
    total. *)
Lemma subtotals_miss_total_in_doubles :
  so_total_wealth (summarize_over double drifting_holdings)
    = 0x1.3333333333334p-1%float
  ∧ so_accounts (summarize_over double drifting_holdings)
    ≡ₚ [ Build_AccountSummaryOver double 1 "Broker" 0.5%float 0%float 2;
         Build_AccountSummaryOver double 2 "Wallet" (1 / 10)%float 0%float 1 ]
  ∧ ∀ subtotals : list float,
      subtotals ≡ₚ map ao_market_value
                     (so_accounts (summarize_over double drifting_holdings)) →
      PrimFloat.eqb (foldl PrimFloat.add 0%float subtotals)
                    (so_total_wealth (summarize_over double drifting_holdings))
      = false.
Proof.
  split; [vm_compute; reflexivity|]. split.
  - vm_compute. apply perm_swap.
  - intros l Hl.
    assert (map ao_market_value
              (so_accounts (summarize_over double drifting_holdings))
            = [(1 / 10)%float; 0.5%float]) as E by (vm_compute; reflexivity).
    rewrite E in Hl. symmetry in Hl.
    apply Permutation_length_2_inv in Hl as [-> | ->]; vm_compute; reflexivity.
Qed.

(** ** Dashboard summary: prices *)

Lemma js_set_fold (l seen : list string) :
  NoDup seen →
  NoDup (foldl (λ seen x, if decide (x ∈ seen) then seen else seen ++ [x]) seen l)
  ∧ ∀ x, x ∈ foldl (λ seen x, if decide (x ∈ seen) then seen else seen ++ [x]) seen l
         ↔ x ∈ seen ∨ x ∈ l.
Proof.
  revert seen. induction l as [|y l IH]; intros seen Hnd; simpl.
  - split; [done|]. intros x. split; [by left|].
    intros [?|Hin]; [done|]. by apply elem_of_nil in Hin.
  - destruct (decide (y ∈ seen)) as [Hy|Hy].
    + destruct (IH seen Hnd) as [H1 H2]. split; [done|].
      intros x. rewrite H2, elem_of_cons.
      split; [intros [?|?]; auto | intros [?|[->|?]]; auto].
    + assert (NoDup (seen ++ [y])) as Hnd'.
      { apply list.NoDup_app. split; [done|].
        split; [|apply list.NoDup_singleton].
        intros x Hx Hx'. apply list_elem_of_singleton in Hx'. congruence. }
      destruct (IH _ Hnd') as [H1 H2]. split; [done|].
      intros x. rewrite H2, elem_of_app, list_elem_of_singleton, elem_of_cons.
      split; [intros [[?|?]|?]; auto | intros [?|[?|?]]; auto].
Qed.

Lemma NoDup_js_set (l : list string) : NoDup (js_set l).
Proof. apply js_set_fold, NoDup_nil_2. Qed.

Lemma elem_of_js_set (l : list string) x : x ∈ js_set l ↔ x ∈ l.
Proof.
  unfold js_set. destruct (js_set_fold l [] (NoDup_nil_2)) as [_ H].
  rewrite H. split; [|by right]. intros [Hin|?]; [|done]. by apply elem_of_nil in Hin.
Qed.

Lemma select_fresh_ext clk (c1 c2 : gmap string PriceCache) s :
  c1 !! s = c2 !! s → select_fresh clk c1 s = select_fresh clk c2 s.
Proof. unfold select_fresh. by intros ->. Qed.

Section resolve.
Context (yf : YahooFinance) (clk : Clock) (cache : gmap string PriceCache).

Lemma resolve_one_other acc x s :
  s ≠ x →
  (resolve_one yf clk acc x).1 !! s = acc.1 !! s
  ∧ fx_cache (resolve_one yf clk acc x).2 !! s = fx_cache acc.2 !! s.
Proof.
  intros Hne. unfold resolve_one.
  destruct (select_fresh clk (fx_cache acc.2) x); simpl.
  - by rewrite lookup_insert_ne.
  - destruct (yf_quote yf x); simpl; unfold upsert_price; simpl;
      by rewrite ?lookup_insert_ne.
Qed.

Lemma resolve_one_self acc x :
  fx_cache acc.2 !! x = cache !! x →
  (resolve_one yf clk acc x).1 !! x = Some (resolved_price yf clk cache x)
  ∧ entry_price_data (fx_cache (resolve_one yf clk acc x).2 !! x)
    = entry_price_data (Some (resolved_price yf clk cache x)).
Proof.
  intros Hx. unfold resolve_one, resolved_price.
  rewrite (select_fresh_ext clk _ cache x Hx).
  destruct (select_fresh clk cache x) as [c|] eqn:E; simpl.
  - rewrite lookup_insert_eq, Hx. split; [done|].
    unfold select_fresh in E. destruct (cache !! x) as [e|]; [|done].
    by destruct (String.ltb _ _); simplify_eq.
  - destruct (yf_quote yf x) as [q|m]; simpl; rewrite lookup_insert_eq.
    + unfold upsert_price. simpl. by rewrite lookup_insert_eq.
    + rewrite Hx. split; [done|]. by destruct (cache !! x).
Qed.

Lemma resolve_fold (symbols : list string) acc :
  NoDup symbols →
  (∀ s, s ∈ symbols → fx_cache acc.2 !! s = cache !! s) →
  let out := foldl (resolve_one yf clk) acc symbols in
  (∀ s, s ∈ symbols →
        out.1 !! s = Some (resolved_price yf clk cache s)
        ∧ entry_price_data (fx_cache out.2 !! s)
          = entry_price_data (Some (resolved_price yf clk cache s)))
  ∧ (∀ s, s ∉ symbols →
          out.1 !! s = acc.1 !! s ∧ fx_cache out.2 !! s = fx_cache acc.2 !! s).
Proof.
  revert acc. induction symbols as [|x l IH]; intros acc Hnd Hc; simpl.
  - split; [|done]. intros s Hin. by apply elem_of_nil in Hin.
  - apply list.NoDup_cons in Hnd as [Hx Hnd].
    destruct (IH (resolve_one yf clk acc x) Hnd) as [H1 H2].
    { intros s Hs. destruct (resolve_one_other acc x s) as [_ ->].
      - intros ->. done.
      - apply Hc. by right. }
    split.
    + intros s Hs. apply elem_of_cons in Hs as [->|Hs]; [|by apply H1].
      destruct (H2 x Hx) as [-> ->]. apply resolve_one_self, Hc. by left.
    + intros s Hs. apply not_elem_of_cons in Hs as [Hne Hs].
      destruct (H2 s Hs) as [-> ->]. by apply resolve_one_other.
Qed.
End resolve.

Lemma market_value_zero_price prices rates baseCurrency h :
  prices !! h_symbol h = Some (no_price (h_symbol h)) →
  market_value prices rates baseCurrency h = 0%Qc.
Proof.
  intros Hp. unfold market_value, price_data. rewrite Hp. simpl.
  case_decide; ring.
Qed.

Lemma cost_basis_spec rates baseCurrency h :
  cost_basis rates baseCurrency h = spec_cost_basis rates baseCurrency h.
Proof.
  unfold cost_basis, spec_cost_basis, spec_multiplier, rate_or_1, rate_key,
    opt_num_or, num_or.
  assert (opt_num_or (h_avg_cost h) 0 = default 0 (h_avg_cost h)) as Havg.
  { unfold opt_num_or, num_or. destruct (h_avg_cost h) as [v|]; [|done]. simpl.
    case_decide; by subst. }
  unfold opt_num_or, num_or in Havg. rewrite Havg.
  destruct (decide (h_account_currency h ≠ "" ∧ h_account_currency h ≠ baseCurrency))
    as [[H1 H2]|Hn].
  - rewrite decide_False by (intros [?|?]; done). done.
  - rewrite decide_True; [done|].
    destruct (decide (h_account_currency h = "")); [by left|].
    destruct (decide (h_account_currency h = baseCurrency)); [by right|].
    by destruct Hn.
Qed.

Lemma market_value_spec prices rates baseCurrency h :
  market_value prices rates baseCurrency h
  = spec_market_value rates baseCurrency (price_data prices h).1
      (price_data prices h).2 h.
Proof.
  unfold market_value, spec_market_value, spec_multiplier, rate_or_1, rate_key,
    opt_num_or, num_or, str_or.
  destruct (decide ((if decide ((price_data prices h).2 = "") then "USD"
                     else (price_data prices h).2) = baseCurrency)) as [He|Hne].
  - by rewrite decide_False by (intros Hn; by apply Hn).
  - by rewrite decide_True.
Qed.

Lemma fold_add_holding_left prices rates baseCurrency holdings acc :
  totalWealth (foldl (add_holding prices rates baseCurrency) acc holdings)
  = foldl (λ a h, a + market_value prices rates baseCurrency h)
          (totalWealth acc) holdings
  ∧ totalCost (foldl (add_holding prices rates baseCurrency) acc holdings)
    = foldl (λ a h, a + cost_basis rates baseCurrency h) (totalCost acc) holdings.
Proof.
  revert acc. induction holdings as [|h l IH]; intros acc; [done|].
  cbn [foldl]. destruct (IH (add_holding prices rates baseCurrency acc h))
    as [-> ->]. done.
Qed.

Lemma foldl_ext_in {A B : Type} (f g : B → A → B) (l : list A) (b : B) :
  (∀ b x, x ∈ l → f b x = g b x) → foldl f b l = foldl g b l.
Proof.
  revert b. induction l as [|x l IH]; intros b Hext; [done|].
  cbn [foldl]. rewrite (Hext b x) by (by left). apply IH.
  intros b' y Hy. apply Hext. by right.
Qed.

Lemma resolved_price_spec yf clk cache s :
  entry_price_data (Some (resolved_price yf clk cache s)) = spec_price yf clk cache s.
Proof.
  unfold resolved_price, spec_price, select_fresh, entry_price_data.
  destruct (cache !! s) as [e|].
  - destruct (String.ltb _ _); [done|].
    destruct (yf_quote yf s) as [quote|m]; [|done].
    by rewrite quote_data_fields.
  - destruct (yf_quote yf s) as [quote|m]; [|done].
    by rewrite quote_data_fields.
Qed.

(** C10, as the code has it.  Once the provider client is obtained, the
    dashboard summary does not fail because of a missing price: the route
    answers 200 with a summary; a held symbol is valued at the price of its
    cache entry when that is newer than five minutes, else at the quote when
    the quote call resolves, else at the cache entry of any age, and every
    holding whose quote call throws while the price cache has no entry for
    its symbol is priced at 0 in USD, so that its market value is zero;
    total_wealth accumulates, holding by holding, the market values at these
    prices, and total_cost accumulates the full cost basis of every holding,
    that is quantity times average cost converted from the currency of the
    account, whatever its price is. *)
Theorem summary_survives_missing_price (yf : YahooFinance) (clk : Clock) (db : Db) :
  ∃ (body : Summary) (fx : QuoteEffects),
    dashboard_summary (Resolved yf) clk db = (Json 200 body, fx)
    ∧ (∀ h message,
         h ∈ holdings_query (transactions db) (db_accounts db) →
         yf_quote yf (h_symbol h) = Thrown message →
         price_cache db !! h_symbol h = None →
         spec_price yf clk (price_cache db) (h_symbol h) = (0, "USD")
         ∧ spec_market_value (load_rates (currency_rates db))
             (user_base_currency (users db)) 0 "USD" h = 0)
    ∧ total_wealth body
      = foldl (λ acc h,
                 acc + spec_market_value (load_rates (currency_rates db))
                         (user_base_currency (users db))
                         (spec_price yf clk (price_cache db) (h_symbol h)).1
                         (spec_price yf clk (price_cache db) (h_symbol h)).2 h)
              0 (holdings_query (transactions db) (db_accounts db))
    ∧ total_cost body
      = foldl (λ acc h,
                 acc + spec_cost_basis (load_rates (currency_rates db))
                         (user_base_currency (users db)) h)
              0 (holdings_query (transactions db) (db_accounts db))
    ∧ holdings_count body
      = length (holdings_query (transactions db) (db_accounts db)).
Proof.
  set (holdings := holdings_query (transactions db) (db_accounts db)).
  set (rates := load_rates (currency_rates db)).
  set (base := user_base_currency (users db)).
  set (start := (∅ : gmap string PriceCache,
                 {| fx_cache := price_cache db; fx_fetched := [] |})).
  set (out := foldl (resolve_one yf clk) start (js_set (h_symbol <$> holdings))).
  assert (∀ h, h ∈ holdings →
            price_data out.1 h = spec_price yf clk (price_cache db) (h_symbol h))
    as Hprice.
  { intros h Hh.
    destruct (resolve_fold yf clk (price_cache db)
                (js_set (h_symbol <$> holdings)) start) as [H1 _].
    { apply NoDup_js_set. }
    { done. }
    destruct (H1 (h_symbol h)) as [Hp _].
    { apply elem_of_js_set, list_elem_of_fmap. by exists h. }
    fold out in Hp. unfold price_data. rewrite Hp.
    apply resolved_price_spec. }
  exists (summarize holdings out.1 rates base), out.2.
  split; [|split; [|split; [|split]]].
  - unfold dashboard_summary. fold holdings start rates base. unfold out.
    destruct (js_set (h_symbol <$> holdings)) as [|s0 l] eqn:E; [done|].
    by destruct (foldl (resolve_one yf clk) start (s0 :: l)).
  - intros h message Hh Hq Hc. split.
    + unfold spec_price. by rewrite Hc, Hq.
    + unfold spec_market_value. cbn zeta. case_decide; ring.
  - unfold summarize. cbn [total_wealth].
    destruct (fold_add_holding_left out.1 rates base holdings
                {| accountSummaries := ∅; totalWealth := 0; totalCost := 0 |})
      as [-> _]. cbn [totalWealth].
    apply foldl_ext_in. intros b h Hh. by rewrite market_value_spec, Hprice.
  - unfold summarize. cbn [total_cost].
    destruct (fold_add_holding_left out.1 rates base holdings
                {| accountSummaries := ∅; totalWealth := 0; totalCost := 0 |})
      as [_ ->]. cbn [totalCost].
    apply foldl_ext_in. intros b h _. by rewrite cost_basis_spec.
  - done.
Qed.

Lemma summary_survives_missing_price_witness :
  ∃ (body : Summary) (fx : QuoteEffects),
    dashboard_summary (Resolved sample_provider) sample_clock sample_db
    = (Json 200 body, fx)
    ∧ spec_price sample_provider sample_clock (price_cache sample_db) "BTC-USD"
      = (0, "USD")
    ∧ spec_market_value (load_rates (currency_rates sample_db))
        (user_base_currency (users sample_db)) 0 "USD" sample_btc_holding = 0
    ∧ total_cost body
      = foldl (λ acc h,
                 acc + spec_cost_basis (load_rates (currency_rates sample_db))
                         (user_base_currency (users sample_db)) h)
              0 (holdings_query (transactions sample_db) (db_accounts sample_db)).
Proof.
  destruct (summary_survives_missing_price sample_provider sample_clock sample_db)
    as (body & fx & Heq & Hmissing & _ & Hcost & _).
  exists body, fx. split; [exact Heq|].
  destruct (Hmissing sample_btc_holding "Not Found") as [Hp Hv].
  - apply (list_elem_of_lookup_2 _ 1%nat). vm_compute. reflexivity.
  - reflexivity.
  - reflexivity.
  - split; [exact Hp|]. split; [exact Hv|exact Hcost].
Defined.

(** C10, the side condition the code adds: when obtaining the provider
    client throws, the summary of a ledger with a holding whose symbol has
    no cache entry is not computed; the route answers 500 with the message
    thrown. *)
Lemma summary_fails_when_client_is_missing :
  sample_btc_holding
    ∈ holdings_query (transactions sample_db) (db_accounts sample_db)
  ∧ price_cache sample_db !! h_symbol sample_btc_holding = None
  ∧ dashboard_summary (Thrown "Cannot find package 'yahoo-finance2'")
      sample_clock sample_db
    = (ErrorJson 500 "Cannot find package 'yahoo-finance2'",
       {| fx_cache := price_cache sample_db; fx_fetched := [] |}).
Proof.
  split; [|split].
  - apply (list_elem_of_lookup_2 _ 1%nat). vm_compute. reflexivity.
  - reflexivity.
  - vm_compute. reflexivity.
Qed.

(** ** Daily wealth snapshot *)

Lemma sum_qc_fmap_ext {A : Type} (f g : A → Qc) (l : list A) :
  (∀ x, x ∈ l → f x = g x) → sum_qc (f <$> l) = sum_qc (g <$> l).
Proof.
  induction l as [|x l IH]; intros Hfg; [done|].
  rewrite !fmap_cons. unfold sum_qc. cbn [foldr]. fold (sum_qc (f <$> l)).
  fold (sum_qc (g <$> l)). rewrite IH, Hfg; [done|by left|].
  intros y Hy. apply Hfg. by right.
Qed.

Lemma cached_prices_fold (cache prices : gmap string PriceCache)
    (symbols : list string) (s : string) :
  foldl (λ prices symbol,
           match cache !! symbol with
           | Some cached => <[symbol := cached]> prices
           | None => prices
           end) prices symbols !! s
  = if decide (s ∈ symbols)
    then match cache !! s with Some c => Some c | None => prices !! s end
    else prices !! s.
Proof.
  revert prices. induction symbols as [|x l IH]; intros prices; simpl; [done|].
  rewrite IH. destruct (decide (s ∈ l)) as [Hin|Hn].
  - rewrite decide_True by (by right).
    destruct (cache !! s) eqn:E; [done|].
    destruct (cache !! x) eqn:Ex; [|done].
    rewrite lookup_insert_ne; [done|]. congruence.
  - destruct (decide (x = s)) as [->|Hne].
    + rewrite decide_True by left.
      destruct (cache !! s); [by rewrite lookup_insert_eq|done].
    + rewrite decide_False by (intros [?|?]%elem_of_cons; congruence).
      destruct (cache !! x); [by rewrite lookup_insert_ne|done].
Qed.

Lemma price_data_cached (cache : gmap string PriceCache)
    (symbols : list string) (h : HoldingRow) :
  h_symbol h ∈ symbols →
  price_data (cached_prices cache symbols) h = entry_price_data (cache !! h_symbol h).
Proof.
  intros Hin. unfold price_data, cached_prices.
  rewrite cached_prices_fold, decide_True by done. rewrite lookup_empty.
  by destruct (cache !! h_symbol h).
Qed.

Lemma market_value_price_data p1 p2 rates baseCurrency h :
  price_data p1 h = price_data p2 h →
  market_value p1 rates baseCurrency h = market_value p2 rates baseCurrency h.
Proof. unfold market_value. by intros ->. Qed.

Lemma fold_add_detail_totals prices rates baseCurrency holdings acc :
  snapWealth (foldl (add_detail prices rates baseCurrency) acc holdings)
    = (snapWealth acc + sum_qc (market_value prices rates baseCurrency <$> holdings))%Qc
  ∧ snapCost (foldl (add_detail prices rates baseCurrency) acc holdings)
    = (snapCost acc + sum_qc (cost_basis rates baseCurrency <$> holdings))%Qc.
Proof.
  revert acc. induction holdings as [|h holdings IH]; intros acc.
  - simpl. split; ring.
  - cbn [foldl]. destruct (IH (add_detail prices rates baseCurrency acc h)) as [-> ->].
    rewrite !fmap_cons. unfold sum_qc, add_detail. cbn [foldr snapWealth snapCost].
    split; ring.
Qed.

Lemma snapshot_totals_sums (db : Db) :
  snapWealth (snapshot_totals db)
    = sum_qc (market_value
                (cached_prices (price_cache db)
                   (js_set (h_symbol <$> holdings_query (transactions db)
                                           (db_accounts db))))
                (load_rates (currency_rates db))
                (user_base_currency (users db))
              <$> holdings_query (transactions db) (db_accounts db))
  ∧ snapCost (snapshot_totals db)
    = sum_qc (cost_basis (load_rates (currency_rates db))
                (user_base_currency (users db))
              <$> holdings_query (transactions db) (db_accounts db)).
Proof.
  unfold snapshot_totals.
  destruct (fold_add_detail_totals
              (cached_prices (price_cache db)
                 (js_set (h_symbol <$> holdings_query (transactions db) (db_accounts db))))
              (load_rates (currency_rates db)) (user_base_currency (users db))
              (holdings_query (transactions db) (db_accounts db))
              {| accountDetails := ∅; snapWealth := 0; snapCost := 0 |}) as [-> ->].
  cbn [snapWealth snapCost]. split; apply Qcplus_0_l.
Qed.

(** What an answered summary was computed from. *)
Lemma dashboard_summary_inv getYahooFinance clk db s fx :
  dashboard_summary getYahooFinance clk db = (Json 200 s, fx) →
  ∃ prices,
    s = summarize (holdings_query (transactions db) (db_accounts db)) prices
          (load_rates (currency_rates db)) (user_base_currency (users db))
    ∧ ∀ h, h ∈ holdings_query (transactions db) (db_accounts db) →
        ∃ yf, getYahooFinance = Resolved yf
          ∧ price_data prices h
            = entry_price_data
                (Some (resolved_price yf clk (price_cache db) (h_symbol h)))
          ∧ entry_price_data (fx_cache fx !! h_symbol h)
            = entry_price_data
                (Some (resolved_price yf clk (price_cache db) (h_symbol h))).
Proof.
  unfold dashboard_summary.
  set (holdings := holdings_query (transactions db) (db_accounts db)).
  set (start := (∅ : gmap string PriceCache,
                 {| fx_cache := price_cache db; fx_fetched := [] |})).
  destruct (js_set (h_symbol <$> holdings)) as [|s0 l] eqn:E.
  - intros [= <- <-]. exists ∅. split; [done|].
    intros h Hh. assert (h_symbol h ∈ js_set (h_symbol <$> holdings)) as Hin.
    { apply elem_of_js_set, list_elem_of_fmap. by exists h. }
    rewrite E in Hin. by apply elem_of_nil in Hin.
  - rewrite <-E. clear E s0 l.
    destruct getYahooFinance as [yf|m]; [|done].
    destruct (foldl (resolve_one yf clk) start (js_set (h_symbol <$> holdings)))
      as [prices fx'] eqn:Ef.
    intros [= <- <-]. exists prices. split; [done|].
    intros h Hh. exists yf. split; [done|].
    destruct (resolve_fold yf clk (price_cache db)
                (js_set (h_symbol <$> holdings)) start) as [H1 _].
    { apply NoDup_js_set. }
    { done. }
    destruct (H1 (h_symbol h)) as [Hp Hc].
    { apply elem_of_js_set, list_elem_of_fmap. by exists h. }
    rewrite Ef in Hp, Hc. simpl in Hp, Hc.
    split; [|done]. unfold price_data. by rewrite Hp.
Qed.

Lemma select_fresh_Some clk (cache : gmap string PriceCache) s c :
  select_fresh clk cache s = Some c → cache !! s = Some c.
Proof.
  unfold select_fresh. destruct (cache !! s); [|done].
  by destruct (String.ltb _ _); intros [= <-].
Qed.

(** C8, as the code has it.  The snapshot reads prices from the price cache
    only, of any age, and never asks the provider.  Its total_cost is the
    total_cost of the dashboard summary on the same state; its total_wealth
    is the summary's total_wealth when it runs on the price cache that
    summary left behind, or on the same state when every held symbol has a
    cache entry fresher than 5 minutes.  The result is upserted into
    daily_wealth under today's date: the row of today is replaced, the other
    dates are kept, and a repeated call on the same day adds no row. *)
Theorem snapshot_refines_summary
    (getYahooFinance : outcome YahooFinance) (clk : Clock) (db : Db)
    (s : Summary) (fx : QuoteEffects)
    (Hsummary : dashboard_summary getYahooFinance clk db = (Json 200 s, fx)) :
  snapCost (snapshot_totals db) = total_cost s
  ∧ snapWealth (snapshot_totals (with_price_cache db (fx_cache fx))) = total_wealth s
  ∧ snapCost (snapshot_totals (with_price_cache db (fx_cache fx))) = total_cost s
  ∧ ((∀ h, h ∈ holdings_query (transactions db) (db_accounts db) →
           is_Some (select_fresh clk (price_cache db) (h_symbol h))) →
     snapWealth (snapshot_totals db) = total_wealth s)
  ∧ (post_daily_wealth clk db).1
    = Json 200 {| sj_date := today clk;
                  sj_total_wealth := snapWealth (snapshot_totals db);
                  sj_total_cost := snapCost (snapshot_totals db);
                  sj_base_currency := user_base_currency (users db) |}
  ∧ (∃ row, (post_daily_wealth clk db).2 !! today clk = Some row
            ∧ dw_total_wealth row = snapWealth (snapshot_totals db)
            ∧ dw_total_cost row = snapCost (snapshot_totals db))
  ∧ (∀ d, d ≠ today clk → (post_daily_wealth clk db).2 !! d = daily_wealth db !! d)
  ∧ (∀ clk', today clk' = today clk →
       dom (post_daily_wealth clk'
              (with_daily_wealth db (post_daily_wealth clk db).2)).2
       = dom (post_daily_wealth clk db).2).
Proof.
  apply dashboard_summary_inv in Hsummary as (prices & -> & Hp).
  set (holdings := holdings_query (transactions db) (db_accounts db)) in *.
  assert (total_wealth (summarize holdings prices (load_rates (currency_rates db))
                          (user_base_currency (users db)))
          = sum_qc (market_value prices (load_rates (currency_rates db))
                      (user_base_currency (users db)) <$> holdings)) as Hw.
  { unfold summarize. cbn [total_wealth].
    destruct (fold_add_holding_totals prices (load_rates (currency_rates db))
                (user_base_currency (users db)) holdings
                {| accountSummaries := ∅; totalWealth := 0; totalCost := 0 |})
      as [-> _]. apply Qcplus_0_l. }
  assert (total_cost (summarize holdings prices (load_rates (currency_rates db))
                        (user_base_currency (users db)))
          = sum_qc (cost_basis (load_rates (currency_rates db))
                      (user_base_currency (users db)) <$> holdings)) as Hc.
  { unfold summarize. cbn [total_cost].
    destruct (fold_add_holding_totals prices (load_rates (currency_rates db))
                (user_base_currency (users db)) holdings
                {| accountSummaries := ∅; totalWealth := 0; totalCost := 0 |})
      as [_ ->]. apply Qcplus_0_l. }
  rewrite Hw, Hc.
  destruct (snapshot_totals_sums db) as [Sw Sc].
  destruct (snapshot_totals_sums (with_price_cache db (fx_cache fx))) as [Sw' Sc'].
  cbn [with_price_cache transactions db_accounts price_cache currency_rates users]
    in Sw', Sc'.
  fold holdings in Sw, Sc, Sw', Sc'.
  split; [done|]. split; [|split; [done|]]; [|split; [|split; [done|split; [|split]]]].
  - rewrite Sw'. apply sum_qc_fmap_ext. intros h Hh.
    destruct (Hp h Hh) as (yf & _ & Hprices & Hcache).
    apply market_value_price_data. rewrite Hprices, <-Hcache.
    apply price_data_cached, elem_of_js_set, list_elem_of_fmap. by exists h.
  - intros Hfresh. rewrite Sw. apply sum_qc_fmap_ext. intros h Hh.
    destruct (Hp h Hh) as (yf & _ & Hprices & _).
    destruct (Hfresh h Hh) as [c Hsel].
    apply market_value_price_data. rewrite Hprices.
    rewrite price_data_cached
      by (apply elem_of_js_set, list_elem_of_fmap; by exists h).
    unfold resolved_price. rewrite Hsel.
    by rewrite (select_fresh_Some _ _ _ _ Hsel).
  - eexists. unfold post_daily_wealth. cbn [snd]. rewrite lookup_insert_eq. done.
  - intros d Hd. unfold post_daily_wealth. cbn [snd]. by rewrite lookup_insert_ne.
  - intros clk' Hday. unfold post_daily_wealth, with_daily_wealth.
    cbn [snd daily_wealth]. rewrite !dom_insert_L, Hday.
    by rewrite (assoc_L (∪)), (idemp_L (∪)).
Qed.

Lemma snapshot_refines_summary_witness :
  snapCost (snapshot_totals sample_db) = total_cost sample_summary
  ∧ snapWealth (snapshot_totals
                  (with_price_cache sample_db (fx_cache sample_summary_effects)))
    = total_wealth sample_summary
  ∧ snapCost (snapshot_totals
                (with_price_cache sample_db (fx_cache sample_summary_effects)))
    = total_cost sample_summary
  ∧ ((∀ h, h ∈ holdings_query (transactions sample_db) (db_accounts sample_db) →
           is_Some (select_fresh sample_clock (price_cache sample_db) (h_symbol h))) →
     snapWealth (snapshot_totals sample_db) = total_wealth sample_summary)
  ∧ (post_daily_wealth sample_clock sample_db).1
    = Json 200 {| sj_date := today sample_clock;
                  sj_total_wealth := snapWealth (snapshot_totals sample_db);
                  sj_total_cost := snapCost (snapshot_totals sample_db);
                  sj_base_currency := user_base_currency (users sample_db) |}
  ∧ (∃ row, (post_daily_wealth sample_clock sample_db).2 !! today sample_clock
            = Some row
            ∧ dw_total_wealth row = snapWealth (snapshot_totals sample_db)
            ∧ dw_total_cost row = snapCost (snapshot_totals sample_db))
  ∧ (∀ d, d ≠ today sample_clock →
          (post_daily_wealth sample_clock sample_db).2 !! d
          = daily_wealth sample_db !! d)
  ∧ (∀ clk', today clk' = today sample_clock →
       dom (post_daily_wealth clk'
              (with_daily_wealth sample_db
                 (post_daily_wealth sample_clock sample_db).2)).2
       = dom (post_daily_wealth sample_clock sample_db).2).
Proof.
  apply (snapshot_refines_summary (Resolved sample_provider) sample_clock
           sample_db sample_summary sample_summary_effects).
  vm_compute. reflexivity.
Defined.

(** C8 as stated fails: on a state whose price cache is empty the summary
    values AAPL at the fetched 200 USD (1840 EUR) while the snapshot, which
    only reads the cache, stores a total_wealth of 0. *)
Lemma snapshot_differs_on_same_state :
  match (dashboard_summary (Resolved sample_provider) sample_clock sample_db).1,
        (post_daily_wealth sample_clock sample_db).1 with
  | Json _ s, Json _ j =>
      total_wealth s = dec 1840 1 ∧ sj_total_wealth j = 0%Qc
      ∧ sj_total_wealth j ≠ total_wealth s
  | _, _ => False
  end.
Proof.
  vm_compute. split; [|split].
  - apply Qc_is_canon. reflexivity.
  - apply Qc_is_canon. reflexivity.
  - intros H. apply (f_equal this) in H. discriminate H.
Qed.

(** ** Historical reconstruction *)

(** *** The order of date strings *)

Lemma str_le_alt (a b : string) : str_le a b ↔ a = b ∨ String.compare a b = Lt.
Proof.
  unfold str_le, String.leb. destruct (String.compare a b) eqn:E.
  - apply String.compare_eq_iff in E. split; auto.
  - split; auto.
  - split; [done|]. intros [->|?]; [|done].
    assert (String.compare b b = Eq) as Hrefl
      by (by apply OrderedTypeEx.String_as_OT.cmp_eq).
    congruence.
Qed.

Global Instance str_le_refl : Reflexive str_le.
Proof. intros a. apply str_le_alt. by left. Qed.

Global Instance str_le_trans : Transitive str_le.
Proof.
  intros a b c [->|Hab]%str_le_alt [->|Hbc]%str_le_alt; apply str_le_alt; auto.
  right. apply OrderedTypeEx.String_as_OT.cmp_lt.
  eapply OrderedTypeEx.String_as_OT.lt_trans;
    by apply OrderedTypeEx.String_as_OT.cmp_lt.
Qed.

Global Instance str_le_total : Total str_le.
Proof. intros a b. unfold str_le. apply String.leb_total. Qed.

Global Instance str_le_antisym : AntiSymm (=) str_le.
Proof. intros a b. unfold str_le. apply String.leb_antisym. Qed.

Global Instance date_le_trans : Transitive date_le.
Proof. intros a b c. unfold date_le. apply str_le_trans. Qed.

Global Instance date_le_total : Total date_le.
Proof. intros a b. unfold date_le. apply str_le_total. Qed.



(** *** The price of a date never comes from a later date *)


(** *** The replay pointer *)

Lemma filter_none {A : Type} (P : A → Prop) `{!∀ x, Decision (P x)} (l : list A) :
  Forall (λ x, ¬ P x) l → filter P l = [].
Proof.
  induction 1 as [|x l Hx _ IH]; [done|]. by rewrite filter_cons_False.
Qed.


Section replay.
Context (txs : list Transaction) (priceHistories : gmap string (gmap string Qc)).
Context (Hsorted : StronglySorted date_le txs).





End replay.

(** *** Rounding to two decimal places *)

Lemma math_round_bounds (y : Qc) :
  Qc_of_Z (math_round y) ≤ y + dec 1 2 ∧ y + dec 1 2 < Qc_of_Z (math_round y) + 1.
Proof.
  unfold math_round.
  assert (this (y + dec 1 2) == this y + this (dec 1 2))%Q as Hsum.
  { unfold Qcplus, Q2Qc. cbn [this]. apply Qred_correct. }
  split.
  - unfold Qcle. rewrite Hsum. apply Qfloor_le.
  - unfold Qclt. rewrite Hsum.
    assert (this (Qc_of_Z (Qfloor (this y + this (dec 1 2))) + 1)
            == inject_Z (Qfloor (this y + this (dec 1 2)) + 1))%Q as ->.
    { unfold Qcplus, Q2Qc. cbn [this]. rewrite Qred_correct. cbn [this Qc_of_Z].
      rewrite inject_Z_plus. reflexivity. }
    apply Qlt_floor.
Qed.

Lemma round2_spec (x : Qc) :
  round2 x = Qc_of_Z (math_round (x * dec 100 1)) * dec 1 100
  ∧ x - dec 1 200 < round2 x ∧ round2 x ≤ x + dec 1 200.
Proof.
  assert (∀ a, a / dec 100 1 = a * dec 1 100) as Hdiv.
  { intros a. unfold Qcdiv. f_equal; try (apply Qc_is_canon; reflexivity). }
  assert (dec 100 1 * dec 1 100 = 1) as H1 by (apply Qc_is_canon; reflexivity).
  assert (dec 1 2 * dec 1 100 = dec 1 200) as H2 by (apply Qc_is_canon; reflexivity).
  assert (dec 1 100 = dec 1 200 + dec 1 200) as H3 by (apply Qc_is_canon; reflexivity).
  assert (0 < dec 1 100) as Hpos by reflexivity.
  unfold round2. rewrite Hdiv. split; [done|].
  destruct (math_round_bounds (x * dec 100 1)) as [Hle Hlt].
  set (N := Qc_of_Z (math_round (x * dec 100 1))) in *.
  split.
  - apply (Qcmult_lt_compat_r _ _ (dec 1 100) Hpos) in Hlt.
    replace ((x * dec 100 1 + dec 1 2) * dec 1 100) with (x + dec 1 200) in Hlt
      by (rewrite <-H2; transitivity (x * (dec 100 1 * dec 1 100) + dec 1 2 * dec 1 100); [rewrite H1|]; ring).
    replace ((N + 1) * dec 1 100) with (N * dec 1 100 + (dec 1 200 + dec 1 200)) in Hlt
      by (rewrite <-H3; ring).
    apply Qclt_minus_iff. apply Qclt_minus_iff in Hlt.
    replace (N * dec 1 100 + - (x - dec 1 200)) with (N * dec 1 100 + (dec 1 200 + dec 1 200) + - (x + dec 1 200)) by ring.
    done.
  - apply (Qcmult_le_compat_r _ _ (dec 1 100)) in Hle; [|by apply Qclt_le_weak].
    replace ((x * dec 100 1 + dec 1 2) * dec 1 100) with (x + dec 1 200) in Hle
      by (rewrite <-H2; transitivity (x * (dec 100 1 * dec 1 100) + dec 1 2 * dec 1 100); [rewrite H1|]; ring).
    done.
Qed.


(** [priced] leaves no choice: a series has one price at a date. *)
Lemma priced_functional (series : gmap string Qc) (d : string) (p q : Qc) :
  priced series d p → priced series d q → p = q.
Proof.
  unfold priced. destruct (series !! d) as [price|]; [congruence|].
  intros [(d0 & H0 & Hle0 & Hs0 & Hmax0)|[Hnone0 ->]]
         [(d1 & H1 & Hle1 & Hs1 & Hmax1)|[Hnone1 ->]].
  - assert (d0 = d1) as ->.
    { apply (anti_symm str_le); [apply Hmax1|apply Hmax0]; by eauto. }
    congruence.
  - rewrite Hnone1 in Hs0 by done. done.
  - rewrite Hnone0 in Hs1 by done. done.
  - done.
Qed.











(** The route hands the replay a date-ordered ledger and ascending dates. *)
Lemma portfolio_history_replays getYahooFinance cal db account_id period points :
  portfolio_history getYahooFinance cal db account_id period = Json 200 points →
  points = []
  ∨ ∃ priceHistories sortedDates,
      StronglySorted date_le (select_transactions (transactions db) account_id)
      ∧ StronglySorted str_le sortedDates
      ∧ points = portfolioHistory
                   (replay (select_transactions (transactions db) account_id)
                      priceHistories sortedDates).
Proof.
  unfold portfolio_history. destruct (period_days period) as [days|]; [|done].
  destruct (select_transactions (transactions db) account_id) as [|t0 txs] eqn:Etx;
    [intros [= <-]; by left|].
  rewrite <-Etx.
  destruct (active_symbols _) as [|s0 syms]; [intros [= <-]; by left|].
  destruct getYahooFinance as [yf|m]; [|done].
  match goal with
  | |- context [merge_sort str_le ?l] =>
      pose proof (StronglySorted_merge_sort str_le l) as Hds;
      destruct (merge_sort str_le l) as [|d0 ds] eqn:Eds
  end; [intros [= <-]; by left|].
  intros [= <-]. right. do 2 eexists. split; [|split; [exact Hds|done]].
  unfold select_transactions. apply StronglySorted_merge_sort; apply _.
Qed.

(** *** Dividend, interest and fee rows *)

(** The aggregator reads neither quantity nor cost from a row that is not
    an acquisition or a disposal. *)
Lemma aggregator_ignores_income (s : string) (a : Z) (l1 l2 : list Transaction) t :
  acquiring (tx_kind t) = false → disposing (tx_kind t) = false →
  spec_quantity s a (l1 ++ t :: l2) = spec_quantity s a (l1 ++ l2)
  ∧ spec_avg_cost s a (l1 ++ t :: l2) = spec_avg_cost s a (l1 ++ l2).
Proof.
  intros Ha Hd. unfold spec_quantity, spec_avg_cost, pair_txs, acquired, disposed.
  rewrite !filter_app, !filter_cons.
  destruct (decide (tx_symbol t = s ∧ tx_account_id t = a)); [|done].
  rewrite !filter_cons_False by congruence. done.
Qed.

(** Interest and fee rows leave the replayed quantity of their symbol as it
    is (an absent symbol reads as 0). *)
Lemma apply_tx_interest_fee (m : gmap string Qc) tx s :
  tx_kind tx = interest ∨ tx_kind tx = fee →
  default 0%Qc (apply_tx m tx !! s) = default 0%Qc (m !! s).
Proof.
  intros Hk. unfold apply_tx.
  assert (adds_units (tx_kind tx) = false ∧ disposing (tx_kind tx) = false)
    as [-> ->] by (destruct Hk as [-> | ->]; done).
  destruct (m !! tx_symbol tx) as [q|] eqn:E.
  - destruct (decide (q = 0%Qc)) as [->|]; [|done].
    destruct (decide (tx_symbol tx = s)) as [<-|Hne].
    + by rewrite lookup_insert_eq, E.
    + by rewrite lookup_insert_ne.
  - destruct (decide (tx_symbol tx = s)) as [<-|Hne].
    + by rewrite lookup_insert_eq, E.
    + by rewrite lookup_insert_ne.
Qed.

(** A dividend row adds its quantity to the replayed units of its symbol. *)
Lemma apply_tx_dividend (m : gmap string Qc) tx :
  tx_kind tx = dividend →
  apply_tx m tx !! tx_symbol tx
  = Some (default 0%Qc (m !! tx_symbol tx) + tx_quantity tx)%Qc.
Proof.
  intros Hk. unfold apply_tx. rewrite Hk. cbn [adds_units].
  destruct (m !! tx_symbol tx) as [q|] eqn:E.
  - destruct (decide (q = 0%Qc)) as [->|].
    + by rewrite lookup_alter_eq, lookup_insert_eq.
    + by rewrite lookup_alter_eq, E.
  - by rewrite lookup_alter_eq, lookup_insert_eq.
Qed.

(** C6, the code at a ledger with a dividend.  In the Holdings Aggregator a
    dividend, interest or fee row changes neither quantity nor average cost,
    and in the replay an interest or fee row leaves every running quantity
    as it is; but the replay adds the quantity of a dividend row like that
    of a buy.  For 10 AAPL bought and a dividend row of quantity 12.5 the
    aggregator reports 10 AAPL and the replay ends with 22.5 running
    units. *)
Theorem replay_counts_dividend_as_units :
  (∀ s a l1 l2 t,
     tx_kind t = dividend ∨ tx_kind t = interest ∨ tx_kind t = fee →
     spec_quantity s a (l1 ++ t :: l2) = spec_quantity s a (l1 ++ l2)
     ∧ spec_avg_cost s a (l1 ++ t :: l2) = spec_avg_cost s a (l1 ++ l2))
  ∧ (∀ (m : gmap string Qc) tx s,
       tx_kind tx = interest ∨ tx_kind tx = fee →
       default 0%Qc (apply_tx m tx !! s) = default 0%Qc (m !! s))
  ∧ (∀ (m : gmap string Qc) tx,
       tx_kind tx = dividend →
       apply_tx m tx !! tx_symbol tx
       = Some (default 0%Qc (m !! tx_symbol tx) + tx_quantity tx)%Qc)
  ∧ (λ h, (h_symbol h, this (h_quantity h)))
      <$> holdings_query sample_history_txs sample_accounts
    = [("AAPL", 10 # 1)%Q]
  ∧ this <$> (runningHoldings
                (replay sample_history_txs sample_series sample_dates) !! "AAPL")
    = Some (45 # 2)%Q.
Proof.
  split; [|split; [|split; [exact apply_tx_dividend|]]].
  - intros s a l1 l2 t Hk. apply aggregator_ignores_income;
      destruct Hk as [-> | [-> | ->]]; done.
  - exact apply_tx_interest_fee.
  - split; vm_compute; reflexivity.
Qed.

(** ** Currency Converter *)

Lemma load_rates_fold (rows : list CurrencyRate) (rates : gmap string Qc) key :
  (∀ r, r ∈ rows → rate_key (cr_from_currency r) (cr_to_currency r) ≠ key) →
  foldl (λ rates r,
           <[rate_key (cr_from_currency r) (cr_to_currency r) := cr_rate r]> rates)
        rates rows !! key
  = rates !! key.
Proof.
  revert rates. induction rows as [|r rows IH]; intros rates Hno; [done|].
  cbn [foldl]. rewrite IH.
  - rewrite lookup_insert_ne; [done|]. apply Hno. by left.
  - intros r' Hr'. apply Hno. by right.
Qed.

Lemma rate_or_1_missing (rows : list CurrencyRate) (A B : string) :
  (∀ r, r ∈ rows → rate_key (cr_from_currency r) (cr_to_currency r) ≠ rate_key A B) →
  rate_or_1 (load_rates rows) (rate_key A B) = 1%Qc.
Proof.
  intros Hno. unfold rate_or_1, load_rates.
  by rewrite load_rates_fold, lookup_empty.
Qed.

Lemma truthy_Some (v : string) : v ≠ "" → truthy (Some v) = Some v.
Proof. intros Hv. unfold truthy. by rewrite decide_False. Qed.

(** C7, as the code has it.  In the valuations of the dashboard summary and
    of the daily snapshot a currency pair A→B with no rate stored under its
    key gets multiplier 1 and the amount stays as it is, and when the
    currency already is the base currency the amount stays as it is whatever
    the rate table holds.  GET /convert answers the parsed amount with rate 1
    and without a rate lookup when from and to agree up to case, and answers
    404 with an error, after one lookup, when they differ and no rate is
    stored for the pair. *)
Theorem conversion_policy (parseFloat : string → Qc) (rows : list CurrencyRate) :
  (∀ prices baseCurrency h,
     str_or (price_data prices h).2 "USD" ≠ baseCurrency →
     (∀ r, r ∈ rows →
           rate_key (cr_from_currency r) (cr_to_currency r)
           ≠ rate_key (str_or (price_data prices h).2 "USD") baseCurrency) →
     market_value prices (load_rates rows) baseCurrency h
     = (h_quantity h * (price_data prices h).1)%Qc)
  ∧ (∀ baseCurrency h,
       h_account_currency h ≠ baseCurrency →
       (∀ r, r ∈ rows →
             rate_key (cr_from_currency r) (cr_to_currency r)
             ≠ rate_key (h_account_currency h) baseCurrency) →
       cost_basis (load_rates rows) baseCurrency h
       = (h_quantity h * opt_num_or (h_avg_cost h) 0)%Qc)
  ∧ (∀ prices rates h,
       market_value prices rates (str_or (price_data prices h).2 "USD") h
       = (h_quantity h * (price_data prices h).1)%Qc)
  ∧ (∀ rates h,
       cost_basis rates (h_account_currency h) h
       = (h_quantity h * opt_num_or (h_avg_cost h) 0)%Qc)
  ∧ (∀ from to amount,
       from ≠ "" → to ≠ "" → amount ≠ "" →
       toUpperCase from = toUpperCase to →
       get_convert parseFloat rows
         {| q_from := Some from; q_to := Some to; q_amount := Some amount |}
       = (Json 200 {| cj_result := parseFloat amount; cj_rate := 1 |}, []))
  ∧ (∀ from to amount,
       from ≠ "" → to ≠ "" → amount ≠ "" →
       toUpperCase from ≠ toUpperCase to →
       select_rate rows (toUpperCase from) (toUpperCase to) = None →
       get_convert parseFloat rows
         {| q_from := Some from; q_to := Some to; q_amount := Some amount |}
       = (ErrorJson 404 ("No rate found for " +:+ from +:+ " to " +:+ to),
          [(toUpperCase from, toUpperCase to)])).
Proof.
  split; [|split; [|split; [|split; [|split]]]].
  - intros prices baseCurrency h Hne Hno. unfold market_value.
    rewrite decide_True by done. rewrite rate_or_1_missing by done. ring.
  - intros baseCurrency h Hne Hno. unfold cost_basis.
    case_decide; [|done]. rewrite rate_or_1_missing by done. ring.
  - intros prices rates h. unfold market_value. by rewrite decide_False by auto.
  - intros rates h. unfold cost_basis. rewrite decide_False; [done|]. tauto.
  - intros from to amount Hf Ht Ha Heq. unfold get_convert. cbn [q_from q_to q_amount].
    rewrite !truthy_Some by done. by rewrite decide_True.
  - intros from to amount Hf Ht Ha Hne Hnone. unfold get_convert.
    cbn [q_from q_to q_amount]. rewrite !truthy_Some by done.
    rewrite decide_False by done. by rewrite Hnone.
Qed.

Lemma conversion_policy_witness :
  market_value gift_prices
    (load_rates [ {| cr_from_currency := "USD"; cr_to_currency := "EUR";
                     cr_rate := dec 92 100 |} ]) "GBP" gift_holding
  = (h_quantity gift_holding * (price_data gift_prices gift_holding).1)%Qc
  ∧ get_convert (λ _, dec 100 1)
      [ {| cr_from_currency := "USD"; cr_to_currency := "EUR";
           cr_rate := dec 92 100 |} ]
      {| q_from := Some "eur"; q_to := Some "EUR"; q_amount := Some "100" |}
    = (Json 200 {| cj_result := dec 100 1; cj_rate := 1 |}, [])
  ∧ get_convert (λ _, dec 100 1)
      [ {| cr_from_currency := "USD"; cr_to_currency := "EUR";
           cr_rate := dec 92 100 |} ]
      {| q_from := Some "EUR"; q_to := Some "USD"; q_amount := Some "100" |}
    = (ErrorJson 404 "No rate found for EUR to USD", [("EUR", "USD")]).
Proof.
  destruct (conversion_policy (λ _, dec 100 1)
              [ {| cr_from_currency := "USD"; cr_to_currency := "EUR";
                   cr_rate := dec 92 100 |} ])
    as (Hvalue & _ & _ & _ & Hsame & Hmissing).
  split; [|split].
  - apply Hvalue; [done|].
    intros r Hr. apply list_elem_of_singleton in Hr as ->. done.
  - apply Hsame; done.
  - apply Hmissing; done.
Defined.

(** C7 as stated fails on GET /convert: with no rate stored for USD→EUR the
    route answers 404 with an error instead of the amount unchanged. *)
Lemma convert_missing_rate_is_error :
  get_convert (λ _, dec 100 1) []
    {| q_from := Some "USD"; q_to := Some "EUR"; q_amount := Some "100" |}
  = (ErrorJson 404 "No rate found for USD to EUR", [("USD", "EUR")]).
Proof. reflexivity. Qed.

(** ** Import Pipeline: deduplication *)




Section import_loop.
Context (accountId : Z).



End import_loop.




(** ** The price cache across requests *)

Lemma upsert_price_row clk d cache :
  upsert_price clk d cache = <[qd_symbol d := cache_row clk d]> cache.
Proof. reflexivity. Qed.

Lemma select_fresh_row clk clk' (cache : gmap string PriceCache) s d :
  String.ltb (minus_5_minutes clk') (current_timestamp clk) = true →
  cache !! s = Some (cache_row clk d) →
  select_fresh clk' cache s = Some (cache_row clk d).
Proof. intros Hlt Hs. unfold select_fresh. rewrite Hs. simpl. by rewrite Hlt. Qed.

Lemma get_quote_hit gyf clk (cache : gmap string PriceCache) param e :
  select_fresh clk cache (toUpperCase param) = Some e →
  get_quote gyf clk cache param
  = (Json 200 (JCached e), {| fx_cache := cache; fx_fetched := [] |}).
Proof. intros H. unfold get_quote. by rewrite H. Qed.

(** X1. A quote fetched by GET /quote/:symbol is served from the cache by
    every later request for the same symbol, in any letter case, whose
    five-minute window still contains the time of that fetch: the later
    request answers with the stored row and asks no provider, whatever the
    provider would say then. *)
Theorem quote_cached_after_fetch
    (gyf gyf' : outcome YahooFinance) (clk clk' : Clock)
    (cache : gmap string PriceCache) (param param' : string) (quote : YahooQuote) :
  select_fresh clk cache (toUpperCase param) = None →
  fetch_quote gyf (toUpperCase param) = Resolved quote →
  String.ltb (minus_5_minutes clk') (current_timestamp clk) = true →
  toUpperCase param' = toUpperCase param →
  get_quote gyf' clk' (fx_cache (get_quote gyf clk cache param).2) param'
  = (Json 200 (JCached (cache_row clk (quote_data (toUpperCase param) quote))),
     {| fx_cache := fx_cache (get_quote gyf clk cache param).2;
        fx_fetched := [] |}).
Proof.
  intros Hmiss Hq Hlt Hp. apply get_quote_hit. rewrite Hp.
  apply select_fresh_row; [done|].
  unfold get_quote. rewrite Hmiss. unfold fetch_quote in Hq.
  destruct gyf as [yf|m]; [|done]. rewrite Hq. simpl.
  rewrite upsert_price_row. simpl. by rewrite lookup_insert_eq.
Qed.

Lemma quote_cached_after_fetch_witness :
  get_quote (Thrown "offline")
    {| current_timestamp := "2024-03-10 12:03:00";
       minus_5_minutes := "2024-03-10 11:58:00";
       iso_now := "2024-03-10T12:03:00.000Z"; today := "2024-03-10" |}
    (fx_cache (get_quote (Resolved sample_provider) sample_clock stale_cache "aapl").2)
    "Aapl"
  = (Json 200 (JCached (cache_row sample_clock
                          (quote_data "AAPL" (sample_quote (dec 200 1))))),
     {| fx_cache :=
          fx_cache (get_quote (Resolved sample_provider) sample_clock
                      stale_cache "aapl").2;
        fx_fetched := [] |}).
Proof.
  apply (quote_cached_after_fetch (Resolved sample_provider) (Thrown "offline")
           sample_clock _ stale_cache "aapl" "Aapl" (sample_quote (dec 200 1)));
    reflexivity.
Defined.

Section fetch_loop.
Context (yf : YahooFinance) (clk : Clock).

Lemma fetch_fold_cache (toFetch : list string) acc :
  let out := foldl (fetch_one yf clk) acc toFetch in
  (∀ s q, s ∈ toFetch → yf_quote yf s = Resolved q →
          fx_cache out.2 !! s = Some (cache_row clk (quote_data s q)))
  ∧ (∀ s, (s ∉ toFetch ∨ ∃ m, yf_quote yf s = Thrown m) →
          fx_cache out.2 !! s = fx_cache acc.2 !! s)
  ∧ fx_fetched out.2 = fx_fetched acc.2 ++ toFetch.
Proof.
  revert acc. induction toFetch as [|x l IH]; intros acc; simpl.
  - split; [|split; [done|by rewrite app_nil_r]].
    intros s q Hin. by apply elem_of_nil in Hin.
  - destruct (IH (fetch_one yf clk acc x)) as (H1 & H2 & H3).
    assert (∀ s, (s ≠ x ∨ ∃ m, yf_quote yf s = Thrown m) →
                 fx_cache (fetch_one yf clk acc x).2 !! s = fx_cache acc.2 !! s)
      as Hframe.
    { intros s Hs. unfold fetch_one.
      destruct (yf_quote yf x) as [q|m] eqn:E; simpl; [|done].
      rewrite upsert_price_row. simpl. rewrite lookup_insert_ne; [done|].
      intros ->. destruct Hs as [?|[m Hm]]; congruence. }
    split; [|split].
    + intros s q Hin Hq. destruct (decide (s ∈ l)) as [?|Hn]; [by eapply H1|].
      apply elem_of_cons in Hin as [->|?]; [|done].
      rewrite H2 by (by left). unfold fetch_one. rewrite Hq. simpl.
      rewrite upsert_price_row. simpl. by rewrite lookup_insert_eq.
    + intros s Hs. rewrite H2, Hframe; [done| |].
      * destruct Hs as [Hn|?]; [|by right].
        apply not_elem_of_cons in Hn as [? ?]. by left.
      * destruct Hs as [Hn|?]; [|by right].
        apply not_elem_of_cons in Hn as [? ?]. by left.
    + rewrite H3. unfold fetch_one.
      destruct (yf_quote yf x); simpl; by rewrite <- app_assoc.
Qed.

Lemma resolve_fold_cache (cache : gmap string PriceCache)
    (symbols : list string) acc :
  NoDup symbols →
  (∀ s, s ∈ symbols → fx_cache acc.2 !! s = cache !! s) →
  let out := foldl (resolve_one yf clk) acc symbols in
  (∀ s q, s ∈ symbols → needs_fetch clk cache s → yf_quote yf s = Resolved q →
          fx_cache out.2 !! s = Some (cache_row clk (quote_data s q)))
  ∧ (∀ s, (s ∉ symbols ∨ ¬ needs_fetch clk cache s ∨ ∃ m, yf_quote yf s = Thrown m) →
          fx_cache out.2 !! s = fx_cache acc.2 !! s)
  ∧ fx_fetched out.2 = fx_fetched acc.2 ++ filter (needs_fetch clk cache) symbols.
Proof.
  revert acc. induction symbols as [|x l IH]; intros acc Hnd Hc; simpl.
  - split; [|split; [done|by rewrite app_nil_r]].
    intros s q Hin. by apply elem_of_nil in Hin.
  - apply list.NoDup_cons in Hnd as [Hx Hnd].
    assert (select_fresh clk (fx_cache acc.2) x = select_fresh clk cache x) as Hsel.
    { apply select_fresh_ext, Hc. by left. }
    destruct (IH (resolve_one yf clk acc x) Hnd) as (H1 & H2 & H3).
    { intros s Hs. destruct (resolve_one_other yf clk acc x s) as [_ ->].
      - intros ->. done.
      - apply Hc. by right. }
    assert (∀ s, (s ≠ x ∨ ¬ needs_fetch clk cache s ∨ ∃ m, yf_quote yf s = Thrown m) →
                 fx_cache (resolve_one yf clk acc x).2 !! s = fx_cache acc.2 !! s)
      as Hframe.
    { intros s Hs. destruct (decide (s = x)) as [->|Hne];
        [|by apply resolve_one_other].
      unfold resolve_one. rewrite Hsel. unfold needs_fetch in Hs.
      destruct (select_fresh clk cache x) eqn:E; simpl; [done|].
      destruct (yf_quote yf x) eqn:E'; simpl; [|done].
      destruct Hs as [?|[?|[m ?]]]; done. }
    split; [|split].
    + intros s q Hin Hs Hq. apply elem_of_cons in Hin as [->|Hin];
        [|by eapply H1].
      rewrite H2 by (by left). unfold resolve_one. rewrite Hsel.
      unfold needs_fetch in Hs. rewrite Hs, Hq. simpl.
      rewrite upsert_price_row. simpl. by rewrite lookup_insert_eq.
    + intros s Hs. rewrite H2, Hframe; [done| |].
      * destruct Hs as [Hn|?]; [|by right].
        apply not_elem_of_cons in Hn as [? ?]. by left.
      * destruct Hs as [Hn|?]; [|by right].
        apply not_elem_of_cons in Hn as [? ?]. by left.
    + rewrite H3. unfold resolve_one. rewrite Hsel.
      destruct (decide (needs_fetch clk cache x)) as [Hn|Hn].
      * rewrite filter_cons_True by done. unfold needs_fetch in Hn. rewrite Hn.
        destruct (yf_quote yf x); simpl; by rewrite <- app_assoc.
      * rewrite filter_cons_False by done. unfold needs_fetch in Hn.
        by destruct (select_fresh clk cache x).
Qed.
End fetch_loop.

Lemma check_cache_to_fetch clk (cache : gmap string PriceCache)
    (symbols : list string) acc :
  (foldl (check_cache clk cache) acc symbols).2
  = acc.2 ++ filter (needs_fetch clk cache) (toUpperCase <$> symbols).
Proof.
  revert acc. induction symbols as [|sym l IH]; intros acc; cbn [foldl].
  - by rewrite app_nil_r.
  - rewrite IH. unfold check_cache. rewrite fmap_cons.
    destruct (decide (needs_fetch clk cache (toUpperCase sym))) as [Hn|Hn].
    + rewrite filter_cons_True by done. unfold needs_fetch in Hn. rewrite Hn.
      simpl. by rewrite <- app_assoc.
    + rewrite filter_cons_False by done. unfold needs_fetch in Hn.
      by destruct (select_fresh clk cache (toUpperCase sym)).
Qed.

Lemma post_quotes_effects gyf clk (cache : gmap string PriceCache)
    (symbols : list string) :
  (post_quotes gyf clk cache (Some symbols)).2
  = match gyf with
    | Resolved yf =>
        (foldl (fetch_one yf clk)
           ((foldl (check_cache clk cache) (∅, []) symbols).1,
            {| fx_cache := cache; fx_fetched := [] |})
           (filter (needs_fetch clk cache) (toUpperCase <$> symbols))).2
    | Thrown _ => {| fx_cache := cache; fx_fetched := [] |}
    end.
Proof.
  unfold post_quotes.
  pose proof (check_cache_to_fetch clk cache symbols (∅, [])) as Hto.
  destruct (foldl (check_cache clk cache) (∅, []) symbols) as [results toFetch].
  simpl in Hto. subst toFetch.
  destruct (filter (needs_fetch clk cache) (toUpperCase <$> symbols)) as [|x l];
    [by destruct gyf|].
  destruct gyf as [yf|m]; [|done].
  by destruct (foldl (fetch_one yf clk) _ (x :: l)).
Qed.

Lemma dashboard_summary_effects gyf clk (db : Db) :
  (dashboard_summary gyf clk db).2
  = match gyf with
    | Resolved yf =>
        (foldl (resolve_one yf clk)
           (∅, {| fx_cache := price_cache db; fx_fetched := [] |})
           (js_set (h_symbol <$> holdings_query (transactions db) (db_accounts db)))).2
    | Thrown _ => {| fx_cache := price_cache db; fx_fetched := [] |}
    end.
Proof.
  unfold dashboard_summary.
  destruct (js_set (h_symbol <$> holdings_query (transactions db) (db_accounts db)))
    as [|x l]; [by destruct gyf|].
  destruct gyf as [yf|m]; [|done].
  by destruct (foldl (resolve_one yf clk) _ (x :: l)).
Qed.

(** X2. A quote fetched by POST /quotes is served from the cache by a later
    GET /quote/:symbol: for every requested symbol that the batch had to
    fetch and whose quote call resolved, a request made while the
    five-minute window still contains the time of the batch answers with the
    row the batch stored and asks no provider. *)
Theorem batch_warms_cache
    (yf : YahooFinance) (gyf' : outcome YahooFinance) (clk clk' : Clock)
    (cache : gmap string PriceCache) (symbols : list string)
    (param : string) (quote : YahooQuote) :
  toUpperCase param ∈ toUpperCase <$> symbols →
  needs_fetch clk cache (toUpperCase param) →
  yf_quote yf (toUpperCase param) = Resolved quote →
  String.ltb (minus_5_minutes clk') (current_timestamp clk) = true →
  get_quote gyf' clk'
    (fx_cache (post_quotes (Resolved yf) clk cache (Some symbols)).2) param
  = (Json 200 (JCached (cache_row clk (quote_data (toUpperCase param) quote))),
     {| fx_cache := fx_cache (post_quotes (Resolved yf) clk cache (Some symbols)).2;
        fx_fetched := [] |}).
Proof.
  intros Hin Hn Hq Hlt. apply get_quote_hit, select_fresh_row; [done|].
  rewrite post_quotes_effects.
  apply fetch_fold_cache; [|done]. by apply list_elem_of_filter.
Qed.

Lemma batch_warms_cache_witness :
  get_quote (Thrown "offline")
    {| current_timestamp := "2024-03-10 12:03:00";
       minus_5_minutes := "2024-03-10 11:58:00";
       iso_now := "2024-03-10T12:03:00.000Z"; today := "2024-03-10" |}
    (fx_cache (post_quotes (Resolved sample_provider) sample_clock stale_cache
                 (Some ["msft"; "aapl"])).2) "aapl"
  = (Json 200 (JCached (cache_row sample_clock
                          (quote_data "AAPL" (sample_quote (dec 200 1))))),
     {| fx_cache :=
          fx_cache (post_quotes (Resolved sample_provider) sample_clock stale_cache
                      (Some ["msft"; "aapl"])).2;
        fx_fetched := [] |}).
Proof.
  apply (batch_warms_cache sample_provider (Thrown "offline") sample_clock _
           stale_cache ["msft"; "aapl"] "aapl" (sample_quote (dec 200 1))).
  - apply elem_of_cons. right. apply elem_of_cons. by left.
  - reflexivity.
  - reflexivity.
  - reflexivity.
Defined.

(** X3. No quote route ever removes or rewrites a cache row except by
    storing a quote it has just fetched: after GET /quote/:symbol, after
    POST /quotes and after GET /dashboard/summary every key of the price
    cache has the entry it had before the request, or the row of a quote
    that this request fetched for that key, stamped with the time of the
    request. *)
Theorem quote_routes_keep_cache
    (gyf : outcome YahooFinance) (clk : Clock) (cache : gmap string PriceCache)
    (param : string) (body : option (list string)) (db : Db) :
  cache_step clk cache (get_quote gyf clk cache param).2
  ∧ cache_step clk cache (post_quotes gyf clk cache body).2
  ∧ cache_step clk (price_cache db) (dashboard_summary gyf clk db).2.
Proof.
  split; [|split].
  - intros s. unfold get_quote.
    destruct (select_fresh clk cache (toUpperCase param)); [by left|].
    destruct gyf as [yf|m].
    + destruct (yf_quote yf (toUpperCase param)) as [q|m] eqn:E.
      * simpl. rewrite upsert_price_row. simpl.
        destruct (decide (s = toUpperCase param)) as [->|Hne].
        -- right. split; [apply elem_of_cons; by left|].
           eexists. split; [|by rewrite lookup_insert_eq]. done.
        -- left. by rewrite lookup_insert_ne.
      * left. by destruct (cache !! toUpperCase param).
    + left. by destruct (cache !! toUpperCase param).
  - destruct body as [symbols|]; [|by left].
    rewrite post_quotes_effects. destruct gyf as [yf|m]; [|by left].
    intros s.
    set (acc := ((foldl (check_cache clk cache) (∅, []) symbols).1,
                 {| fx_cache := cache; fx_fetched := [] |})).
    destruct (fetch_fold_cache yf clk
                (filter (needs_fetch clk cache) (toUpperCase <$> symbols)) acc)
      as (H1 & H2 & H3).
    destruct (decide (s ∈ filter (needs_fetch clk cache) (toUpperCase <$> symbols)))
      as [Hin|Hn]; [|left; apply H2; by left].
    destruct (yf_quote yf s) as [q|m] eqn:E; [|left; apply H2; right; by exists m].
    right. rewrite H3. split; [done|].
    exists (quote_data s q). split; [done|]. by apply H1.
  - rewrite dashboard_summary_effects. destruct gyf as [yf|m]; [|by left].
    intros s.
    set (symbols := js_set (h_symbol <$> holdings_query (transactions db)
                                          (db_accounts db))).
    set (acc := (∅ : gmap string PriceCache,
                 {| fx_cache := price_cache db; fx_fetched := [] |})).
    destruct (resolve_fold_cache yf clk (price_cache db) symbols acc)
      as (H1 & H2 & H3); [apply NoDup_js_set|done|].
    destruct (decide (s ∈ symbols)) as [Hin|Hn]; [|left; apply H2; by left].
    destruct (decide (needs_fetch clk (price_cache db) s)) as [Hf|Hf];
      [|left; apply H2; right; by left].
    destruct (yf_quote yf s) as [q|m] eqn:E;
      [|left; apply H2; right; right; by exists m].
    right. rewrite H3. split; [by apply list_elem_of_filter|].
    exists (quote_data s q). split; [done|]. by eapply H1.
Qed.

(** X4. POST /quotes asks the provider for exactly the requested symbols
    that have no cache row newer than five minutes, upper-cased, in the
    order of the request and once per occurrence; it asks for nothing when
    the provider client cannot be obtained or when the body has no symbols
    array. *)
Theorem batch_fetch_log
    (gyf : outcome YahooFinance) (clk : Clock) (cache : gmap string PriceCache)
    (symbols : list string) :
  fx_fetched (post_quotes gyf clk cache (Some symbols)).2
  = match gyf with
    | Resolved _ => filter (needs_fetch clk cache) (toUpperCase <$> symbols)
    | Thrown _ => []
    end
  ∧ fx_fetched (post_quotes gyf clk cache None).2 = [].
Proof.
  split; [|done]. rewrite post_quotes_effects. destruct gyf as [yf|m]; [|done].
  by destruct (fetch_fold_cache yf clk
                 (filter (needs_fetch clk cache) (toUpperCase <$> symbols))
                 ((foldl (check_cache clk cache) (∅, []) symbols).1,
                  {| fx_cache := cache; fx_fetched := [] |})) as (_ & _ & ->).
Qed.


(** ** Letter case *)

Lemma upper_ascii_idemp c : upper_ascii (upper_ascii c) = upper_ascii c.
Proof. by destruct c as [[] [] [] [] [] [] [] []]. Qed.

Lemma toUpperCase_idemp s : toUpperCase (toUpperCase s) = toUpperCase s.
Proof. induction s as [|c s IH]; simpl; [done|]. by rewrite upper_ascii_idemp, IH. Qed.

Lemma toUpperCase_empty s : toUpperCase s = "" ↔ s = "".
Proof. by destruct s. Qed.

(** X6. The quote routes do not see the letter case of a requested symbol:
    upper-casing is idempotent, so a request for the upper-cased symbol
    (or list of symbols) gets the same answer and has the same effects as
    the request as typed. *)
Theorem quote_routes_ignore_case
    (gyf : outcome YahooFinance) (clk : Clock) (cache : gmap string PriceCache)
    (param : string) (symbols : list string) :
  get_quote gyf clk cache (toUpperCase param) = get_quote gyf clk cache param
  ∧ post_quotes gyf clk cache (Some (toUpperCase <$> symbols))
    = post_quotes gyf clk cache (Some symbols).
Proof.
  split.
  - unfold get_quote. by rewrite toUpperCase_idemp.
  - unfold post_quotes.
    assert (∀ acc, foldl (check_cache clk cache) acc (toUpperCase <$> symbols)
                   = foldl (check_cache clk cache) acc symbols) as ->; [|done].
    induction symbols as [|x l IH]; intros acc; [done|].
    rewrite fmap_cons. cbn [foldl]. rewrite IH. f_equal.
    unfold check_cache. by rewrite toUpperCase_idemp.
Qed.

(** ** Holdings: one row per pair *)

Lemma NoDup_omap_key {K B : Type} (f : K → option B) (key : B → K) (l : list K) :
  (∀ k b, f k = Some b → key b = k) →
  NoDup l → NoDup (key <$> omap f l).
Proof.
  intros Hkey. induction 1 as [|k l Hk Hnd IH]; [apply NoDup_nil_2|].
  cbn [omap list_omap]. destruct (f k) as [b|] eqn:E; [|done].
  rewrite fmap_cons. apply list.NoDup_cons. split; [|done].
  intros Hin. apply list_elem_of_fmap in Hin as (b' & Hb & Hin).
  apply list_elem_of_omap in Hin as (k' & Hk' & Hf).
  apply Hkey in E. apply Hkey in Hf. congruence.
Qed.

Lemma holding_of_group_key k (rows : list (Transaction * (Z * Account))) h :
  holding_of_group (group_rows k rows) = Some h →
  (h_symbol h, h_account_id h) = k
  ∧ ∃ r, r ∈ rows ∧ row_key r = k
         ∧ h_account_name h = acc_name r.2.2
         ∧ h_account_currency h = acc_currency r.2.2.
Proof.
  unfold holding_of_group. destruct (group_rows k rows) as [|r g] eqn:E; [done|].
  apply group_rows_head in E as [Hk Hin].
  case_decide; [|done]. intros [= <-]. simpl. split; [done|]. by exists r.
Qed.

(** X7. The holdings query reports each (symbol, account) pair at most
    once, only pairs that have a transaction in the ledger, and each row
    carries the name and the currency of the account row it was joined
    with. *)
Theorem holdings_one_row_per_pair (txs : list Transaction) (accs : gmap Z Account) :
  NoDup ((λ h, (h_symbol h, h_account_id h)) <$> holdings_query txs accs)
  ∧ ∀ h, h ∈ holdings_query txs accs →
      ∃ t a, t ∈ txs ∧ tx_symbol t = h_symbol h ∧ tx_account_id t = h_account_id h
             ∧ accs !! h_account_id h = Some a
             ∧ h_account_name h = acc_name a
             ∧ h_account_currency h = acc_currency a.
Proof.
  split.
  - unfold holdings_query. apply NoDup_omap_key;
      [|rewrite merge_sort_Permutation; apply NoDup_remove_dups].
    intros k h Hh. by apply holding_of_group_key in Hh as [? _].
  - intros h Hh. apply elem_of_holdings_query in Hh as (k & _ & Hg).
    apply holding_of_group_key in Hg as (Hk & r & Hr & Hrk & Hn & Hc).
    apply elem_of_joined in Hr as (Ht & Hid & Ha).
    unfold row_key in Hrk. subst k. injection Hrk as Hs Hi.
    exists r.1, r.2.2. rewrite <- Hid, Hi in *. by rewrite Hs.
Qed.

(** ** The per-account breakdown of the valuations *)

Lemma sum_qc_snoc (l : list Qc) (x : Qc) : sum_qc (l ++ [x]) = (sum_qc l + x)%Qc.
Proof.
  induction l as [|y l IH]; unfold sum_qc in *; cbn [foldr app].
  - ring.
  - rewrite IH. ring.
Qed.

Lemma account_holdings_snoc i (l : list HoldingRow) x :
  account_holdings i (l ++ [x])
  = if decide (h_account_id x = i) then account_holdings i l ++ [x]
    else account_holdings i l.
Proof.
  unfold account_holdings. rewrite filter_app. case_decide.
  - by rewrite filter_cons_True.
  - rewrite filter_cons_False by done. by rewrite filter_nil, app_nil_r.
Qed.

Section breakdown.
Context (prices : gmap string PriceCache) (rates : gmap string Qc)
        (baseCurrency : string).

Lemma add_holding_lookup_ne acc h (i : Z) :
  h_account_id h ≠ i →
  accountSummaries (add_holding prices rates baseCurrency acc h) !! i
  = accountSummaries acc !! i.
Proof.
  intros Hne. unfold add_holding. cbn [accountSummaries].
  rewrite lookup_alter_ne by done.
  destruct (accountSummaries acc !! h_account_id h); [done|].
  by rewrite lookup_insert_ne.
Qed.

Lemma summaries_lookup (holdings : list HoldingRow) (i : Z) :
  accountSummaries
    (foldl (add_holding prices rates baseCurrency)
       {| accountSummaries := ∅; totalWealth := 0; totalCost := 0 |} holdings) !! i
  = account_summary_of prices rates baseCurrency holdings i.
Proof.
  induction holdings as [|x l IH] using rev_ind; [done|].
  rewrite foldl_app. cbn [foldl]. unfold account_summary_of.
  rewrite account_holdings_snoc. case_decide as Hx.
  - subst i. unfold account_summary_of in IH.
    set (t := foldl _ _ l) in *. unfold add_holding. cbn [accountSummaries].
    destruct (account_holdings (h_account_id x) l) as [|h g] eqn:F; rewrite IH.
    + rewrite lookup_alter_eq, lookup_insert_eq. cbn.
      do 2 f_equal; unfold sum_qc; cbn [foldr]; ring.
    + rewrite lookup_alter_eq, IH. cbn [fmap option_fmap option_map app].
      rewrite !fmap_cons, !fmap_app, !fmap_cons, !fmap_nil.
      do 2 f_equal.
      * change (?a :: ?l ++ [?b]) with ((a :: l) ++ [b]).
        by rewrite sum_qc_snoc.
      * change (?a :: ?l ++ [?b]) with ((a :: l) ++ [b]).
        by rewrite sum_qc_snoc.
      * cbn. rewrite length_app. cbn. lia.
  - rewrite add_holding_lookup_ne by done. exact IH.
Qed.

Lemma add_detail_lookup_ne acc h (i : Z) :
  h_account_id h ≠ i →
  accountDetails (add_detail prices rates baseCurrency acc h) !! i
  = accountDetails acc !! i.
Proof.
  intros Hne. unfold add_detail. cbn [accountDetails].
  rewrite lookup_alter_ne by done.
  destruct (accountDetails acc !! h_account_id h); [done|].
  by rewrite lookup_insert_ne.
Qed.

Lemma details_lookup (holdings : list HoldingRow) (i : Z) :
  accountDetails
    (foldl (add_detail prices rates baseCurrency)
       {| accountDetails := ∅; snapWealth := 0; snapCost := 0 |} holdings) !! i
  = account_detail_of prices rates baseCurrency holdings i.
Proof.
  induction holdings as [|x l IH] using rev_ind; [done|].
  rewrite foldl_app. cbn [foldl]. unfold account_detail_of.
  rewrite account_holdings_snoc. case_decide as Hx.
  - subst i. unfold account_detail_of in IH.
    set (t := foldl _ _ l) in *. unfold add_detail. cbn [accountDetails].
    destruct (account_holdings (h_account_id x) l) as [|h g] eqn:F; rewrite IH.
    + rewrite lookup_alter_eq, lookup_insert_eq. cbn.
      do 2 f_equal; unfold sum_qc; cbn [foldr]; ring.
    + rewrite lookup_alter_eq, IH. cbn [fmap option_fmap option_map app].
      rewrite !fmap_cons, !fmap_app, !fmap_cons, !fmap_nil.
      do 2 f_equal.
      * change (?a :: ?l ++ [?b]) with ((a :: l) ++ [b]).
        by rewrite sum_qc_snoc.
      * change (?a :: ?l ++ [?b]) with ((a :: l) ++ [b]).
        by rewrite sum_qc_snoc.
  - rewrite add_detail_lookup_ne by done. exact IH.
Qed.

Lemma add_holding_count acc h :
  sum_list (as_holdings_count <$> (map_to_list
     (accountSummaries (add_holding prices rates baseCurrency acc h))).*2)
  = S (sum_list (as_holdings_count <$> (map_to_list (accountSummaries acc)).*2)).
Proof.
  unfold add_holding. cbn [accountSummaries].
  set (bump := λ a : AccountSummary, _).
  assert (∀ (m : gmap Z AccountSummary) i a, m !! i = Some a →
            sum_list (as_holdings_count <$> (map_to_list (alter bump i m)).*2)
            = S (sum_list (as_holdings_count <$> (map_to_list m).*2))) as Halter.
  { intros m i a Hi.
    pose proof (map_to_list_delete m i a Hi) as Hp1.
    assert (alter bump i m !! i = Some (bump a)) as Hi'
      by (by rewrite lookup_alter_eq, Hi).
    pose proof (map_to_list_delete _ i _ Hi') as Hp2.
    rewrite <- Hp1, <- Hp2, delete_alter_eq. by rewrite !fmap_cons. }
  destruct (accountSummaries acc !! h_account_id h) as [a|] eqn:E.
  - by apply (Halter _ _ a).
  - erewrite Halter by apply lookup_insert_eq.
    rewrite map_to_list_insert by done. by rewrite !fmap_cons.
Qed.
End breakdown.

Lemma fold_add_holding_count prices rates baseCurrency holdings acc :
  sum_list (as_holdings_count <$> (map_to_list
     (accountSummaries (foldl (add_holding prices rates baseCurrency) acc holdings))).*2)
  = (length holdings
     + sum_list (as_holdings_count <$> (map_to_list (accountSummaries acc)).*2))%nat.
Proof.
  revert acc. induction holdings as [|h l IH]; intros acc; [done|].
  cbn [foldl length]. rewrite IH, add_holding_count. lia.
Qed.

(** X8. The accounts of the dashboard summary are the per-account sums of
    the holdings: an account is listed exactly when it has a holding, once,
    under the account name of its first holding, with the sums of the
    market values and cost bases of its holdings and their number; the
    holdings counts of the accounts add up to holdings_count. *)
Theorem summary_per_account
    (holdings : list HoldingRow) (prices : gmap string PriceCache)
    (rates : gmap string Qc) (baseCurrency : string) :
  (∀ a, a ∈ accounts (summarize holdings prices rates baseCurrency) ↔
        ∃ i, account_summary_of prices rates baseCurrency holdings i = Some a)
  ∧ NoDup (as_account_id <$> accounts (summarize holdings prices rates baseCurrency))
  ∧ sum_list (as_holdings_count
              <$> accounts (summarize holdings prices rates baseCurrency))
    = holdings_count (summarize holdings prices rates baseCurrency).
Proof.
  unfold summarize. cbn [accounts holdings_count].
  set (t := foldl _ _ holdings).
  assert (∀ i a, (i, a) ∈ map_to_list (accountSummaries t) ↔
                 account_summary_of prices rates baseCurrency holdings i = Some a)
    as Hlook.
  { intros i a. rewrite elem_of_map_to_list. unfold t.
    by rewrite summaries_lookup. }
  split; [|split].
  - intros a. rewrite list_elem_of_fmap. split.
    + intros ([i a'] & -> & Hin). exists i. by apply Hlook.
    + intros (i & Hi). exists (i, a). split; [done|]. by apply Hlook.
  - assert (as_account_id <$> (map_to_list (accountSummaries t)).*2
            = (map_to_list (accountSummaries t)).*1) as ->.
    { rewrite <- list_fmap_compose. apply list_fmap_ext.
      intros k [i a] Hk. apply list_elem_of_lookup_2, Hlook in Hk. simpl.
      unfold account_summary_of in Hk.
      destruct (account_holdings i holdings); [done|]. by injection Hk as <-. }
    apply NoDup_fst_map_to_list.
  - unfold t. rewrite fold_add_holding_count. cbn [accountSummaries].
    rewrite map_to_list_empty. simpl. lia.
Qed.

(** X9. The row that POST /daily-wealth stores for today carries the
    per-account breakdown of the snapshot: its details list an account
    exactly when it has a holding, with the name of its first holding and
    the sums of the market values (at the cached prices) and cost bases of
    its holdings; the stored holdings count is the number of holdings. *)
Theorem snapshot_details (clk : Clock) (db : Db) :
  ∃ row,
    (post_daily_wealth clk db).2 !! today clk = Some row
    ∧ (∀ i d, (i, d) ∈ (dw_details row).1 ↔
          account_detail_of
            (cached_prices (price_cache db)
               (js_set (h_symbol <$> holdings_query (transactions db)
                                       (db_accounts db))))
            (load_rates (currency_rates db)) (user_base_currency (users db))
            (holdings_query (transactions db) (db_accounts db)) i = Some d)
    ∧ (dw_details row).2
      = length (holdings_query (transactions db) (db_accounts db)).
Proof.
  unfold post_daily_wealth. cbn [snd]. rewrite lookup_insert_eq.
  eexists. split; [done|]. cbn [dw_details fst snd].
  split; [|done].
  intros i d. rewrite elem_of_map_to_list. unfold snapshot_totals.
  by rewrite details_lookup.
Qed.

(** ** The replay in closed form *)

Lemma apply_tx_lookup (m : gmap string Qc) (tx : Transaction) (s : string) :
  default 0 (apply_tx m tx !! s)
  = (default 0 (m !! s)
     + if decide (tx_symbol tx = s) then signed_units tx else 0)%Qc.
Proof.
  unfold apply_tx, signed_units.
  set (m0 := match m !! tx_symbol tx with
             | Some q => if decide (q = 0) then <[tx_symbol tx := 0]> m else m
             | None => <[tx_symbol tx := 0]> m
             end).
  case_decide as Hs.
  - subst s.
    assert (∃ q, m0 !! tx_symbol tx = Some q ∧ q = default 0 (m !! tx_symbol tx))
      as (q & Hq & Hd).
    { unfold m0. destruct (m !! tx_symbol tx) as [q|] eqn:E.
      - case_decide as Hz.
        + exists 0. rewrite lookup_insert_eq. by subst q.
        + exists q. by rewrite E.
      - exists 0. by rewrite lookup_insert_eq. }
    rewrite <- Hd.
    destruct (adds_units (tx_kind tx)); [|destruct (disposing (tx_kind tx))].
    + rewrite lookup_alter_eq, Hq. done.
    + rewrite lookup_alter_eq, Hq. done.
    + rewrite Hq. simpl. ring.
  - assert (m0 !! s = m !! s) as Hm0.
    { unfold m0. destruct (m !! tx_symbol tx) as [q|]; [case_decide|];
        by rewrite ?lookup_insert_ne. }
    destruct (adds_units (tx_kind tx)); [|destruct (disposing (tx_kind tx))];
      rewrite ?lookup_alter_ne by done; rewrite Hm0; ring.
Qed.

Lemma sum_qc_cons (x : Qc) (l : list Qc) : sum_qc (x :: l) = (x + sum_qc l)%Qc.
Proof. done. Qed.

Lemma apply_tx_fold_lookup (l : list Transaction) (m : gmap string Qc) (s : string) :
  default 0 (foldl apply_tx m l !! s)
  = (default 0 (m !! s)
     + sum_qc (signed_units <$> filter (λ t, tx_symbol t = s) l))%Qc.
Proof.
  revert m. induction l as [|t l IH]; intros m.
  - simpl. unfold sum_qc. simpl. ring.
  - cbn [foldl]. rewrite IH, apply_tx_lookup. case_decide.
    + rewrite filter_cons_True by done. rewrite fmap_cons, sum_qc_cons. ring.
    + rewrite filter_cons_False by done. ring.
Qed.

Lemma apply_tx_step (m : gmap string Qc) (tx : Transaction) (s : string) :
  default 0 (apply_tx m tx !! s)
  = if decide (tx_symbol tx = s)
    then if adds_units (tx_kind tx) then default 0 (m !! s) + tx_quantity tx
         else if disposing (tx_kind tx) then default 0 (m !! s) - tx_quantity tx
         else default 0 (m !! s)
    else default 0 (m !! s).
Proof.
  rewrite apply_tx_lookup. unfold signed_units. case_decide; [|ring].
  destruct (adds_units (tx_kind tx)); [done|].
  destruct (disposing (tx_kind tx)); ring.
Qed.

(** X10. The running quantity of a symbol after any sequence of rows is what
    the rows of that symbol alone, taken one after the other, make of the
    quantity it had before: a buy, transfer_in or dividend adds its
    quantity, a sell or transfer_out subtracts it, interest and fee rows
    leave it as it is; rows of other symbols do not change it. *)
Theorem replay_quantity_closed_form
    (m : gmap string Qc) (txs : list Transaction) (s : string) :
  default 0 (foldl apply_tx m txs !! s)
  = foldl (λ q t, if adds_units (tx_kind t) then q + tx_quantity t
                  else if disposing (tx_kind t) then q - tx_quantity t
                  else q)
          (default 0 (m !! s)) (filter (λ t, tx_symbol t = s) txs)
  ∧ default 0 (foldl apply_tx m txs !! s)
    = default 0 (foldl apply_tx m (filter (λ t, tx_symbol t = s) txs) !! s).
Proof.
  assert (∀ l m',
            default 0 (foldl apply_tx m' l !! s)
            = foldl (λ q t, if adds_units (tx_kind t) then q + tx_quantity t
                            else if disposing (tx_kind t) then q - tx_quantity t
                            else q)
                    (default 0 (m' !! s)) (filter (λ t, tx_symbol t = s) l))
    as Hfold.
  { induction l as [|t l IH]; intros m'; [done|].
    cbn [foldl]. rewrite IH, apply_tx_step. case_decide.
    - by rewrite filter_cons_True by done.
    - by rewrite filter_cons_False by done. }
  split; [apply Hfold|].
  rewrite (Hfold (filter _ txs)), Hfold. by rewrite list_filter_filter_l.
Qed.

(** ** The plotted cost *)

Lemma math_round_mono (x y : Qc) : x ≤ y → (math_round x ≤ math_round y)%Z.
Proof.
  intros Hle. unfold math_round. apply Qfloor_resp_le.
  apply Qplus_le_compat; [exact Hle|apply Qle_refl].
Qed.

Lemma Qc_of_Z_mono (a b : Z) : (a ≤ b)%Z → Qc_of_Z a ≤ Qc_of_Z b.
Proof.
  intros Hle. unfold Qcle, Qc_of_Z, Q2Qc. cbn [this].
  by rewrite <- Zle_Qle.
Qed.

Lemma round2_mono (x y : Qc) : x ≤ y → round2 x ≤ round2 y.
Proof.
  intros Hle.
  destruct (round2_spec x) as [-> _]. destruct (round2_spec y) as [-> _].
  apply Qcmult_le_compat_r; [|done].
  apply Qc_of_Z_mono, math_round_mono.
  apply Qcmult_le_compat_r; [done|]. done.
Qed.

Lemma cost_upto_cons (t : Transaction) (l : list Transaction) (d : string) :
  cost_upto (t :: l) d
  = ((if decide (str_le (tx_date t) d)
      then if acquiring (tx_kind t) then tx_quantity t * tx_price t else 0
      else 0) + cost_upto l d)%Qc.
Proof.
  unfold cost_upto, dated_upto. case_decide.
  - rewrite filter_cons_True by done. by rewrite fmap_cons.
  - rewrite filter_cons_False by done. ring.
Qed.

Lemma cost_upto_mono (txs : list Transaction) (d d' : string) :
  str_le d d' →
  (∀ t, t ∈ txs → acquiring (tx_kind t) = true → 0 ≤ tx_quantity t * tx_price t) →
  cost_upto txs d ≤ cost_upto txs d'.
Proof.
  intros Hd. induction txs as [|t l IH]; intros Hpos; [apply Qcle_refl|].
  rewrite !cost_upto_cons. apply Qcplus_le_compat.
  - assert (0 ≤ if acquiring (tx_kind t) then tx_quantity t * tx_price t else 0)
      as Hc.
    { destruct (acquiring (tx_kind t)) eqn:E; [|done]. apply Hpos; [by left|done]. }
    destruct (decide (str_le (tx_date t) d)) as [H1|H1].
    + rewrite decide_True by (by etrans). apply Qcle_refl.
    + by case_decide.
  - apply IH. intros t' Ht'. apply Hpos. by right.
Qed.

(** X12. The cost plotted by GET /portfolio/history never decreases with
    the date: when no buy or transfer_in row has a negative quantity × price,
    the cost of the point of a date is at most the cost of the point of any
    later date, whatever the prices and running holdings are, and sells,
    transfers out, dividends, interest and fees never lower it. *)
Theorem plotted_cost_never_decreases
    (txs : list Transaction) (priceHistories : gmap string (gmap string Qc))
    (running running' : gmap string Qc) (d d' : string) :
  str_le d d' →
  (∀ t, t ∈ txs → acquiring (tx_kind t) = true → 0 ≤ tx_quantity t * tx_price t) →
  hp_cost (point_at txs priceHistories running d)
  ≤ hp_cost (point_at txs priceHistories running' d').
Proof.
  intros Hd Hpos. unfold point_at. cbn [hp_cost].
  by apply round2_mono, cost_upto_mono.
Qed.

Lemma plotted_cost_never_decreases_witness :
  hp_cost (point_at sample_ledger sample_series ∅ "2024-01-20")
  ≤ hp_cost (point_at sample_ledger sample_series ∅ "2024-02-10").
Proof.
  apply (plotted_cost_never_decreases sample_ledger sample_series ∅ ∅
           "2024-01-20" "2024-02-10").
  - reflexivity.
  - intros t Ht _.
    repeat (apply elem_of_cons in Ht as [->|Ht]; [by vm_compute|]).
    by apply elem_of_nil in Ht.
Defined.

(** ** GET /portfolio/history: the route as a whole *)

Lemma price_at_empty (d : string) : price_at ∅ d = 0.
Proof.
  unfold price_at. rewrite lookup_empty, map_to_list_empty. by rewrite lookup_empty.
Qed.

Lemma price_histories_fold yf (cache : gmap string PriceCache) sd iv
    (symbols : list string) (acc : gmap string (gmap string Qc)) (s : string) :
  foldl (λ histories symbol,
           <[symbol := fetch_series yf cache sd iv symbol]> histories)
        acc symbols !! s
  = if decide (s ∈ symbols) then Some (fetch_series yf cache sd iv s) else acc !! s.
Proof.
  revert acc. induction symbols as [|x l IH]; intros acc; cbn [foldl].
  - rewrite decide_False; [done|]. apply not_elem_of_nil.
  - rewrite IH. destruct (decide (s ∈ l)) as [Hin|Hn].
    + rewrite decide_True; [done|]. by right.
    + destruct (decide (s = x)) as [->|Hne].
      * rewrite decide_True by (by left). by rewrite lookup_insert_eq.
      * rewrite decide_False by (intros [?|?]%elem_of_cons; done).
        by rewrite lookup_insert_ne.
Qed.

Lemma price_histories_lookup yf (cache : gmap string PriceCache) sd iv
    (symbols : list string) (s : string) :
  price_histories yf cache sd iv symbols !! s
  = if decide (s ∈ symbols) then Some (fetch_series yf cache sd iv s) else None.
Proof. unfold price_histories. by rewrite price_histories_fold, lookup_empty. Qed.

(** X13. A symbol that is not among the active symbols of the whole ledger
    is valued at zero at every date: it has no price series, so in the
    total value of any date of GET /portfolio/history its running quantity
    does not count, not even at the dates on which it was held. *)
Theorem history_values_only_active_symbols
    (yf : YahooFinance) (cache : gmap string PriceCache) (sd iv : string)
    (activeSymbols : list string) (running : gmap string Qc)
    (s : string) (q : Qc) (d : string) :
  s ∉ activeSymbols →
  portfolio_value (price_histories yf cache sd iv activeSymbols)
    (<[s := q]> running) d
  = portfolio_value (price_histories yf cache sd iv activeSymbols)
      (delete s running) d.
Proof.
  intros Hs. unfold portfolio_value.
  rewrite <- (insert_delete_eq running s q).
  rewrite (sum_qc_perm _ _ (fmap_Permutation _ _ _
             (map_to_list_insert (delete s running) s q (lookup_delete_eq _ _)))).
  rewrite fmap_cons, sum_qc_cons. cbn [fst snd].
  rewrite price_histories_lookup.
  rewrite (decide_False (P := s ∈ activeSymbols)) by done. cbn [default].
  rewrite price_at_empty. case_decide; ring.
Qed.

Lemma history_values_only_active_symbols_witness :
  portfolio_value
    (price_histories sample_provider ∅ "2023-12-11" "1wk" ["BTC-USD"])
    (<["AAPL" := dec 10 1]> {[ "BTC-USD" := dec 4 10 ]}) "2024-02-01"
  = portfolio_value
      (price_histories sample_provider ∅ "2023-12-11" "1wk" ["BTC-USD"])
      (delete "AAPL" {[ "BTC-USD" := dec 4 10 ]}) "2024-02-01".
Proof.
  apply (history_values_only_active_symbols sample_provider ∅ "2023-12-11" "1wk"
           ["BTC-USD"] {[ "BTC-USD" := dec 4 10 ]} "AAPL" (dec 10 1) "2024-02-01").
  intros Hin. apply elem_of_cons in Hin as [?|Hin]; [done|].
  by apply elem_of_nil in Hin.
Defined.

Lemma elem_of_all_dates (ph : gmap string (gmap string Qc)) (d : string) :
  d ∈ all_dates ph ↔
  d ≠ "fallback" ∧ ∃ s series, ph !! s = Some series ∧ is_Some (series !! d).
Proof.
  unfold all_dates. rewrite elem_of_difference, not_elem_of_singleton.
  rewrite (and_comm _ (d ≠ "fallback")).
  apply and_iff_compat_l.
  apply (map_fold_weak_ind
           (λ (dates : gset string) (m : gmap string (gmap string Qc)),
              d ∈ dates ↔ ∃ s series, m !! s = Some series ∧ is_Some (series !! d))).
  - split; [by intros ?%not_elem_of_empty|].
    intros (s & series & Hs & _). by rewrite lookup_empty in Hs.
  - intros s series m dates Hnone IH. rewrite elem_of_union, IH, elem_of_dom.
    split.
    + intros [Hd|(s' & series' & Hs' & Hd)].
      * exists s, series. by rewrite lookup_insert_eq.
      * exists s', series'. rewrite lookup_insert_ne; [done|]. congruence.
    + intros (s' & series' & Hs' & Hd).
      destruct (decide (s' = s)) as [->|Hne].
      * rewrite lookup_insert_eq in Hs'. injection Hs' as <-. by left.
      * rewrite lookup_insert_ne in Hs' by done. right. by exists s', series'.
Qed.

Lemma series_of_chart_fold (quotes : list ChartQuote) (acc : gmap string Qc)
    (d : string) :
  is_Some (foldl (λ series q,
                    match cq_close q with
                    | Some close => <[cq_day q := close]> series
                    | None => series
                    end) acc quotes !! d)
  ↔ is_Some (acc !! d)
    ∨ ∃ q close, q ∈ quotes ∧ cq_day q = d ∧ cq_close q = Some close.
Proof.
  revert acc. induction quotes as [|q l IH]; intros acc; cbn [foldl].
  - split; [by left|]. intros [?|(q & c & Hin & _)]; [done|].
    by apply elem_of_nil in Hin.
  - rewrite IH. split.
    + intros [Hacc|(q' & c & Hin & Hd & Hc)].
      * destruct (cq_close q) as [c|] eqn:E; [|by left].
        destruct (decide (cq_day q = d)) as [Hd|Hne].
        -- right. exists q, c. split; [by left|done].
        -- rewrite lookup_insert_ne in Hacc by done. by left.
      * right. exists q', c. split; [by right|done].
    + intros [Hacc|(q' & c & Hin & Hd & Hc)].
      * left. destruct (cq_close q) as [c|]; [|done].
        destruct (decide (cq_day q = d)) as [->|Hne].
        -- by rewrite lookup_insert_eq.
        -- by rewrite lookup_insert_ne.
      * apply elem_of_cons in Hin as [->|Hin].
        -- left. rewrite Hc, <- Hd. by rewrite lookup_insert_eq.
        -- right. by exists q', c.
Qed.

Lemma fetch_series_date yf (cache : gmap string PriceCache) sd iv s (d : string) :
  d ≠ "fallback" →
  is_Some (fetch_series yf cache sd iv s !! d)
  ↔ ∃ quotes q close, yf_chart yf s sd iv = Resolved quotes
      ∧ q ∈ quotes ∧ cq_day q = d ∧ cq_close q = Some close.
Proof.
  intros Hd. unfold fetch_series, series_of_chart.
  destruct (yf_chart yf s sd iv) as [quotes|m].
  - rewrite series_of_chart_fold, lookup_empty. split.
    + intros [[? ?]|(q & c & ?)]; [done|]. by exists quotes, q, c.
    + intros (quotes' & q & c & [= <-] & ?). right. by exists q, c.
  - rewrite lookup_singleton_ne by done. split; [by intros [? ?]|].
    by intros (? & ? & ? & ? & _).
Qed.

Lemma replay_dates txs (ph : gmap string (gmap string Qc)) (ds : list string) st :
  hp_date <$> portfolioHistory (foldl (replay_step txs ph) st ds)
  = (hp_date <$> portfolioHistory st) ++ ds.
Proof.
  revert st. induction ds as [|d ds IH]; intros st; cbn [foldl].
  - by rewrite app_nil_r.
  - rewrite IH. unfold replay_step. cbn [portfolioHistory].
    rewrite fmap_app, <- app_assoc. done.
Qed.

Lemma active_symbols_empty : active_symbols ∅ = [].
Proof. unfold active_symbols. by rewrite map_to_list_empty. Qed.

Lemma all_dates_empty : elements (all_dates ∅) = [].
Proof.
  apply elements_empty_iff. intros d.
  split; [|by intros ?%not_elem_of_empty]. intros Hd. exfalso.
  apply elem_of_all_dates in Hd as (_ & s & series & Hs & _).
  by rewrite lookup_empty in Hs.
Qed.

(** The answer of the route once the provider client is obtained, for a
    period that gives a number of days: the replay over the sorted dates of
    the fetched series, also in the cases in which the route returns
    early. *)
Lemma portfolio_history_resolved yf cal (db : Db) account_id period days :
  period_days period = Some days →
  portfolio_history (Resolved yf) cal db account_id period
  = Json 200
      (portfolioHistory
         (replay (select_transactions (transactions db) account_id)
            (price_histories yf (price_cache db) (history_start cal period days)
               (history_interval days) (history_symbols db account_id))
            (merge_sort str_le
               (elements
                  (all_dates
                     (price_histories yf (price_cache db)
                        (history_start cal period days) (history_interval days)
                        (history_symbols db account_id))))))).
Proof.
  intros Hdays. unfold portfolio_history, history_symbols. rewrite Hdays.
  fold (history_start cal period days). fold (history_interval days).
  destruct (select_transactions (transactions db) account_id) as [|t txs] eqn:Etx.
  - cbn [foldl]. rewrite active_symbols_empty. unfold price_histories.
    cbn [foldl]. by rewrite all_dates_empty.
  - destruct (active_symbols (foldl apply_tx ∅ (t :: txs))) as [|s l] eqn:Eact.
    + unfold price_histories. cbn [foldl]. by rewrite all_dates_empty.
    + fold (price_histories yf (price_cache db) (history_start cal period days)
              (history_interval days) (s :: l)).
      by destruct (merge_sort str_le _).
Qed.

Lemma elem_of_history_dates yf cal (db : Db) account_id period days (d : string) :
  d ∈ all_dates (price_histories yf (price_cache db)
                   (history_start cal period days)
                   (history_interval days) (history_symbols db account_id))
  ↔ d ≠ "fallback"
    ∧ ∃ s quotes q close,
        s ∈ history_symbols db account_id
        ∧ yf_chart yf s (history_start cal period days) (history_interval days)
          = Resolved quotes
        ∧ q ∈ quotes ∧ cq_day q = d ∧ cq_close q = Some close.
Proof.
  rewrite elem_of_all_dates. split.
  - intros (Hd & s & series & Hs & Hsome). split; [done|].
    rewrite price_histories_lookup in Hs. case_decide as Hin; [|done].
    injection Hs as <-.
    apply fetch_series_date in Hsome as (quotes & q & c & ?); [|done].
    by exists s, quotes, q, c.
  - intros (Hd & s & quotes & q & c & Hin & Hq).
    split; [done|]. exists s, (fetch_series yf (price_cache db)
                               (history_start cal period days)
                               (history_interval days) s).
    rewrite price_histories_lookup, decide_True by done. split; [done|].
    apply fetch_series_date; [done|]. by exists quotes, q, c.
Qed.

Lemma period_days_None (period : option string) :
  period_days period = None
  ↔ ∃ p, period = Some p ∧ p ∈ inherited_keys.
Proof.
  unfold period_days, truthy. split.
  - destruct period as [p|]; [|done]. case_decide as Hp; [done|].
    case_decide as Hin; [intros _; by exists p|].
    repeat (case_decide; [done|]). done.
  - intros (p & -> & Hin). rewrite decide_False, decide_True; [done..|].
    intros ->. revert Hin. by apply (bool_decide_unpack _).
Qed.

(** X14. GET /portfolio/history answers with an error in exactly two cases,
    each time with status 500: the period is a name that the table of
    periods inherits from Object.prototype (constructor, toString, ...),
    whatever the ledger and the provider are, and the message is then
    'Invalid time value'; or the period gives a number of days, some symbol
    is still held at the end of the selected rows and obtaining the provider
    client throws, and the message is then the one thrown.  A failing chart
    call, an empty ledger or a sold-out ledger never makes the route
    fail. *)
Theorem history_fails_only_without_client
    (gyf : outcome YahooFinance) (cal : Calendar) (db : Db)
    (account_id : option Z) (period : option string)
    (status : nat) (message : string) :
  portfolio_history gyf cal db account_id period = ErrorJson status message
  ↔ status = 500%nat
    ∧ ((∃ p, period = Some p ∧ p ∈ inherited_keys)
       ∧ message = "Invalid time value"
       ∨ (∀ p, period = Some p → p ∉ inherited_keys)
         ∧ gyf = Thrown message ∧ history_symbols db account_id ≠ []).
Proof.
  destruct (period_days period) as [days|] eqn:Hdays.
  - assert (∀ p, period = Some p → p ∉ inherited_keys) as Hnot.
    { intros p -> Hin.
      assert (period_days (Some p) = None) as Hn
        by (apply period_days_None; by exists p).
      congruence. }
    assert (¬ ∃ p, period = Some p ∧ p ∈ inherited_keys) as Hnex.
    { intros (p & Hp & Hin). by apply (Hnot p). }
    destruct gyf as [yf|m].
    + rewrite (portfolio_history_resolved _ _ _ _ _ days Hdays).
      split; [done|]. intros (_ & [[? _]|(_ & ? & _)]); done.
    + unfold portfolio_history, history_symbols. rewrite Hdays.
      destruct (select_transactions (transactions db) account_id) as [|t txs].
      * cbn [foldl]. rewrite active_symbols_empty. split; [done|].
        intros (_ & [[? _]|(_ & _ & ?)]); done.
      * destruct (active_symbols (foldl apply_tx ∅ (t :: txs))) as [|s l].
        -- split; [done|]. intros (_ & [[? _]|(_ & _ & ?)]); done.
        -- split.
           ++ intros [= <- <-]. split; [done|]. right. done.
           ++ intros (-> & [[? _]|(_ & [= ->] & _)]); done.
  - pose proof (proj1 (period_days_None period) Hdays) as Hex.
    unfold portfolio_history. rewrite Hdays. split.
    + intros [= <- <-]. split; [done|]. by left.
    + intros (-> & [[_ ->]|(Hnot & _)]); [done|].
      destruct Hex as (p & Hp & Hin). by destruct (Hnot p Hp).
Qed.

(** X15. The days plotted by GET /portfolio/history: for a period that
    gives a number of days (any period but the names inherited from
    Object.prototype), once the provider client is obtained the route
    answers 200 with one point per distinct day on which the chart of some
    active symbol has a quote with a close that is not null, in strictly
    ascending order of the day; a symbol whose chart call throws adds no
    day, and no point is dated 'fallback'. *)
Theorem history_points_dates
    (yf : YahooFinance) (cal : Calendar) (db : Db)
    (account_id : option Z) (period : option string) (days : nat) :
  period_days period = Some days →
  ∃ points,
    portfolio_history (Resolved yf) cal db account_id period = Json 200 points
    ∧ StronglySorted str_le (hp_date <$> points)
    ∧ NoDup (hp_date <$> points)
    ∧ ∀ d, d ∈ hp_date <$> points ↔
        d ≠ "fallback"
        ∧ ∃ s quotes q close,
            s ∈ history_symbols db account_id
            ∧ yf_chart yf s (history_start cal period days) (history_interval days)
              = Resolved quotes
            ∧ q ∈ quotes ∧ cq_day q = d ∧ cq_close q = Some close.
Proof.
  intros Hdays. rewrite (portfolio_history_resolved _ _ _ _ _ days Hdays).
  eexists. split; [done|].
  unfold replay. rewrite replay_dates. cbn [portfolioHistory fmap list_fmap app].
  split; [|split].
  - apply StronglySorted_merge_sort; apply _.
  - rewrite merge_sort_Permutation. apply NoDup_elements.
  - intros d. rewrite merge_sort_Permutation, elem_of_elements.
    apply elem_of_history_dates.
Qed.

Lemma history_points_dates_witness :
  ∃ points,
    portfolio_history (Resolved charting_provider) sample_calendar sample_db
      (Some 1%Z) (Some "1m") = Json 200 points
    ∧ StronglySorted str_le (hp_date <$> points)
    ∧ NoDup (hp_date <$> points)
    ∧ ∀ d, d ∈ hp_date <$> points ↔
        d ≠ "fallback"
        ∧ ∃ s quotes q close,
            s ∈ history_symbols sample_db (Some 1%Z)
            ∧ yf_chart charting_provider s
                (history_start sample_calendar (Some "1m") 30)
                (history_interval 30) = Resolved quotes
            ∧ q ∈ quotes ∧ cq_day q = d ∧ cq_close q = Some close.
Proof.
  apply (history_points_dates charting_provider sample_calendar sample_db
           (Some 1%Z) (Some "1m") 30).
  reflexivity.
Defined.

(** X16. For a period that gives a number of days, when the chart call of
    every active symbol throws, GET /portfolio/history answers 200 with the
    empty list: the cached price kept as the fallback of a symbol is used
    only at the days that the chart of another symbol provides. *)
Theorem history_empty_when_all_charts_fail
    (yf : YahooFinance) (cal : Calendar) (db : Db)
    (account_id : option Z) (period : option string) (days : nat) :
  period_days period = Some days →
  (∀ s, s ∈ history_symbols db account_id →
        ∃ m, yf_chart yf s (history_start cal period days) (history_interval days)
             = Thrown m) →
  portfolio_history (Resolved yf) cal db account_id period = Json 200 [].
Proof.
  intros Hdays Hfail. rewrite (portfolio_history_resolved _ _ _ _ _ days Hdays).
  assert (elements
            (all_dates
               (price_histories yf (price_cache db)
                  (history_start cal period days)
                  (history_interval days) (history_symbols db account_id)))
          = []) as ->; [|done].
  apply elements_empty_iff. intros d.
  split; [|by intros ?%not_elem_of_empty]. intros Hd. exfalso.
  apply elem_of_history_dates in Hd as (_ & s & quotes & q & c & Hin & Hq & _).
  destruct (Hfail s Hin) as [m Hm]. congruence.
Qed.

Lemma history_empty_when_all_charts_fail_witness :
  portfolio_history (Resolved sample_provider) sample_calendar sample_db
    (Some 1%Z) (Some "1m") = Json 200 [].
Proof.
  apply (history_empty_when_all_charts_fail sample_provider sample_calendar
           sample_db (Some 1%Z) (Some "1m") 30).
  - reflexivity.
  - intros s _. by exists "Not Found".
Defined.

(** ** Currency rates *)

Lemma rate_key_inj (a b a' b' : string) :
  no_underscore a = true → no_underscore a' = true →
  rate_key a b = rate_key a' b' → a = a' ∧ b = b'.
Proof.
  unfold rate_key. revert a'. induction a as [|c a IH]; intros a' Ha Ha' Heq.
  - destruct a' as [|c' a'].
    + change (String "_" b = String "_" b') in Heq. by injection Heq as ->.
    + change (String "_" b = String c' (a' +:+ "_" +:+ b')) in Heq.
      injection Heq as <- _. done.
  - destruct a' as [|c' a'].
    + change (String c (a +:+ "_" +:+ b) = String "_" b') in Heq.
      injection Heq as -> _. done.
    + change (String c (a +:+ "_" +:+ b) = String c' (a' +:+ "_" +:+ b')) in Heq.
      injection Heq as -> Heq. cbn [no_underscore] in Ha, Ha'.
      apply andb_prop in Ha as [_ Ha]. apply andb_prop in Ha' as [_ Ha'].
      destruct (IH a' Ha Ha' Heq) as [-> ->]. done.
Qed.

Lemma load_rates_snoc (rows : list CurrencyRate) (r : CurrencyRate) :
  load_rates (rows ++ [r])
  = <[rate_key (cr_from_currency r) (cr_to_currency r) := cr_rate r]>
      (load_rates rows).
Proof. unfold load_rates. by rewrite foldl_app. Qed.

Lemma select_rate_snoc (rows : list CurrencyRate) (r : CurrencyRate)
    (from to : string) :
  select_rate (rows ++ [r]) from to
  = match select_rate rows from to with
    | Some x => Some x
    | None => if decide (rate_pair r = (from, to)) then Some (cr_rate r) else None
    end.
Proof.
  unfold select_rate. rewrite filter_app.
  destruct (filter _ rows) as [|x l] eqn:E; [|done]. cbn [app].
  case_decide as Hp.
  - injection Hp as Hf Ht. by rewrite filter_cons_True.
  - rewrite filter_cons_False; [done|]. intros [Hf Ht]. apply Hp.
    unfold rate_pair. by rewrite Hf, Ht.
Qed.

Lemma select_rate_Some (rows : list CurrencyRate) (from to : string) (x : Qc) :
  select_rate rows from to = Some x →
  ∃ r, r ∈ rows ∧ rate_pair r = (from, to) ∧ cr_rate r = x.
Proof.
  unfold select_rate. intros H.
  destruct (filter _ rows) as [|r l] eqn:E; [done|]. injection H as <-.
  assert (r ∈ filter (λ r, cr_from_currency r = from ∧ cr_to_currency r = to) rows)
    as Hin by (rewrite E; by left).
  apply list_elem_of_filter in Hin as [[Hf Ht] Hin].
  exists r. unfold rate_pair. by rewrite Hf, Ht.
Qed.

(** X17. The valuation routes and GET /convert read the same rate: when the
    stored pairs are distinct (the UNIQUE constraint of currency_rates) and
    no currency code contains an underscore, the multiplier that the
    in-memory table of the dashboard summary and of the snapshot gives for
    A→B is the rate that the SELECT of GET /convert finds for the directed
    pair, with the two falsy cases set to 1: no stored rate, and a stored
    rate of zero. *)
Theorem valuation_rate_is_stored_rate
    (rows : list CurrencyRate) (from to : string) :
  NoDup (rate_pair <$> rows) →
  (∀ r, r ∈ rows → no_underscore (cr_from_currency r) = true) →
  no_underscore from = true →
  load_rates rows !! rate_key from to = select_rate rows from to
  ∧ rate_or_1 (load_rates rows) (rate_key from to)
    = opt_num_or (select_rate rows from to) 1.
Proof.
  intros Hnd Hrows Hfrom.
  assert (load_rates rows !! rate_key from to = select_rate rows from to) as Heq.
  { induction rows as [|r l IH] using rev_ind; [done|].
    rewrite fmap_app in Hnd. apply list.NoDup_app in Hnd as (Hnd & Hfresh & _).
    rewrite load_rates_snoc, select_rate_snoc.
    assert (∀ r', r' ∈ l → no_underscore (cr_from_currency r') = true) as Hl.
    { intros r' Hr'. apply Hrows, elem_of_app. by left. }
    case_decide as Hp.
    - injection Hp as Hf Ht. rewrite Hf, Ht, lookup_insert_eq.
      destruct (select_rate l from to) as [x|] eqn:E; [|done].
      apply select_rate_Some in E as (r' & Hr' & Hp' & _).
      exfalso. apply (Hfresh (from, to)).
      + apply list_elem_of_fmap. by exists r'.
      + apply list_elem_of_singleton. unfold rate_pair. by rewrite Hf, Ht.
    - rewrite lookup_insert_ne.
      + rewrite (IH Hnd Hl). by destruct (select_rate l from to).
      + intros Hk. apply rate_key_inj in Hk as [Hf Ht]; [|by apply Hrows, elem_of_app;
          right; apply list_elem_of_singleton|done].
        apply Hp. unfold rate_pair. by rewrite Hf, Ht. }
  split; [done|]. unfold rate_or_1. by rewrite Heq.
Qed.

Lemma valuation_rate_is_stored_rate_witness :
  load_rates (currency_rates sample_db) !! rate_key "USD" "EUR"
  = select_rate (currency_rates sample_db) "USD" "EUR"
  ∧ rate_or_1 (load_rates (currency_rates sample_db)) (rate_key "USD" "EUR")
    = opt_num_or (select_rate (currency_rates sample_db) "USD" "EUR") 1.
Proof.
  apply (valuation_rate_is_stored_rate (currency_rates sample_db) "USD" "EUR").
  - apply NoDup_singleton.
  - intros r Hr. apply list_elem_of_singleton in Hr as ->. reflexivity.
  - reflexivity.
Defined.

(** X18. GET /convert answers 200 only with a rate it has reason for: the
    three parameters are present and not empty, the result is the parsed
    amount times the reported rate, and the rate is 1 for equal currencies
    (without any lookup) or else the rate of a stored row whose pair is
    exactly (FROM, TO) in upper case, found by the one lookup of that pair;
    a row stored for the opposite direction is never used. *)
Theorem convert_uses_stored_directed_rate
    (parseFloat : string → Qc) (rows : list CurrencyRate) (query : ConvertQuery)
    (status : nat) (body : ConvertJson) (lookups : list (string * string)) :
  get_convert parseFloat rows query = (Json status body, lookups) →
  status = 200%nat
  ∧ ∃ from to amount,
      truthy (q_from query) = Some from ∧ truthy (q_to query) = Some to
      ∧ truthy (q_amount query) = Some amount
      ∧ cj_result body = parseFloat amount * cj_rate body
      ∧ ((toUpperCase from = toUpperCase to ∧ cj_rate body = 1 ∧ lookups = [])
         ∨ (toUpperCase from ≠ toUpperCase to
            ∧ lookups = [(toUpperCase from, toUpperCase to)]
            ∧ ∃ r, r ∈ rows ∧ rate_pair r = (toUpperCase from, toUpperCase to)
                   ∧ cj_rate body = cr_rate r)).
Proof.
  unfold get_convert.
  destruct (truthy (q_from query)) as [from|]; [|done].
  destruct (truthy (q_to query)) as [to|]; [|done].
  destruct (truthy (q_amount query)) as [amount|]; [|done].
  case_decide as Hsame.
  - intros [= <- <- <-]. split; [done|]. exists from, to, amount.
    repeat split; try done. cbn. ring. by left.
  - destruct (select_rate rows (toUpperCase from) (toUpperCase to)) as [x|] eqn:E;
      [|done].
    intros [= <- <- <-]. split; [done|]. exists from, to, amount.
    repeat split; try done. right. repeat split; try done.
    apply select_rate_Some in E as (r & Hr & Hp & Hx). by exists r.
Qed.

Lemma convert_uses_stored_directed_rate_witness :
  200%nat = 200%nat
  ∧ ∃ from to amount,
      truthy (Some "usd") = Some from ∧ truthy (Some "eur") = Some to
      ∧ truthy (Some "100") = Some amount
      ∧ cj_result {| cj_result := dec 100 1 * dec 92 100; cj_rate := dec 92 100 |}
        = (λ _, dec 100 1) amount
          * cj_rate {| cj_result := dec 100 1 * dec 92 100; cj_rate := dec 92 100 |}
      ∧ ((toUpperCase from = toUpperCase to
          ∧ cj_rate {| cj_result := dec 100 1 * dec 92 100; cj_rate := dec 92 100 |}
            = 1
          ∧ [("USD", "EUR")] = [])
         ∨ (toUpperCase from ≠ toUpperCase to
            ∧ [("USD", "EUR")] = [(toUpperCase from, toUpperCase to)]
            ∧ ∃ r, r ∈ currency_rates sample_db
                   ∧ rate_pair r = (toUpperCase from, toUpperCase to)
                   ∧ cj_rate {| cj_result := dec 100 1 * dec 92 100;
                                cj_rate := dec 92 100 |} = cr_rate r)).
Proof.
  apply (convert_uses_stored_directed_rate (λ _, dec 100 1)
           (currency_rates sample_db)
           {| q_from := Some "usd"; q_to := Some "eur"; q_amount := Some "100" |}).
  reflexivity.
Defined.

Lemma select_rate_fmap (l : list RateRow) (A B : string) :
  select_rate (rr_rate <$> l) A B
  = (λ r, cr_rate (rr_rate r)) <$> head (filter (same_pair A B) l).
Proof.
  unfold select_rate. induction l as [|r l IH]; [done|]. rewrite fmap_cons.
  destruct (decide (same_pair A B r)) as [Hp|Hp].
  - rewrite (filter_cons_True (same_pair A B)) by done.
    by rewrite filter_cons_True by exact Hp.
  - rewrite (filter_cons_False (same_pair A B)) by done.
    by rewrite filter_cons_False by exact Hp.
Qed.

Lemma select_rate_stored (t : RateTable) (A B : string) :
  select_rate (stored_rates t) A B
  = (λ r, cr_rate (rr_rate r)) <$> select_pair t A B.
Proof. apply select_rate_fmap. Qed.

Lemma next_id_gt (t : RateTable) :
  (rt_seq t < next_id t)%Z ∧ ∀ r, r ∈ rt_rows t → (rr_id r < next_id t)%Z.
Proof.
  unfold next_id. induction (rt_rows t) as [|x l [IH1 IH2]].
  - split; [simpl; lia|]. intros r Hr. by apply elem_of_nil in Hr.
  - rewrite fmap_cons. cbn [foldr]. split; [lia|].
    intros r [->|Hr]%elem_of_cons; [lia|]. specialize (IH2 r Hr). lia.
Qed.

Lemma select_pair_insert clk (t : RateTable) (F T : string) (rate : Qc)
    (A B : string) :
  select_pair (insert_or_replace_rate clk F T rate t) A B
  = if decide ((A, B) = (F, T))
    then Some {| rr_id := next_id t;
                 rr_rate := {| cr_from_currency := F; cr_to_currency := T;
                               cr_rate := rate |};
                 rr_updated_at := current_timestamp clk |}
    else select_pair t A B.
Proof.
  unfold select_pair, insert_or_replace_rate. cbn [rt_rows].
  rewrite filter_app. case_decide as Hp.
  - injection Hp as -> ->. rewrite list_filter_filter.
    rewrite (filter_none (λ a, same_pair F T a ∧ ¬ same_pair F T a));
      [|apply Forall_forall; intros r _; tauto].
    by rewrite filter_cons_True.
  - rewrite list_filter_filter_l.
    + rewrite (filter_cons_False (same_pair A B)); [by rewrite app_nil_r|].
      intros [Hf Ht]. simpl in Hf, Ht. by subst.
    + intros r [Hf Ht] [Hf' Ht']. apply Hp. congruence.
Qed.

(** X19. A rate posted to POST /currencies is the rate GET /convert uses
    from then on: the route answers 201 with the stored row, which holds the
    two codes in upper case and an id above every id in use and above the
    counter; the pair then has exactly the posted rate, whether or not it
    had a row before; the rate of every other pair is as it was; and a
    conversion between the two currencies, when they differ, multiplies by
    the posted rate. *)
Theorem post_rate_then_convert
    (clk : Clock) (t : RateTable) (body : RateBody) (parseFloat : string → Qc)
    (from to amount : string) (rate : Qc) :
  truthy (rb_from_currency body) = Some from →
  truthy (rb_to_currency body) = Some to →
  rb_rate body = Some rate →
  (∃ row,
     (post_rate clk t body).1 = Json 201 (Some row)
     ∧ rr_rate row = {| cr_from_currency := toUpperCase from;
                        cr_to_currency := toUpperCase to; cr_rate := rate |}
     ∧ (rt_seq t < rr_id row)%Z
     ∧ ∀ r, r ∈ rt_rows t → (rr_id r < rr_id row)%Z)
  ∧ select_rate (stored_rates (post_rate clk t body).2)
      (toUpperCase from) (toUpperCase to) = Some rate
  ∧ (∀ A B, (A, B) ≠ (toUpperCase from, toUpperCase to) →
       select_rate (stored_rates (post_rate clk t body).2) A B
       = select_rate (stored_rates t) A B)
  ∧ (toUpperCase from ≠ toUpperCase to → amount ≠ "" →
     get_convert parseFloat (stored_rates (post_rate clk t body).2)
       {| q_from := Some from; q_to := Some to; q_amount := Some amount |}
     = (Json 200 {| cj_result := parseFloat amount * rate; cj_rate := rate |},
        [(toUpperCase from, toUpperCase to)])).
Proof.
  intros Hf Ht Hr. unfold post_rate. rewrite Hf, Ht, Hr. cbn [fst snd].
  assert (select_rate
            (stored_rates (insert_or_replace_rate clk (toUpperCase from)
                             (toUpperCase to) rate t))
            (toUpperCase from) (toUpperCase to) = Some rate) as Hsel.
  { by rewrite select_rate_stored, select_pair_insert, decide_True. }
  split; [|split; [done|split]].
  - rewrite select_pair_insert, decide_True by done. eexists. split; [done|].
    split; [done|]. apply next_id_gt.
  - intros A B Hne.
    by rewrite !select_rate_stored, select_pair_insert, decide_False.
  - intros Hne Ha. unfold get_convert. cbn [q_from q_to q_amount].
    assert (from ≠ "") as Hfrom.
    { unfold truthy in Hf. destruct (rb_from_currency body); [|done].
      case_decide; [done|]. by injection Hf as <-. }
    assert (to ≠ "") as Hto.
    { unfold truthy in Ht. destruct (rb_to_currency body); [|done].
      case_decide; [done|]. by injection Ht as <-. }
    rewrite !truthy_Some by done. rewrite decide_False by done. by rewrite Hsel.
Qed.

Lemma post_rate_then_convert_witness :
  get_convert (λ _, dec 100 1)
    (stored_rates
       (post_rate sample_clock sample_rate_table
          {| rb_from_currency := Some "usd"; rb_to_currency := Some "Eur";
             rb_rate := Some (dec 95 100) |}).2)
    {| q_from := Some "usd"; q_to := Some "Eur"; q_amount := Some "100" |}
  = (Json 200 {| cj_result := dec 100 1 * dec 95 100; cj_rate := dec 95 100 |},
     [("USD", "EUR")]).
Proof.
  apply (post_rate_then_convert sample_clock sample_rate_table
           {| rb_from_currency := Some "usd"; rb_to_currency := Some "Eur";
              rb_rate := Some (dec 95 100) |} (λ _, dec 100 1)
           "usd" "Eur" "100" (dec 95 100)); done.
Defined.

Lemma NoDup_fmap_eq {A B : Type} (f : A → B) (l : list A) (x y : A) :
  NoDup (f <$> l) → x ∈ l → y ∈ l → f x = f y → x = y.
Proof.
  induction l as [|a l IH]; intros Hnd Hx Hy Heq; [by apply elem_of_nil in Hx|].
  rewrite fmap_cons in Hnd. apply list.NoDup_cons in Hnd as [Ha Hnd].
  apply elem_of_cons in Hx as [->|Hx]; apply elem_of_cons in Hy as [->|Hy].
  - done.
  - exfalso. apply Ha. rewrite Heq. apply list_elem_of_fmap. by exists y.
  - exfalso. apply Ha. rewrite <- Heq. apply list_elem_of_fmap. by exists x.
  - by apply IH.
Qed.

Lemma filter_ext_in {A : Type} (P Q : A → Prop) `{!∀ x, Decision (P x)}
    `{!∀ x, Decision (Q x)} (l : list A) :
  (∀ x, x ∈ l → P x ↔ Q x) → filter P l = filter Q l.
Proof.
  induction l as [|a l IH]; intros Hext; [done|].
  assert (filter P l = filter Q l) as IH' by (apply IH; intros x Hx; apply Hext; by right).
  destruct (decide (P a)) as [Hp|Hp].
  - rewrite !filter_cons_True; [by rewrite IH'|by apply (Hext a); [left|]|done].
  - rewrite !filter_cons_False; [done| |done].
    intros Hq. apply Hp. apply (Hext a); [by left|done].
Qed.

Lemma select_id_Some (t : RateTable) (id : Z) (row : RateRow) :
  select_id t id = Some row → row ∈ rt_rows t ∧ rr_id row = id.
Proof.
  unfold select_id. intros H. apply head_Some_elem_of in H.
  apply list_elem_of_filter in H. tauto.
Qed.

Lemma stored_pairs (t : RateTable) :
  rate_pair <$> stored_rates t = (λ r, rate_pair (rr_rate r)) <$> rt_rows t.
Proof. unfold stored_rates. by rewrite <- list_fmap_compose. Qed.

Lemma same_pair_rate_pair (A B : string) (r : RateRow) :
  same_pair A B r ↔ rate_pair (rr_rate r) = (A, B).
Proof.
  unfold same_pair, rate_pair. split; [by intros [-> ->]|]. by intros [= -> ->].
Qed.

Lemma insert_or_replace_wf clk (t : RateTable) (F T : string) (rate : Qc) :
  rates_wf t → rates_wf (insert_or_replace_rate clk F T rate t).
Proof.
  intros (Hid & Hpair & Hseq). rewrite stored_pairs in Hpair.
  unfold rates_wf. rewrite stored_pairs.
  unfold insert_or_replace_rate. cbn [rt_rows rt_seq].
  set (kept := filter (λ r, ¬ same_pair F T r) (rt_rows t)).
  assert (kept `sublist_of` rt_rows t) as Hsub by apply sublist_filter.
  rewrite !fmap_app. cbn [fmap list_fmap rr_id rr_rate].
  split; [|split].
  - apply list.NoDup_app. split; [|split; [|apply NoDup_singleton]].
    + eapply sublist_NoDup; [exact Hid|]. by apply fmap_sublist.
    + intros i Hi Hi'. apply list_elem_of_singleton in Hi'. subst i.
      apply list_elem_of_fmap in Hi as (r & Hr & Hin).
      apply list_elem_of_filter in Hin as [_ Hin].
      destruct (next_id_gt t) as [_ Hgt]. specialize (Hgt r Hin). lia.
  - apply list.NoDup_app. split; [|split; [|apply NoDup_singleton]].
    + eapply sublist_NoDup; [exact Hpair|]. by apply fmap_sublist.
    + intros p Hp Hp'. apply list_elem_of_singleton in Hp'. subst p.
      apply list_elem_of_fmap in Hp as (r & Hr & Hin).
      apply list_elem_of_filter in Hin as [Hn _]. apply Hn.
      by apply same_pair_rate_pair.
  - apply Forall_app. split.
    + apply Forall_forall. intros r Hin.
      apply list_elem_of_filter in Hin as [_ Hin].
      destruct (next_id_gt t) as [_ Hgt]. specialize (Hgt r Hin). lia.
    + apply Forall_singleton. simpl. lia.
Qed.

Lemma put_rate_rows_wf clk (t : RateTable) (id : Z) (F T : string) (rate : Qc) :
  rates_wf t →
  ¬ Exists (λ r, rr_id r ≠ id ∧ same_pair F T r) (rt_rows t) →
  rates_wf
    {| rt_rows :=
         (λ r, if decide (rr_id r = id)
               then {| rr_id := rr_id r;
                       rr_rate := {| cr_from_currency := F; cr_to_currency := T;
                                     cr_rate := rate |};
                       rr_updated_at := current_timestamp clk |}
               else r) <$> rt_rows t;
       rt_seq := rt_seq t |}.
Proof.
  intros (Hid & Hpair & Hseq) Hfree. rewrite stored_pairs in Hpair.
  unfold rates_wf. rewrite stored_pairs. cbn [rt_rows rt_seq].
  set (upd := λ r : RateRow, if decide (rr_id r = id) then _ else r).
  assert (∀ r, rr_id (upd r) = rr_id r) as Hupd_id.
  { intros r. unfold upd. by case_decide. }
  split; [|split].
  - rewrite <- list_fmap_compose.
    erewrite list_fmap_ext; [exact Hid|]. intros k r _. apply Hupd_id.
  - rewrite <- list_fmap_compose. apply NoDup_fmap_2_strong.
    + intros x y Hx Hy Heq. cbn [compose] in Heq. unfold upd in Heq.
      destruct (decide (rr_id x = id)) as [Hxi|Hxi];
        destruct (decide (rr_id y = id)) as [Hyi|Hyi].
      * apply (NoDup_fmap_eq rr_id (rt_rows t)); [done..|congruence].
      * exfalso. apply Hfree, Exists_exists. exists y. split; [done|].
        split; [done|]. apply same_pair_rate_pair. by rewrite <- Heq.
      * exfalso. apply Hfree, Exists_exists. exists x. split; [done|].
        split; [done|]. apply same_pair_rate_pair. by rewrite Heq.
      * by apply (NoDup_fmap_eq (λ r, rate_pair (rr_rate r)) (rt_rows t)).
    + by apply (NoDup_fmap_1 rr_id).
  - apply Forall_fmap. eapply Forall_impl; [exact Hseq|].
    intros r Hr. cbn [compose]. by rewrite Hupd_id.
Qed.

Lemma delete_rate_rows_wf (t : RateTable) (id : Z) :
  rates_wf t →
  rates_wf {| rt_rows := filter (λ r, rr_id r ≠ id) (rt_rows t);
              rt_seq := rt_seq t |}.
Proof.
  intros (Hid & Hpair & Hseq). rewrite stored_pairs in Hpair.
  unfold rates_wf. rewrite stored_pairs. cbn [rt_rows rt_seq].
  assert (filter (λ r, rr_id r ≠ id) (rt_rows t) `sublist_of` rt_rows t)
    as Hsub by apply sublist_filter.
  split; [|split].
  - eapply sublist_NoDup; [exact Hid|]. by apply fmap_sublist.
  - eapply sublist_NoDup; [exact Hpair|]. by apply fmap_sublist.
  - apply Forall_forall. intros r [_ Hr]%list_elem_of_filter.
    by apply (proj1 (Forall_forall _ _) Hseq).
Qed.

(** X20. The three writing routes of the currency router keep the
    constraints of currency_rates: from a table with distinct ids, distinct
    (from, to) pairs and a counter that is not below an id in use, the table
    left by POST /, by DELETE /:id and by a PUT /:id that does not throw is
    such a table again, whatever the request. *)
Theorem rate_routes_keep_constraints
    (clk : Clock) (t : RateTable) (id : Z) (body : RateBody) :
  rates_wf t →
  rates_wf (post_rate clk t body).2
  ∧ rates_wf (delete_rate t id).2
  ∧ ∀ res t', put_rate clk t id body = Resolved (res, t') → rates_wf t'.
Proof.
  intros Hwf. split; [|split].
  - unfold post_rate.
    destruct (truthy (rb_from_currency body)); [|done].
    destruct (truthy (rb_to_currency body)); [|done].
    destruct (rb_rate body); [|done]. by apply insert_or_replace_wf.
  - unfold delete_rate. destruct (select_id t id); [|done].
    by apply delete_rate_rows_wf.
  - intros res t'. unfold put_rate.
    destruct (select_id t id) as [existing|]; [|by intros [= _ <-]].
    case_decide as Hfree; [done|]. intros [= _ <-].
    by apply put_rate_rows_wf.
Qed.

Lemma sample_rate_table_wf : rates_wf sample_rate_table.
Proof.
  split; [|split].
  - by apply (bool_decide_unpack _).
  - by apply (bool_decide_unpack _).
  - repeat (apply Forall_cons; split; [done|]). apply Forall_nil_2.
Qed.

Lemma rate_routes_keep_constraints_witness :
  rates_wf (post_rate sample_clock sample_rate_table
              {| rb_from_currency := Some "usd"; rb_to_currency := Some "eur";
                 rb_rate := Some (dec 95 100) |}).2
  ∧ rates_wf (delete_rate sample_rate_table 2).2
  ∧ ∀ res t',
      put_rate sample_clock sample_rate_table 2
        {| rb_from_currency := Some "usd"; rb_to_currency := Some "eur";
           rb_rate := Some (dec 95 100) |} = Resolved (res, t') →
      rates_wf t'.
Proof.
  apply (rate_routes_keep_constraints sample_clock sample_rate_table 2
           {| rb_from_currency := Some "usd"; rb_to_currency := Some "eur";
              rb_rate := Some (dec 95 100) |}).
  split; [|split].
  - by apply (bool_decide_unpack _).
  - by apply (bool_decide_unpack _).
  - repeat (apply Forall_cons; split; [done|]). apply Forall_nil_2.
Defined.

Lemma select_pair_None (rows : list RateRow) (seq : Z) (A B : string) :
  (∀ r, r ∈ rows → rate_pair (rr_rate r) ≠ (A, B)) →
  select_rate (stored_rates {| rt_rows := rows; rt_seq := seq |}) A B = None.
Proof.
  intros Hno. rewrite select_rate_stored. unfold select_pair. cbn [rt_rows].
  rewrite filter_none; [done|]. apply Forall_forall. intros r Hr Hp.
  by apply (Hno r Hr), same_pair_rate_pair.
Qed.

(** X21. DELETE /currencies/:id removes the rate from the converter: on a
    table that satisfies its constraints, deleting the row of an id in use
    answers 200, leaves no row under that id and no rate for the pair of
    the deleted row, so that a conversion between its two (different)
    currencies answers 404 afterwards, and changes the rate of no other
    pair; the counter stays, so the id is not given out again. *)
Theorem delete_rate_then_convert
    (t : RateTable) (id : Z) (row : RateRow) (parseFloat : string → Qc) :
  rates_wf t →
  select_id t id = Some row →
  (delete_rate t id).1 = Json 200 "Rate deleted"
  ∧ select_id (delete_rate t id).2 id = None
  ∧ (id < next_id (delete_rate t id).2)%Z
  ∧ (∀ A B, rate_pair (rr_rate row) ≠ (A, B) →
       select_rate (stored_rates (delete_rate t id).2) A B
       = select_rate (stored_rates t) A B)
  ∧ (∀ from to amount,
       from ≠ "" → to ≠ "" → amount ≠ "" →
       rate_pair (rr_rate row) = (toUpperCase from, toUpperCase to) →
       toUpperCase from ≠ toUpperCase to →
       get_convert parseFloat (stored_rates (delete_rate t id).2)
         {| q_from := Some from; q_to := Some to; q_amount := Some amount |}
       = (ErrorJson 404 ("No rate found for " +:+ from +:+ " to " +:+ to),
          [(toUpperCase from, toUpperCase to)])).
Proof.
  intros (Hid & Hpair & Hseq) Hsel. rewrite stored_pairs in Hpair.
  destruct (select_id_Some t id row Hsel) as [Hin Hrid].
  unfold delete_rate. rewrite Hsel. cbn [fst snd].
  assert (∀ r, r ∈ rt_rows t → rr_id r = id → r = row) as Honly.
  { intros r Hr Hri. apply (NoDup_fmap_eq rr_id (rt_rows t)); [done..|congruence]. }
  split; [done|split; [|split; [|split]]].
  - unfold select_id. cbn [rt_rows]. rewrite list_filter_filter.
    rewrite filter_none; [done|]. apply Forall_forall. intros r _. tauto.
  - destruct (next_id_gt {| rt_rows := filter (λ r, rr_id r ≠ id) (rt_rows t);
                            rt_seq := rt_seq t |}) as [Hgt _].
    cbn [rt_seq] in Hgt.
    pose proof (proj1 (Forall_forall _ _) Hseq row Hin) as Hle. simpl in Hle. lia.
  - intros A B Hne. rewrite !select_rate_stored. unfold select_pair.
    cbn [rt_rows]. rewrite list_filter_filter. f_equal. f_equal.
    apply filter_ext_in. intros r Hr. split; [tauto|]. intros Hp. split; [done|].
    intros Hri. apply Hne. rewrite <- (Honly r Hr Hri).
    by apply same_pair_rate_pair.
  - intros from to amount Hf Ht Ha Hp Hne. unfold get_convert.
    cbn [q_from q_to q_amount]. rewrite !truthy_Some by done.
    rewrite decide_False by done.
    rewrite select_pair_None; [done|].
    intros r [Hri Hr]%list_elem_of_filter Hrp. apply Hri.
    assert (r = row) as -> by
      (apply (NoDup_fmap_eq (λ r, rate_pair (rr_rate r)) (rt_rows t));
       [done..|congruence]).
    done.
Qed.

Lemma delete_rate_then_convert_witness :
  get_convert (λ _, dec 100 1) (stored_rates (delete_rate sample_rate_table 3).2)
    {| q_from := Some "gbp"; q_to := Some "eur"; q_amount := Some "100" |}
  = (ErrorJson 404 "No rate found for gbp to eur", [("GBP", "EUR")]).
Proof.
  refine (proj2 (proj2 (proj2 (proj2
    (delete_rate_then_convert sample_rate_table 3
       {| rr_id := 3; rr_rate := {| cr_from_currency := "GBP";
                                    cr_to_currency := "EUR";
                                    cr_rate := dec 117 100 |};
          rr_updated_at := "2024-03-01 09:00:00" |} (λ _, dec 100 1)
       sample_rate_table_wf _)))) "gbp" "eur" "100" _ _ _ _ _); done.
Defined.

(** X22. PUT /currencies/:id on an id in use: the route throws exactly when
    another row already holds the pair the row is to be given, and then the
    table is not changed; otherwise it answers 200 with the row as stored,
    which keeps its id and takes the upper-cased codes and the rate of the
    request, each missing or empty field being taken from the existing row,
    and the converter finds the new rate under the new pair. *)
Theorem put_rate_updates_or_throws
    (clk : Clock) (t : RateTable) (id : Z) (body : RateBody) (existing : RateRow) :
  rates_wf t →
  select_id t id = Some existing →
  let from := toUpperCase (opt_str_or (rb_from_currency body)
                             (cr_from_currency (rr_rate existing))) in
  let to := toUpperCase (opt_str_or (rb_to_currency body)
                           (cr_to_currency (rr_rate existing))) in
  let rate := default (cr_rate (rr_rate existing)) (rb_rate body) in
  match put_rate clk t id body with
  | Thrown _ =>
      ∃ r, r ∈ rt_rows t ∧ rr_id r ≠ id ∧ rate_pair (rr_rate r) = (from, to)
  | Resolved (res, t') =>
      (∀ r, r ∈ rt_rows t → rr_id r ≠ id → rate_pair (rr_rate r) ≠ (from, to))
      ∧ res = Json 200 (Some {| rr_id := id;
                                rr_rate := {| cr_from_currency := from;
                                              cr_to_currency := to;
                                              cr_rate := rate |};
                                rr_updated_at := current_timestamp clk |})
      ∧ select_rate (stored_rates t') from to = Some rate
      ∧ rt_seq t' = rt_seq t
  end.
Proof.
  intros Hwf Hsel from to rate.
  destruct (select_id_Some t id existing Hsel) as [Hin Hrid].
  unfold put_rate. rewrite Hsel. fold from to.
  replace (match rb_rate body with
           | Some rate0 => rate0
           | None => cr_rate (rr_rate existing)
           end) with rate by (unfold rate; by destruct (rb_rate body)).
  case_decide as Hfree.
  - apply Exists_exists in Hfree as (r & Hr & Hri & Hp).
    exists r. split; [done|]. split; [done|]. by apply same_pair_rate_pair.
  - pose proof (put_rate_rows_wf clk t id from to rate Hwf Hfree) as Hwf'.
    set (upd := λ r : RateRow, if decide (rr_id r = id) then _ else r) in *.
    set (t' := {| rt_rows := upd <$> rt_rows t; rt_seq := rt_seq t |}) in *.
    assert (upd existing ∈ rt_rows t') as Hin'.
    { apply list_elem_of_fmap. by exists existing. }
    assert (upd existing
            = {| rr_id := id;
                 rr_rate := {| cr_from_currency := from; cr_to_currency := to;
                               cr_rate := rate |};
                 rr_updated_at := current_timestamp clk |}) as Hupd.
    { unfold upd. rewrite decide_True by done. by rewrite Hrid. }
    destruct Hwf' as (Hid' & Hpair' & _). rewrite stored_pairs in Hpair'.
    split; [|split; [|split; [|done]]].
    + intros r Hr Hri Hp. apply Hfree, Exists_exists. exists r.
      split; [done|]. split; [done|]. by apply same_pair_rate_pair.
    + f_equal. unfold select_id.
      destruct (filter (λ r, rr_id r = id) (rt_rows t')) as [|x l] eqn:E.
      * exfalso. eapply (filter_nil_not_elem_of _ _ (upd existing) E); [|done].
        by rewrite Hupd.
      * cbn [head]. f_equal. rewrite <- Hupd.
        assert (x ∈ filter (λ r, rr_id r = id) (rt_rows t')) as Hx
          by (rewrite E; by left).
        apply list_elem_of_filter in Hx as [Hxi Hx].
        apply (NoDup_fmap_eq rr_id (rt_rows t')); [done..|].
        by rewrite Hupd.
    + rewrite select_rate_stored. unfold select_pair.
      destruct (filter (same_pair from to) (rt_rows t')) as [|x l] eqn:E.
      * exfalso. eapply (filter_nil_not_elem_of _ _ (upd existing) E); [|done].
        by rewrite Hupd.
      * cbn [head fmap option_fmap option_map].
        assert (x ∈ filter (same_pair from to) (rt_rows t')) as Hx
          by (rewrite E; by left).
        apply list_elem_of_filter in Hx as [Hxp Hx].
        assert (x = upd existing) as ->.
        { apply (NoDup_fmap_eq (λ r, rate_pair (rr_rate r)) (rt_rows t'));
            [done..|].
          apply same_pair_rate_pair in Hxp. rewrite Hxp. by rewrite Hupd. }
        by rewrite Hupd.
Qed.

Lemma put_rate_updates_or_throws_witness :
  match put_rate sample_clock sample_rate_table 3
          {| rb_from_currency := Some "usd"; rb_to_currency := None;
             rb_rate := None |} with
  | Thrown _ =>
      ∃ r, r ∈ rt_rows sample_rate_table ∧ rr_id r ≠ 3%Z
           ∧ rate_pair (rr_rate r) = ("USD", "EUR")
  | Resolved (res, t') =>
      (∀ r, r ∈ rt_rows sample_rate_table → rr_id r ≠ 3%Z →
            rate_pair (rr_rate r) ≠ ("USD", "EUR"))
      ∧ res = Json 200 (Some {| rr_id := 3;
                                rr_rate := {| cr_from_currency := "USD";
                                              cr_to_currency := "EUR";
                                              cr_rate := dec 117 100 |};
                                rr_updated_at := current_timestamp sample_clock |})
      ∧ select_rate (stored_rates t') "USD" "EUR" = Some (dec 117 100)
      ∧ rt_seq t' = rt_seq sample_rate_table
  end.
Proof.
  apply (put_rate_updates_or_throws sample_clock sample_rate_table 3
           {| rb_from_currency := Some "usd"; rb_to_currency := None;
              rb_rate := None |}
           {| rr_id := 3; rr_rate := {| cr_from_currency := "GBP";
                                        cr_to_currency := "EUR";
                                        cr_rate := dec 117 100 |};
              rr_updated_at := "2024-03-01 09:00:00" |}
           sample_rate_table_wf).
  reflexivity.
Defined.

(** ** Calendar view: GET /daily-wealth *)

Global Instance row_date_le_trans : Transitive row_date_le.
Proof. intros a b c. unfold row_date_le. apply str_le_trans. Qed.

Global Instance row_date_le_total : Total row_date_le.
Proof. intros a b. unfold row_date_le. apply str_le_total. Qed.

Lemma StronglySorted_fmap_date (l : list (string * DailyWealth)) :
  StronglySorted row_date_le l → StronglySorted str_le l.*1.
Proof.
  induction 1 as [|x l _ IH Hall]; [constructor|].
  rewrite fmap_cons. constructor; [done|]. by apply Forall_fmap.
Qed.

Lemma daily_wealth_rows (daily_wealth : gmap string DailyWealth) (s e : string) :
  let rows :=
    daily_wealth_json
    <$> merge_sort row_date_le
          (filter (λ r, str_le s r.1 ∧ str_le r.1 e) (map_to_list daily_wealth)) in
  (∀ row, row ∈ rows ↔
     ∃ d w, daily_wealth !! d = Some w ∧ str_le s d ∧ str_le d e
            ∧ row = daily_wealth_json (d, w))
  ∧ StronglySorted str_le (dj_date <$> rows)
  ∧ NoDup (dj_date <$> rows)
  ∧ (¬ str_le s e → rows = []).
Proof.
  set (sel := filter (λ r : string * DailyWealth, str_le s r.1 ∧ str_le r.1 e)
                (map_to_list daily_wealth)).
  cbn zeta.
  assert (dj_date <$> (daily_wealth_json <$> merge_sort row_date_le sel)
          = (merge_sort row_date_le sel).*1) as Hdates.
  { rewrite <- list_fmap_compose. by apply list_fmap_ext. }
  assert (∀ d w, (d, w) ∈ sel ↔
                 daily_wealth !! d = Some w ∧ str_le s d ∧ str_le d e) as Hsel.
  { intros d w. unfold sel. rewrite list_elem_of_filter, elem_of_map_to_list.
    cbn [fst]. tauto. }
  split; [|split; [|split]].
  - intros row. rewrite list_elem_of_fmap. split.
    + intros ([d w] & -> & Hin). rewrite merge_sort_Permutation in Hin.
      apply Hsel in Hin as (? & ? & ?). by exists d, w.
    + intros (d & w & Hd & Hs & He & ->). exists (d, w). split; [done|].
      rewrite merge_sort_Permutation. by apply Hsel.
  - rewrite Hdates. apply StronglySorted_fmap_date.
    apply StronglySorted_merge_sort; apply _.
  - rewrite Hdates, merge_sort_Permutation.
    eapply sublist_NoDup; [apply (NoDup_fst_map_to_list daily_wealth)|].
    apply fmap_sublist, sublist_filter.
  - intros Hse.
    assert (sel = []) as ->; [|done].
    apply filter_none, Forall_forall. intros [d w] _ [Hs He]. apply Hse.
    by etrans.
Qed.

(** X23. GET /daily-wealth answers 400 unless both start and end are given
    and not empty; otherwise it answers 200 with exactly the stored
    snapshots whose date lies between start and end, both included, one
    row per date, in ascending order of the date, each with the stored
    totals, currency and details; a range whose start is after its end
    gives the empty list. *)
Theorem daily_wealth_range
    (daily_wealth : gmap string DailyWealth) (start end_ : option string) :
  match get_daily_wealth daily_wealth start end_ with
  | ErrorJson status _ =>
      status = 400%nat ∧ (truthy start = None ∨ truthy end_ = None)
  | Json status rows =>
      status = 200%nat
      ∧ ∃ s e, truthy start = Some s ∧ truthy end_ = Some e
          ∧ (∀ row, row ∈ rows ↔
               ∃ d w, daily_wealth !! d = Some w ∧ str_le s d ∧ str_le d e
                      ∧ row = daily_wealth_json (d, w))
          ∧ StronglySorted str_le (dj_date <$> rows)
          ∧ NoDup (dj_date <$> rows)
          ∧ (¬ str_le s e → rows = [])
  end.
Proof.
  unfold get_daily_wealth.
  destruct (truthy start) as [s|]; [|split; [done|by left]].
  destruct (truthy end_) as [e|]; [|split; [done|by right]].
  split; [done|]. exists s, e. split; [done|]. split; [done|].
  apply daily_wealth_rows.
Qed.

(** X24. A snapshot taken by POST /daily-wealth shows up in the calendar:
    on the table it leaves behind, GET /daily-wealth for a range that
    contains today lists a row dated today with the totals and the base
    currency of the answer of the POST, and that is its only row of that
    date; the rows of the other dates of the range are those stored
    before. *)
Theorem snapshot_then_calendar
    (clk : Clock) (db : Db) (s e : string) :
  s ≠ "" → e ≠ "" → str_le s (today clk) → str_le (today clk) e →
  ∃ rows,
    get_daily_wealth (post_daily_wealth clk db).2 (Some s) (Some e) = Json 200 rows
    ∧ (∀ row, row ∈ rows → dj_date row = today clk →
         (post_daily_wealth clk db).1
         = Json 200 {| sj_date := dj_date row;
                       sj_total_wealth := dj_total_wealth row;
                       sj_total_cost := dj_total_cost row;
                       sj_base_currency := dj_base_currency row |})
    ∧ (∃ row, row ∈ rows ∧ dj_date row = today clk)
    ∧ NoDup (dj_date <$> rows)
    ∧ (∀ row, dj_date row ≠ today clk →
         row ∈ rows ↔
         ∃ rows0, get_daily_wealth (daily_wealth db) (Some s) (Some e)
                  = Json 200 rows0 ∧ row ∈ rows0).
Proof.
  intros Hs He Hst Hte.
  destruct (daily_wealth_rows (post_daily_wealth clk db).2 s e)
    as (Hrows & _ & Hnd & _).
  destruct (daily_wealth_rows (daily_wealth db) s e) as (Hrows0 & _).
  unfold get_daily_wealth. rewrite !truthy_Some by done.
  eexists. split; [done|].
  unfold post_daily_wealth in *. cbn [fst snd] in *.
  split; [|split; [|split; [done|]]].
  - intros row Hrow Hdate. apply Hrows in Hrow as (d & w & Hd & _ & _ & ->).
    cbn in Hdate. subst d. rewrite lookup_insert_eq in Hd. by injection Hd as <-.
  - eexists. split.
    + apply Hrows. eexists _, _. split; [apply lookup_insert_eq|]. done.
    + done.
  - intros row Hdate. rewrite Hrows. split.
    + intros (d & w & Hd & Hsd & Hde & ->). cbn in Hdate.
      rewrite lookup_insert_ne in Hd by done.
      eexists. split; [done|]. apply Hrows0. by exists d, w.
    + intros (rows0 & [= <-] & Hin). apply Hrows0 in Hin
        as (d & w & Hd & Hsd & Hde & ->). cbn in Hdate.
      exists d, w. by rewrite lookup_insert_ne.
Qed.

Lemma snapshot_then_calendar_witness :
  ∃ rows,
    get_daily_wealth (post_daily_wealth sample_clock sample_db).2
      (Some "2024-03-01") (Some "2024-03-31") = Json 200 rows
    ∧ (∀ row, row ∈ rows → dj_date row = today sample_clock →
         (post_daily_wealth sample_clock sample_db).1
         = Json 200 {| sj_date := dj_date row;
                       sj_total_wealth := dj_total_wealth row;
                       sj_total_cost := dj_total_cost row;
                       sj_base_currency := dj_base_currency row |})
    ∧ (∃ row, row ∈ rows ∧ dj_date row = today sample_clock)
    ∧ NoDup (dj_date <$> rows)
    ∧ (∀ row, dj_date row ≠ today sample_clock →
         row ∈ rows ↔
         ∃ rows0, get_daily_wealth (daily_wealth sample_db)
                    (Some "2024-03-01") (Some "2024-03-31")
                  = Json 200 rows0 ∧ row ∈ rows0).
Proof.
  apply (snapshot_then_calendar sample_clock sample_db "2024-03-01" "2024-03-31");
    done.
Defined.

(** ** Holdings of one account *)

Global Instance cost_ge_trans : Transitive cost_ge.
Proof. intros a b c Hab Hbc. unfold cost_ge in *. by eapply Qcle_trans. Qed.

Global Instance cost_ge_total : Total cost_ge.
Proof.
  intros a b. unfold cost_ge.
  destruct (Qclt_le_dec (ah_total_cost a) (ah_total_cost b)) as [Hlt|Hle].
  - right. by apply Qclt_le_weak.
  - by left.
Qed.

Lemma sum_qc_if_filter {A : Type} (b : A → bool) (f : A → Qc) (l : list A) :
  sum_qc ((λ x, if b x then f x else 0) <$> l)
  = sum_qc (f <$> filter (λ x, b x = true) l).
Proof.
  induction l as [|x l IH]; [done|].
  rewrite fmap_cons, sum_qc_cons, IH. destruct (b x) eqn:E.
  - rewrite filter_cons_True by done. by rewrite fmap_cons, sum_qc_cons.
  - rewrite filter_cons_False by (by rewrite E). ring.
Qed.

Lemma min_date_spec (l : list string) (d : string) :
  (min_date d l = d ∨ min_date d l ∈ l)
  ∧ str_le (min_date d l) d ∧ ∀ x, x ∈ l → str_le (min_date d l) x.
Proof.
  unfold min_date. revert d. induction l as [|y l IH]; intros d; cbn [foldl].
  - split; [by left|]. split; [apply str_le_refl|].
    intros x Hx. by apply elem_of_nil in Hx.
  - case_decide as Hyd.
    + destruct (IH y) as (Hin & Hle & Hall). split; [|split].
      * right. destruct Hin as [->|Hin]; [by left|by right].
      * by etrans.
      * intros x [->|Hx]%elem_of_cons; [done|by apply Hall].
    + destruct (IH d) as (Hin & Hle & Hall). split; [|split].
      * destruct Hin as [?|Hin]; [by left|right; by right].
      * done.
      * intros x [->|Hx]%elem_of_cons; [|by apply Hall].
        etrans; [exact Hle|]. by destruct (str_le_total d y).
Qed.

Lemma max_date_spec (l : list string) (d : string) :
  (max_date d l = d ∨ max_date d l ∈ l)
  ∧ str_le d (max_date d l) ∧ ∀ x, x ∈ l → str_le x (max_date d l).
Proof.
  unfold max_date. revert d. induction l as [|y l IH]; intros d; cbn [foldl].
  - split; [by left|]. split; [apply str_le_refl|].
    intros x Hx. by apply elem_of_nil in Hx.
  - case_decide as Hdy.
    + destruct (IH y) as (Hin & Hle & Hall). split; [|split].
      * right. destruct Hin as [->|Hin]; [by left|by right].
      * by etrans.
      * intros x [->|Hx]%elem_of_cons; [done|by apply Hall].
    + destruct (IH d) as (Hin & Hle & Hall). split; [|split].
      * destruct Hin as [?|Hin]; [by left|right; by right].
      * done.
      * intros x [->|Hx]%elem_of_cons; [|by apply Hall].
        etrans; [|exact Hle]. by destruct (str_le_total d y).
Qed.

Lemma account_group_pair_txs (txs : list Transaction) (id : Z) (s : string) :
  filter (λ t, tx_symbol t = s) (filter (λ t, tx_account_id t = id) txs)
  = pair_txs s id txs.
Proof. unfold pair_txs. by rewrite list_filter_filter. Qed.

Lemma account_holding_of_group_Some bare (txs : list Transaction) (id : Z)
    (s : string) (h : AccountHolding) :
  (∀ t rest, bare t rest ∈ t :: rest) →
  account_holding_of_group bare (pair_txs s id txs) = Some h →
  ah_symbol h = s
  ∧ ah_quantity h = spec_quantity s id txs
  ∧ ah_avg_cost h = spec_avg_cost s id txs
  ∧ ah_total_cost h = sum_qc (cost_flow <$> pair_txs s id txs)
  ∧ ah_transaction_count h = length (pair_txs s id txs)
  ∧ (0 < ah_transaction_count h)%nat
  ∧ (∀ t, t ∈ pair_txs s id txs →
          str_le (ah_first_transaction h) (tx_date t)
          ∧ str_le (tx_date t) (ah_last_transaction h))
  ∧ (∃ t, t ∈ pair_txs s id txs ∧ tx_date t = ah_first_transaction h)
  ∧ (∃ t, t ∈ pair_txs s id txs ∧ tx_date t = ah_last_transaction h)
  ∧ ∃ r, r ∈ pair_txs s id txs ∧ eps < tx_quantity r.
Proof.
  intros Hbare. unfold account_holding_of_group.
  destruct (pair_txs s id txs) as [|t rest] eqn:E; [done|].
  case_decide as Hq; [|done]. intros [= <-].
  cbn [ah_symbol ah_quantity ah_avg_cost ah_total_cost ah_transaction_count
       ah_first_transaction ah_last_transaction].
  assert (t ∈ pair_txs s id txs) as Ht by (rewrite E; by left).
  unfold pair_txs in Ht. apply list_elem_of_filter in Ht as [[Hs _] _].
  destruct (min_date_spec (tx_date <$> rest) (tx_date t)) as (Hmin & Hmin0 & Hmin1).
  destruct (max_date_spec (tx_date <$> rest) (tx_date t)) as (Hmax & Hmax0 & Hmax1).
  split; [done|]. split; [|split; [|split; [done|split; [done|split]]]].
  - unfold spec_quantity. rewrite E. unfold acquired, disposed.
    by rewrite <- !sum_qc_if_filter.
  - unfold spec_avg_cost. rewrite E. unfold acquired.
    rewrite div_nullif_js_div. by rewrite <- !sum_qc_if_filter.
  - simpl. lia.
  - split; [|split; [|split]].
    + intros x [->|Hx]%elem_of_cons; [done|].
      split; [apply Hmin1|apply Hmax1]; apply list_elem_of_fmap; by exists x.
    + destruct Hmin as [->|Hin]; [exists t; split; [by left|done]|].
      apply list_elem_of_fmap in Hin as (x & -> & Hx). exists x. split; [by right|done].
    + destruct Hmax as [->|Hin]; [exists t; split; [by left|done]|].
      apply list_elem_of_fmap in Hin as (x & -> & Hx). exists x. split; [by right|done].
    + exists (bare t rest). split; [apply Hbare|done].
Qed.

(** X25. GET /accounts/:id/holdings answers 404 for an unknown account and
    otherwise 200 with at most one row per symbol, ordered by descending
    total_cost; whichever row of a group the engine reads the bare quantity
    of the HAVING clause from, each row reports for its symbol the same
    quantity and average cost as the Holdings Aggregator for that (symbol,
    account) pair, the number of the pair's transactions (at least one),
    the dates of its earliest and latest transaction, and the pair has a
    transaction whose own quantity is above ε. *)
Theorem account_holdings_rows
    (bare : Transaction → list Transaction → Transaction) (db : Db) (id : Z) :
  (∀ t rest, bare t rest ∈ t :: rest) →
  match get_account_holdings bare db id with
  | ErrorJson status _ => status = 404%nat ∧ db_accounts db !! id = None
  | Json status rows =>
      status = 200%nat
      ∧ is_Some (db_accounts db !! id)
      ∧ NoDup (ah_symbol <$> rows)
      ∧ StronglySorted cost_ge rows
      ∧ ∀ h, h ∈ rows →
          ah_quantity h = spec_quantity (ah_symbol h) id (transactions db)
          ∧ ah_avg_cost h = spec_avg_cost (ah_symbol h) id (transactions db)
          ∧ ah_transaction_count h
            = length (pair_txs (ah_symbol h) id (transactions db))
          ∧ (0 < ah_transaction_count h)%nat
          ∧ (∀ t, t ∈ pair_txs (ah_symbol h) id (transactions db) →
                  str_le (ah_first_transaction h) (tx_date t)
                  ∧ str_le (tx_date t) (ah_last_transaction h))
          ∧ ∃ r, r ∈ pair_txs (ah_symbol h) id (transactions db)
                 ∧ eps < tx_quantity r
  end.
Proof.
  intros Hbare. unfold get_account_holdings.
  destruct (db_accounts db !! id) as [a|] eqn:Ea; [|done].
  split; [done|]. split; [done|].
  set (rows := filter (λ t, tx_account_id t = id) (transactions db)).
  set (groups := omap _ _).
  assert (∀ s h, account_holding_of_group bare (filter (λ t, tx_symbol t = s) rows)
                 = Some h → ah_symbol h = s) as Hkey.
  { intros s h Hh. unfold rows in Hh. rewrite account_group_pair_txs in Hh.
    by apply account_holding_of_group_Some in Hh as [? _]. }
  split; [|split].
  - rewrite merge_sort_Permutation. unfold groups.
    apply (NoDup_omap_key _ ah_symbol); [exact Hkey|apply NoDup_remove_dups].
  - apply StronglySorted_merge_sort; apply _.
  - intros h Hh. rewrite merge_sort_Permutation in Hh. unfold groups in Hh.
    apply list_elem_of_omap in Hh as (s & _ & Hh).
    unfold rows in Hh. rewrite account_group_pair_txs in Hh.
    apply account_holding_of_group_Some in Hh
      as (-> & Hq & Hc & _ & Hn & Hpos & Hdates & _ & _ & Hr); done.
Qed.

Lemma latest_row_in (t : Transaction) (rest : list Transaction) :
  latest_row t rest ∈ t :: rest.
Proof.
  unfold latest_row. revert t. induction rest as [|x l IH]; intros t; cbn [foldl].
  - by left.
  - case_decide.
    + right. apply IH.
    + pose proof (IH t) as Hin. apply elem_of_cons in Hin as [Heq|Hin].
      * rewrite Heq. by left.
      * right. by right.
Qed.

Lemma account_holdings_rows_witness :
  match get_account_holdings latest_row sample_db 1 with
  | ErrorJson status _ => status = 404%nat ∧ db_accounts sample_db !! 1%Z = None
  | Json status rows =>
      status = 200%nat
      ∧ is_Some (db_accounts sample_db !! 1%Z)
      ∧ NoDup (ah_symbol <$> rows)
      ∧ StronglySorted cost_ge rows
      ∧ ∀ h, h ∈ rows →
          ah_quantity h = spec_quantity (ah_symbol h) 1 (transactions sample_db)
          ∧ ah_avg_cost h = spec_avg_cost (ah_symbol h) 1 (transactions sample_db)
          ∧ ah_transaction_count h
            = length (pair_txs (ah_symbol h) 1 (transactions sample_db))
          ∧ (0 < ah_transaction_count h)%nat
          ∧ (∀ t, t ∈ pair_txs (ah_symbol h) 1 (transactions sample_db) →
                  str_le (ah_first_transaction h) (tx_date t)
                  ∧ str_le (tx_date t) (ah_last_transaction h))
          ∧ ∃ r, r ∈ pair_txs (ah_symbol h) 1 (transactions sample_db)
                 ∧ eps < tx_quantity r
  end.
Proof.
  apply (account_holdings_rows latest_row sample_db 1). apply latest_row_in.
Defined.

(** ** GET /dashboard/summary: when it fails *)

Lemma js_set_nil_iff (l : list string) : js_set l = [] ↔ l = [].
Proof.
  split; [|by intros ->]. intros Hnil. destruct l as [|x l]; [done|].
  assert (x ∈ js_set (x :: l)) as Hin by (apply elem_of_js_set; by left).
  rewrite Hnil in Hin. by apply elem_of_nil in Hin.
Qed.

(** X26. GET /dashboard/summary fails only for want of the provider client:
    it answers with an error exactly when there is a holding to price and
    obtaining the client throws; the error is then a 500 with the message
    thrown, nothing has been fetched and the price cache is as it was.
    Without holdings the route answers 200 even then. *)
Theorem summary_fails_only_without_client
    (gyf : outcome YahooFinance) (clk : Clock) (db : Db)
    (status : nat) (message : string) (fx : QuoteEffects) :
  dashboard_summary gyf clk db = (ErrorJson status message, fx)
  ↔ status = 500%nat ∧ gyf = Thrown message
    ∧ holdings_query (transactions db) (db_accounts db) ≠ []
    ∧ fx = {| fx_cache := price_cache db; fx_fetched := [] |}.
Proof.
  unfold dashboard_summary.
  destruct (js_set (h_symbol <$> holdings_query (transactions db) (db_accounts db)))
    as [|s l] eqn:E.
  - apply js_set_nil_iff, fmap_nil_inv in E. split; [done|].
    by intros (_ & _ & ? & _).
  - assert (holdings_query (transactions db) (db_accounts db) ≠ []) as Hne.
    { intros Hnil. by rewrite Hnil in E. }
    destruct gyf as [yf|m].
    + destruct (foldl (resolve_one yf clk) _ (s :: l)) as [prices fx'].
      split; [done|]. by intros (_ & ? & _).
    + split; [by intros [= <- <- <-]|]. by intros (-> & [= ->] & _ & ->).
Qed.
